(** * Nowack_Lab: instrument control and measurement procedures

    A shallow embedding of the parts of the laboratory toolkit that carry
    logic of their own:

    - [Procedures/array_tune.py]: the SQUID array tuning loop [ArrayTune];
    - [Instruments/nidaq.py]: the DAQ driver [NIDAQ] (ramps, sweeps, the
      send/receive wrapper);
    - [Utilities/dataset.py]: the HDF5 layer [Dataset].

    Python floats are idealised as exact rationals ([Q]): there is no NaN
    and no infinity, no rounding, no overflow and no underflow, and what is
    proved about voltages, fluxes and errors is proved for numbers in that
    sense.  Numeric equalities are therefore stated with [==] ([Qeq]) unless
    both sides are the very same expression.  Hardware readings and replies typed by the user are inputs of
    the model: the readings are an arbitrary sequence indexed by a measurement
    counter, the replies an arbitrary finite list consumed by [input]. *)

From Stdlib Require Import ZArith QArith Qabs List String Bool Lia DecimalString.
From Stdlib Require Import Lqa DecimalNat DecimalFacts.
From stdpp Require Import base option list gmap strings.

Import ListNotations.
Local Open Scope Z_scope.
Local Set Warnings "-register-all".

(** ** Comparisons on rationals as the booleans Python computes *)

Definition Qltb (a b : Q) : bool := negb (Qle_bool b a).
Definition Qgtb (a b : Q) : bool := Qltb b a.

(** ** A small Python runtime: exceptions, dicts in insertion order, heap *)

Module Py.

Inductive exn :=
| KeyError
| IndexError
| ValueError
| TypeError
| EOFError
| OSError
| Exception (msg : string).

Inductive result (A : Type) :=
| Ok (a : A)
| Raise (e : exn).
Arguments Ok {A} a.
Arguments Raise {A} e.

Definition bind {A B : Type} (r : result A) (k : A -> result B) : result B :=
  match r with Ok a => k a | Raise e => Raise e end.

(** A dict with string keys, in insertion order. *)
Definition dict (V : Type) := list (string * V).

Fixpoint dict_get {V : Type} (k : string) (d : dict V) : option V :=
  match d with
  | [] => None
  | (k', v) :: d => if String.eqb k k' then Some v else dict_get k d
  end.

(** [d[k] = v]: replaces the value of an existing key in place, appends a
    new key. *)
Fixpoint dict_set {V : Type} (k : string) (v : V) (d : dict V) : dict V :=
  match d with
  | [] => [(k, v)]
  | (k', v') :: d =>
    if String.eqb k k' then (k', v) :: d else (k', v') :: dict_set k v d
  end.

Definition keys {V : Type} (d : dict V) : list string := map fst d.

(** Objects that can be shared by reference: a list of numbers, or a dict
    from channel names to references. *)
Definition loc := positive.

Inductive object :=
| OList (xs : list Q)
| ODict (items : dict loc).

Abbreviation heap := (gmap loc object).

Definition alloc (o : object) (h : heap) : loc * heap :=
  let l := fresh (dom h) in (l, <[l := o]> h).

(** [d[len(d)-1]] and [d[-1]] on a non-empty list. *)
Definition last_elt (xs : list Q) : Q := List.last xs 0%Q.

End Py.

(** ** Procedures/array_tune.py *)

Module ArrayTune.

(** The two flux attributes [adjust] is called on. *)
Inductive attr := A_flux | S_flux.

Inductive lockmode := Array | Squid.
Inductive onoff := On | Off.

(** What the procedure does to the outside world, in order. *)
Inductive event :=
| EReset
| ELock (m : lockmode)
| EAcquire
| EMonitor
| EAdjust (a : attr)
| EPrintError (error : Q)
| EPrintLocked (used : Z)
| EPrint (msg : string).

(** The attributes of [self.squidarray] the procedure reads or writes. *)
Record squidarray := mkSquidArray {
  sa_A_flux : Q;
  sa_S_flux : Q;
  sa_S_flux_lim : Q;
  sa_S_bias : Q;
  sa_testInput : string;
  sa_testSignal : onoff;
  sa_sensitivity : string;
  sa_locked : lockmode
}.

(** [clock] counts the measurements taken so far; the [clock]-th reading of
    the environment is the mean of the "saa" channel of that measurement. *)
Record state := mkState {
  squid : squidarray;
  clock : nat;
  log : list event
}.

(** The object built by [__init__]. *)
Record t := mkArrayTune {
  squid_bias : Q;
  conversion : Q;
  squid_tol : Q;
  aflux_tol : Q;
  sflux_offset : Q;
  aflux_offset : Q
}.

(** [__init__(instruments, squid_bias, squid_tol=100e-3, aflux_tol=10e-3,
    sflux_offset=0.0, aflux_offset=0.0)] *)
Definition init (bias : Q) (stol atol soff aoff : option Q) : t :=
  {| squid_bias := bias;
     conversion := 10;
     squid_tol := default (100 # 1000)%Q stol;
     aflux_tol := default (10 # 1000)%Q atol;
     sflux_offset := default 0%Q soff;
     aflux_offset := default 0%Q aoff |}.

Definition getattr (sa : squidarray) (a : attr) : Q :=
  match a with A_flux => sa_A_flux sa | S_flux => sa_S_flux sa end.

Definition setattr (sa : squidarray) (a : attr) (v : Q) : squidarray :=
  match a with
  | A_flux => mkSquidArray v (sa_S_flux sa) (sa_S_flux_lim sa) (sa_S_bias sa)
                (sa_testInput sa) (sa_testSignal sa) (sa_sensitivity sa)
                (sa_locked sa)
  | S_flux => mkSquidArray (sa_A_flux sa) v (sa_S_flux_lim sa) (sa_S_bias sa)
                (sa_testInput sa) (sa_testSignal sa) (sa_sensitivity sa)
                (sa_locked sa)
  end.

Definition emit (e : event) (st : state) : state :=
  mkState (squid st) (clock st) (log st ++ [e]).

Definition with_squid (f : squidarray -> squidarray) (st : state) : state :=
  mkState (f (squid st)) (clock st) (log st).

Definition reset (st : state) : state := emit EReset st.

Definition lock (m : lockmode) (st : state) : state :=
  emit (ELock m)
    (with_squid (fun sa =>
       mkSquidArray (sa_A_flux sa) (sa_S_flux sa) (sa_S_flux_lim sa)
         (sa_S_bias sa) (sa_testInput sa) (sa_testSignal sa)
         (sa_sensitivity sa) m) st).

Definition set_testSignal (v : onoff) (st : state) : state :=
  with_squid (fun sa =>
    mkSquidArray (sa_A_flux sa) (sa_S_flux sa) (sa_S_flux_lim sa)
      (sa_S_bias sa) (sa_testInput sa) v (sa_sensitivity sa) (sa_locked sa))
    st.

Section Procedure.

(** The mean of the "saa" trace of each successive measurement. *)
Variable saa_mean : nat -> Q.
Variable self : t.

(** [tune_squid_setup] *)
Definition tune_squid_setup (st : state) : state :=
  let st := lock Array st in
  let st := with_squid (fun sa =>
      mkSquidArray (sa_A_flux sa) 0 150 (squid_bias self) "S_flux" On "High"
        (sa_locked sa)) st in
  reset st.

(** [acquire]: one measurement; its last component is the "saa" trace, of
    which the caller only takes the mean. *)
Definition acquire (st : state) : Q * state :=
  (saa_mean (clock st),
   mkState (squid st) (S (clock st)) (log st ++ [EAcquire])).

(** [self.daq.monitor(["saa"], 0.01, ...)] followed by [np.mean(ret["saa"])] *)
Definition monitor (st : state) : Q * state :=
  (saa_mean (clock st),
   mkState (squid st) (S (clock st)) (log st ++ [EMonitor])).

(** [adjust(attr, error)], for an error that is a number: a NaN fails both
    tests of the code and would be stored as it is, which [Q] has no value
    for. *)
Definition adjust (a : attr) (error : Q) (st : state) : state :=
  let value := getattr (squid st) a in
  let st := emit (EAdjust a) st in
  let st :=
    if Qltb (value + error * conversion self) 0 then
      with_squid (fun sa => setattr sa a (value + 50)) st
    else if Qgtb (value + error * conversion self) 150 then
      with_squid (fun sa => setattr sa a 0) st
    else
      with_squid (fun sa => setattr sa a (value + conversion self * error)) st
  in
  reset st.

(** [lock_squid(attempts)].  [depth] is the recursion depth still available;
    [None] is Python's RecursionError. *)
Fixpoint lock_squid (depth : nat) (attempts : Z) (st : state)
  : option (bool * state) :=
  match depth with
  | O => None
  | S depth =>
    let st := lock Squid st in
    let st := set_testSignal Off st in
    let st := reset st in
    let '(ret, st) := monitor st in
    let error := (ret - sflux_offset self)%Q in
    let st := emit (EPrintError error) st in
    if Qltb (Qabs error) (squid_tol self) then
      Some (true, emit (EPrintLocked (5 - attempts)) st)
    else if attempts =? 0 then
      Some (false, emit (EPrint "could not tune SQUID flux.") st)
    else
      lock_squid depth (attempts - 1) (adjust S_flux error st)
  end.

(** [tune_squid(attempts)]; the call [self.lock_squid()] takes the default
    [attempts=5]. *)
Fixpoint tune_squid (depth : nat) (attempts : Z) (st : state)
  : option (bool * state) :=
  match depth with
  | O => None
  | S depth =>
    let st := tune_squid_setup st in
    let '(mean, st) := acquire st in
    let error := (mean - aflux_offset self)%Q in
    if Qltb (Qabs error) (aflux_tol self) then
      lock_squid depth 5 st
    else if attempts =? 0 then
      Some (false, emit (EPrint "could not tune array flux.") st)
    else
      tune_squid depth (attempts - 1) (adjust A_flux error st)
  end.

(** The state in which [lock_squid] finds itself after its measurement. *)
Definition locked_state (st : state) : state :=
  emit (EPrintError (saa_mean (clock st) - sflux_offset self)%Q)
    (snd (monitor (reset (set_testSignal Off (lock Squid st))))).

Definition tuned_state (st : state) : state :=
  snd (acquire (tune_squid_setup st)).

(** The two tolerance tests, on the reading number [k]. *)
Definition aflux_ok (k : nat) : Prop :=
  (Qabs (saa_mean k - aflux_offset self) < aflux_tol self)%Q.

Definition squid_ok (k : nat) : Prop :=
  (Qabs (saa_mean k - sflux_offset self) < squid_tol self)%Q.

(** The reading number [clock st + i] is the first one within [aflux_tol]. *)
Definition first_aflux_ok (st : state) (i : nat) : Prop :=
  aflux_ok (clock st + i)
  /\ forall i', (i' < i)%nat -> ~ aflux_ok (clock st + i').

End Procedure.

(** Sample inputs: an initial state; readings of which the first is within
    both default tolerances and the later ones outside them; readings of
    which only the sixth is within tolerance. *)
Definition st0 : state :=
  mkState (mkSquidArray 0 0 0 0 "" Off "" Array) 0 [].

Definition late_drift (k : nat) : Q :=
  match k with O => 0 | _ => 1 end.

Definition slow_settle (k : nat) : Q :=
  if (k =? 5)%nat then 0 else 1.

(** Number of calls to [adjust] recorded in a log, in all and per attribute. *)
Definition is_adjust (e : event) : bool :=
  match e with EAdjust _ => true | _ => false end.

Definition is_adjust_of (a : attr) (e : event) : bool :=
  match e, a with
  | EAdjust A_flux, A_flux => true
  | EAdjust S_flux, S_flux => true
  | _, _ => false
  end.

Definition adjust_calls (l : list event) : nat :=
  length (List.filter is_adjust l).

Definition adjust_calls_of (a : attr) (l : list event) : nat :=
  length (List.filter (is_adjust_of a) l).

(** Readings that never come within the default tolerances, and readings
    that are within them from the third on. *)
Definition always_off (k : nat) : Q := 1.

Definition settles (k : nat) : Q := if (k <? 2)%nat then 1 else 0.

End ArrayTune.

(** ** Instruments/nidaq.py *)

Module NIDAQ.
Import Py.

(** [max(a, b)] of Python: the second argument only when it is larger. *)
Definition pymax (a b : Q) : Q := if Qgtb b a then b else a.

(** [np.linspace(start, stop, num)]: [num] evenly spaced samples, the last
    one set to [stop] itself when there are at least two. *)
Definition linspace (start stop : Q) (num : Z) : result (list Q) :=
  if num <? 0 then Raise ValueError
  else
    let div := num - 1 in
    let delta := (stop - start)%Q in
    let step := (delta / inject_Z div)%Q in
    let y :=
      map (fun i : nat =>
             if 0 <? div then (inject_Z (Z.of_nat i) * step + start)%Q
             else (inject_Z (Z.of_nat i) * delta + start)%Q)
          (seq 0 (Z.to_nat num)) in
    Ok (if 1 <? num then removelast y ++ [stop] else y).

(** [accel_function(start, end, numpts)], in exact arithmetic: in binary64
    the square of half a very small span underflows to 0.0 and the samples
    become NaN, which [Q] has no value for. *)
Definition accel_function (start end_ : Q) (numpts : Z) : result (list Q) :=
  if Qeq_bool start end_ then
    let once := repeat start (Z.to_nat numpts) in
    Ok (once ++ once)
  else
    bind (linspace start ((end_ - start) / 2 + start) numpts) (fun part1arg =>
    bind (linspace ((end_ - start) / 2 + start) end_ numpts) (fun part2arg =>
    let part1 :=
      map (fun x => start
             + (x - start) ^ 2 / ((end_ - start) / 2) ^ 2 * (end_ - start) / 2)%Q
          part1arg in
    let part2 :=
      map (fun x => end_
             - (x - end_) ^ 2 / ((end_ - start) / 2) ^ 2 * (end_ - start) / 2)%Q
          part2arg in
    Ok (part1 ++ tl part2))).

(** What reaches the card: a single value written on an output channel, or
    a task run with its output waveforms. *)
Inductive hw_event :=
| HwWrite (ch : string) (v : Q)
| HwRun (write_data : dict (list Q)) (n_samples : nat) (freq : Q).

Record daq := mkDaq {
  heap : Py.heap;
  hw : list hw_event;
  inputs_to_monitor : list string
}.

(** [chan_out]: a single channel name ([np.isscalar]) or a list of names. *)
Inductive chan_arg :=
| One (ch : string)
| Many (chs : list string).

Definition is_digit (c : Ascii.ascii) : bool :=
  let n := Ascii.nat_of_ascii c in ((48 <=? n)%nat && (n <=? 57)%nat)%bool.

(** [int(''.join(x for x in y if x.isdigit()))] *)
Definition chan_num (y : string) : result nat :=
  match List.filter is_digit (list_ascii_of_string y) with
  | [] => Raise ValueError
  | ds =>
    Ok (fold_left (fun acc c => (10 * acc + (Ascii.nat_of_ascii c - 48))%nat)
          ds 0%nat)
  end.

Fixpoint chan_nums (ys : list string) : result (list nat) :=
  match ys with
  | [] => Ok []
  | y :: ys =>
    bind (chan_num y) (fun n => bind (chan_nums ys) (fun ns => Ok (n :: ns)))
  end.

(** ['ai%i' % n] *)
Definition ai_name (n : nat) : string :=
  ("ai" ++ DecimalString.NilEmpty.string_of_uint (Nat.to_uint n))%string.

Section Driver.

(** What the task returns for the waveforms it was given: the received
    samples per input channel and the time base under "t". *)
Variable task_run : dict (list Q) -> nat -> Q -> dict (list Q).

(** The loop over [chan_out] of [send_receive]; [data] is the reference held
    by the local variable [data]. *)
Fixpoint send_loop (chs : list string) (data : loc) (write_data : dict (list Q))
    (st : daq) : result (dict (list Q)) * daq :=
  match chs with
  | [] => (Ok write_data, st)
  | ch :: chs =>
    match heap st !! data with
    | Some (ODict items) =>
      match dict_get ch items with
      | None => (Raise KeyError, st)
      | Some ld =>
        match heap st !! ld with
        | Some (OList (x0 :: xs)) =>
          let d := x0 :: xs in
          (* setattr(self, ch, d[0]) *)
          let hw1 := hw st ++ [HwWrite ch x0] in
          (* d = list(d) *)
          let '(l1, h1) := alloc (OList d) (heap st) in
          (* d = d + [d[len(d)-1]] *)
          let d' := d ++ [last_elt d] in
          let '(l2, h2) := alloc (OList d') h1 in
          (* data[ch] = d *)
          let h3 := <[data := ODict (dict_set ch l2 items)]> h2 in
          send_loop chs data (dict_set ch d' write_data)
            (mkDaq h3 hw1 (inputs_to_monitor st))
        | Some (OList []) => (Raise IndexError, st)
        | Some (ODict _) => (Raise KeyError, st)
        | None => (Raise TypeError, st)
        end
      end
    | _ => (Raise TypeError, st)
    end
  end.

(** The received samples, trimmed: the first point of the lowest numbered
    input is dropped, the last point of the others. *)
Fixpoint trim_inputs (chs : list string) (min_chan : string)
    (received : dict (list Q)) (data_in : dict (list Q))
  : result (dict (list Q)) :=
  match chs with
  | [] => Ok data_in
  | ch :: chs =>
    match dict_get ch received with
    | None => Raise KeyError
    | Some d =>
      trim_inputs chs min_chan received
        (dict_set ch (if String.eqb ch min_chan then tl d else removelast d)
           data_in)
    end
  end.

Definition obj_len (o : object) : nat :=
  match o with OList xs => length xs | ODict items => length items end.

(** [send_receive(chan_out, orig_data, freq)]; [orig_data] is the caller's
    reference.  The channels named are taken to exist on the card, so that
    building the task does not fail. *)
Definition send_receive (chan_out : chan_arg) (orig_data : loc) (freq : Q)
    (st : daq) : result (dict (list Q) * list Q) * daq :=
  match heap st !! orig_data with
  | None => (Raise TypeError, st)
  | Some o =>
    (* data = copy(orig_data) *)
    let '(data, h) := alloc o (heap st) in
    (* if np.isscalar(chan_out): data = {chan_out: data} *)
    let '(data, h, chs) :=
      match chan_out with
      | One ch => let '(l, h) := alloc (ODict [(ch, data)]) h in (l, h, [ch])
      | Many chs => (data, h, chs)
      end in
    let st := mkDaq h (hw st) (inputs_to_monitor st) in
    match h !! data with
    | None => (Raise TypeError, st)
    | Some od =>
      if negb (length chs =? obj_len od)%nat then
        (Raise (Exception "Must have data for each output channel!"), st)
      else
        match send_loop chs data [] st with
        | (Raise e, st) => (Raise e, st)
        | (Ok write_data, st) =>
          match chs with
          | [] => (Raise IndexError, st)
          | ch0 :: _ =>
            let n_samples :=
              match heap st !! data with
              | Some (ODict items) =>
                match dict_get ch0 items with
                | Some ld =>
                  match heap st !! ld with Some o => obj_len o | None => 0%nat end
                | None => 0%nat
                end
              | _ => 0%nat
              end in
            let received := task_run write_data n_samples freq in
            let st := mkDaq (heap st) (hw st ++ [HwRun write_data n_samples freq])
                        (inputs_to_monitor st) in
            match chan_nums (inputs_to_monitor st) with
            | Raise e => (Raise e, st)
            | Ok [] => (Raise ValueError, st)
            | Ok (n :: ns) =>
              let min_chan := ai_name (fold_left Nat.min ns n) in
              match trim_inputs (inputs_to_monitor st) min_chan received [] with
              | Raise e => (Raise e, st)
              | Ok data_in =>
                match dict_get "t" received with
                | None => (Raise KeyError, st)
                | Some time => (Ok (data_in, removelast time), st)
                end
              end
            end
          end
        end
    end
  end.

(** The arguments of [sweep]: a single channel with its two voltages, or a
    list of channels with a dict of start and a dict of end voltages. *)
Inductive sweep_args :=
| SweepOne (ch : string) (Vstart Vend : Q)
| SweepMany (chs : list string) (Vstart Vend : dict Q).

Definition numaccel : Z := 250.

(** The loop [for k in Vstart.keys()] of [sweep], which builds [V]; [items]
    is what is left of [Vstart].  Voltages are numbers: for a NaN the range
    test of Python is False whatever the other voltage, which [Q] has no
    value for. *)
Fixpoint sweep_loop (items : dict Q) (Vend : dict Q) (numsteps : Z)
    (accel : bool) (V : dict (list Q)) : result (dict (list Q)) :=
  match items with
  | [] => Ok V
  | (k, vstart) :: items =>
    match dict_get k Vend with
    | None => Raise KeyError
    | Some vend =>
      match linspace vstart vend numsteps with
      | Raise e => Raise e
      | Ok pts =>
        let V := dict_set k pts V in
        if Qgtb (pymax (Qabs vstart) (Qabs vend)) 10 then
          Raise (Exception "NIDAQ out of range!")
        else if accel then
          match pts with
          | [] => Raise IndexError
          | first :: _ =>
            match accel_function 0 first numaccel with
            | Raise e => Raise e
            | Ok ramp_up =>
              let pts := ramp_up ++ pts in
              match accel_function (last_elt pts) 0 numaccel with
              | Raise e => Raise e
              | Ok ramp_down =>
                sweep_loop items Vend numsteps accel
                  (dict_set k (pts ++ ramp_down) V)
              end
            end
          end
        else sweep_loop items Vend numsteps accel V
      end
    end
  end.

(** [V] as the objects it is made of: one list per channel and the dict that
    refers to them. *)
Fixpoint store_lists (V : dict (list Q)) (h : Py.heap) : dict loc * Py.heap :=
  match V with
  | [] => ([], h)
  | (k, xs) :: V =>
    let '(l, h) := alloc (OList xs) h in
    let '(items, h) := store_lists V h in
    ((k, l) :: items, h)
  end.

Fixpoint load_lists (items : dict loc) (h : Py.heap) : option (dict (list Q)) :=
  match items with
  | [] => Some []
  | (k, l) :: items =>
    match h !! l, load_lists items h with
    | Some (OList xs), Some V => Some ((k, xs) :: V)
    | _, _ => None
    end
  end.

(** [sweep(chan_out, Vstart, Vend, freq, numsteps, accel)].  With [accel]
    the final trimming indexes the dict [response] with a slice, which
    Python rejects with a TypeError. *)
Definition sweep (args : sweep_args) (freq : Q) (numsteps : Z) (accel : bool)
    (st : daq)
  : result (dict (list Q) * dict (list Q) * list Q) * daq :=
  let '(chs, Vstart, Vend) :=
    match args with
    | SweepOne ch vs ve => ([ch], [(ch, vs)], [(ch, ve)])
    | SweepMany chs Vstart Vend => (chs, Vstart, Vend)
    end in
  match sweep_loop Vstart Vend numsteps accel [] with
  | Raise e => (Raise e, st)
  | Ok V =>
    let '(items, h) := store_lists V (heap st) in
    let '(vref, h) := alloc (ODict items) h in
    match send_receive (Many chs) vref freq
            (mkDaq h (hw st) (inputs_to_monitor st)) with
    | (Raise e, st') => (Raise e, st')
    | (Ok (response, time), st') =>
      if accel then (Raise TypeError, st')
      else
        match heap st' !! vref with
        | Some (ODict items') =>
          match load_lists items' (heap st') with
          | Some V' => (Ok (V', response, time), st')
          | None => (Raise TypeError, st')
          end
        | _ => (Raise TypeError, st')
        end
    end
  end.

(** [max(abs(Vstart[k]), abs(Vend[k])) > 10] *)
Definition out_of_range (vstart vend : Q) : Prop :=
  (10 < pymax (Qabs vstart) (Qabs vend))%Q.

(** The output channels of a call with their start and end voltages. *)
Definition channels (args : sweep_args) : list (string * Q * option Q) :=
  match args with
  | SweepOne ch vs ve => [(ch, vs, Some ve)]
  | SweepMany _ Vstart Vend =>
    map (fun kv => (fst kv, snd kv, dict_get (fst kv) Vend)) Vstart
  end.

(** A well-formed call: every channel has an end voltage, the number of
    steps is not negative, and is positive when ramps are asked for. *)
Definition well_formed (args : sweep_args) (numsteps : Z) (accel : bool)
  : Prop :=
  (forall c, In c (channels args) -> is_Some (snd c))
  /\ (if accel then 1 <= numsteps else 0 <= numsteps).

End Driver.

(** The exception of the range check, and the exceptions that come from
    Python itself rather than from a [raise] of the driver. *)
Definition range_error : exn := Exception "NIDAQ out of range!".

Definition builtin (e : exn) : Prop :=
  match e with Exception _ => False | _ => True end.

(** Sample inputs. *)
Definition idle_task (w : dict (list Q)) (n : nat) (f : Q) : dict (list Q) :=
  [("ai23", repeat 0%Q n); ("t", repeat 0%Q n)].

Definition daq0 : daq := mkDaq ∅ [] ["ai23"%string].

(** [x] lies between [a] and [b], whichever is the larger. *)
Definition between (a b x : Q) : Prop :=
  ((a <= x)%Q /\ (x <= b)%Q) \/ ((b <= x)%Q /\ (x <= a)%Q).

(** Every sample an event carries to the card satisfies [P]. *)
Definition ev_ok (P : Q -> Prop) (ev : hw_event) : Prop :=
  match ev with
  | HwWrite _ v => P v
  | HwRun write_data _ _ =>
    List.Forall (fun kv => List.Forall P (snd kv)) write_data
  end.

(** Every sample of the data behind the reference [ref] satisfies [P]: of
    the list it is, or of the lists the dict it is refers to. *)
Definition data_ok (P : Q -> Prop) (h : Py.heap) (ref : loc) : Prop :=
  match h !! ref with
  | Some (OList xs) => List.Forall P xs
  | Some (ODict items) =>
    forall ch l xs,
      dict_get ch items = Some l -> h !! l = Some (OList xs) ->
      List.Forall P xs
  | None => True
  end.

(** The dict at [data] only refers to lists whose samples satisfy [P]. *)
Definition dict_ok (P : Q -> Prop) (h : Py.heap) (data : loc) : Prop :=
  forall items ch l xs,
    h !! data = Some (ODict items) ->
    dict_get ch items = Some l -> h !! l = Some (OList xs) ->
    List.Forall P xs.

(** [add_input(inp)] *)
Definition add_input (inp : string) (st : daq) : daq :=
  if existsb (String.eqb inp) (inputs_to_monitor st) then st
  else mkDaq (heap st) (hw st) (inputs_to_monitor st ++ [inp]).

(** The loop [for ch in chan_in: self.add_input(ch)] of [monitor]. *)
Definition add_inputs (chan_in : list string) (st : daq) : daq :=
  fold_left (fun st ch => add_input ch st) chan_in st.

(** [d + [d[len(d)-1]]]: a waveform followed by a copy of its last
    sample. *)
Definition extended (d : list Q) : list Q := d ++ [last_elt d].

(** The waveform a dict with the entries [items] holds for [ch]. *)
Definition waveform (h : Py.heap) (items : dict loc) (ch : string) : list Q :=
  match dict_get ch items with
  | Some l => match h !! l with Some (OList xs) => xs | _ => [] end
  | None => []
  end.

(** Within the output range of the card. *)
Definition in_range (x : Q) : Prop := (- (10) <= x)%Q /\ (x <= 10)%Q.

(** A heap on which the caller holds a waveform (at 1) and a dict that
    refers to it under "ao0" (at 2). *)
Definition daq1 : daq :=
  let wave := OList [1%Q; 2%Q] in
  let table := ODict [("ao0"%string, 1%positive)] in
  mkDaq (<[2%positive := table]> (<[1%positive := wave]> ∅))
        [] ["ai23"%string].

End NIDAQ.

(** ** Utilities/dataset.py *)

Module Dataset.
Import Py.

(** *** Python data and numpy arrays *)

(** The dtypes [sanitize] lets through ([np.dtype] of 'float', 'int',
    'complex', 'uint'), and all the others by name. *)
Inductive dtype := DFloat | DInt | DComplex | DUint | DOther (name : string).

(** An array element: a number, NaN, or an object with what [float()] makes
    of it. *)
Inductive cell :=
| CNum (q : Q)
| CNaN
| CObj (as_float : result Q).

(** One-dimensional arrays. *)
Record ndarray := mkArray { dtype_of : dtype; cells : list cell }.

Inductive pyval :=
| PStr (s : string)
| PFloat (x : option Q)
| PInt (n : Z)
| PList (xs : list pyval)
| PArray (a : ndarray)
| PDict (items : list (string * pyval))
| POther (str : option string).

(** [slice(start, stop)] with non-negative bounds. *)
Record slice := mkSlice { start : nat; stop : nat }.

(** [xs[start:stop]] *)
Definition slice_of {A : Type} (sl : slice) (xs : list A) : list A :=
  firstn (stop sl - start sl) (skipn (start sl) xs).

(** [xs[start:stop] = new], for [new] of the length of [xs[start:stop]] *)
Definition set_slice {A : Type} (sl : slice) (new xs : list A) : list A :=
  firstn (start sl) xs ++ new ++ skipn (Nat.max (start sl) (stop sl)) xs.

Definition isnan (c : cell) : bool :=
  match c with CNaN => true | _ => false end.

(** *** HDF5 files *)

Inductive h5obj :=
| H5Dataset (contents : pyval)
| H5Group (members : list (string * h5obj)).

(** The files on disk, by name; each is its root group. *)
Abbreviation disk := (gmap string h5obj).

Definition slash : Ascii.ascii := Ascii.Ascii true true true true false true false false.

(** [s.split('/')] *)
Fixpoint split_slash (s : string) : list string :=
  match s with
  | EmptyString => [EmptyString]
  | String c s' =>
    if Ascii.eqb c slash then EmptyString :: split_slash s'
    else
      match split_slash s' with
      | [] => [String c EmptyString]
      | h :: t => String c h :: t
      end
  end.

(** The link names an HDF5 path goes through: empty components (leading,
    trailing or doubled slashes) do not count. *)
Definition components (path : string) : list string :=
  List.filter (fun k => negb (String.eqb k "")) (split_slash path).

(** [o[path]], [None] standing for the KeyError. *)
Fixpoint h5_lookup (keys : list string) (o : h5obj) : option h5obj :=
  match keys with
  | [] => Some o
  | k :: keys =>
    match o with
    | H5Dataset _ => None
    | H5Group ms =>
      match dict_get k ms with
      | Some child => h5_lookup keys child
      | None => None
      end
    end
  end.

(** [o.create_dataset(path, data=v)]: missing intermediate groups are
    created; an existing name, or a dataset on the way, is an error. *)
Fixpoint h5_create (keys : list string) (v : pyval) (o : h5obj)
  : result h5obj :=
  match o with
  | H5Dataset _ => Raise ValueError
  | H5Group ms =>
    match keys with
    | [] => Raise ValueError
    | [k] =>
      match dict_get k ms with
      | Some _ => Raise ValueError
      | None => Ok (H5Group (ms ++ [(k, H5Dataset v)]))
      end
    | k :: keys =>
      match dict_get k ms with
      | Some child =>
        bind (h5_create keys v child) (fun child' =>
        Ok (H5Group (dict_set k child' ms)))
      | None =>
        bind (h5_create keys v (H5Group [])) (fun child' =>
        Ok (H5Group (ms ++ [(k, child')])))
      end
    end
  end.

(** [o[path] = child], for an existing [path]. *)
Fixpoint h5_replace (keys : list string) (new : h5obj) (o : h5obj) : h5obj :=
  match keys with
  | [] => new
  | k :: keys =>
    match o with
    | H5Dataset _ => o
    | H5Group ms =>
      match dict_get k ms with
      | Some child => H5Group (dict_set k (h5_replace keys new child) ms)
      | None => o
      end
    end
  end.

(** *** [Dataset.get] *)

(** The descent of [_loaddict] through [datadict]: the levels named by
    [listpath[:-1]] are created when missing, the last key receives the
    contents. *)
Fixpoint put_path (listpath : list string) (v : pyval) (level : dict pyval)
  : result (dict pyval) :=
  match listpath with
  | [] => Raise IndexError
  | [k] => Ok (dict_set k v level)
  | k :: rest =>
    match default (PDict []) (dict_get k level) with
    | PDict sub =>
      bind (put_path rest v sub) (fun sub' =>
      Ok (dict_set k (PDict sub') level))
    | _ => Raise TypeError
    end
  end.

(** [_loaddict(path, obj)] *)
Definition _loaddict (path : string) (obj : h5obj) (datadict : dict pyval)
  : result (dict pyval) :=
  match obj with
  | H5Dataset contents => put_path (split_slash path) contents datadict
  | H5Group _ => Ok datadict
  end.

Definition child_name (prefix k : string) : string :=
  if String.eqb prefix "" then k else (prefix ++ "/" ++ k)%string.

(** [o.visititems(_loaddict)]: the callback is applied to every object below
    [o], with its name relative to [o]. *)
Fixpoint visititems (prefix : string) (o : h5obj) (datadict : dict pyval)
  : result (dict pyval) :=
  match o with
  | H5Dataset _ => Ok datadict
  | H5Group ms =>
    (fix members (ms : list (string * h5obj)) (datadict : dict pyval)
       : result (dict pyval) :=
       match ms with
       | [] => Ok datadict
       | (k, child) :: ms =>
         let name := child_name prefix k in
         bind (_loaddict name child datadict) (fun datadict =>
         bind (visititems name child datadict) (fun datadict =>
         members ms datadict))
       end) ms datadict
  end.

(** [get(path, slice)] on the file [filename]. *)
Definition get (fs : disk) (filename : string) (path : string)
    (sl : option slice) : result pyval :=
  match fs !! filename with
  | None => Raise OSError
  | Some f =>
    match h5_lookup (components path) f with
    | None => Raise KeyError
    | Some (H5Dataset contents) =>
      match sl with
      | None => Ok contents
      | Some sl =>
        match contents with
        | PArray a => Ok (PArray (mkArray (dtype_of a) (slice_of sl (cells a))))
        | _ => Raise ValueError
        end
      end
    | Some (H5Group _) =>
      (* f.visititems(_loaddict): the visit starts at the file [f] *)
      bind (visititems "" f []) (fun datadict => Ok (PDict datadict))
    end
  end.

(** What the docstring of [get] promises for a group: a nested dict with the
    structure of the subgroup, the leaves being the contents of its
    datasets. *)
Fixpoint mirror (o : h5obj) : pyval :=
  match o with
  | H5Dataset contents => contents
  | H5Group ms =>
    PDict ((fix members (ms : list (string * h5obj)) : dict pyval :=
              match ms with
              | [] => []
              | (k, child) :: ms => (k, mirror child) :: members ms
              end) ms)
  end.

Definition get_documented (fs : disk) (filename : string) (path : string)
  : result pyval :=
  match fs !! filename with
  | None => Raise OSError
  | Some f =>
    match h5_lookup (components path) f with
    | None => Raise KeyError
    | Some o => Ok (mirror o)
    end
  end.

(** An object and what it has become: a dataset with the same contents, or
    a group that is still a group. *)
Definition same_kind (x x' : h5obj) : Prop :=
  match x with
  | H5Dataset c => x' = H5Dataset c
  | H5Group _ => match x' with H5Group _ => True | H5Dataset _ => False end
  end.

(** No write has touched what was there: every file is still there, and in
    it every object that was there, datasets with their contents. *)
Definition preserved (fs fs' : disk) : Prop :=
  forall (name : string) (f : h5obj),
    fs !! name = Some f ->
    exists f', fs' !! name = Some f'
      /\ forall (p : list string) (x : h5obj),
           h5_lookup p f = Some x ->
           exists x', h5_lookup p f' = Some x' /\ same_kind x x'.

(** *** Writing *)

(** What the user sees on the console. *)
Inductive io_event :=
| Prompt (msg : string)
| Print (msg : string).

(** The result of a call together with the files it leaves, the replies the
    user has not been asked for yet, and the console. *)
Record outcome (A : Type) := mkOutcome {
  res : result A;
  files : disk;
  unread : list string;
  console : list io_event
}.
Arguments mkOutcome {A} res files unread console.
Arguments res {A} o.
Arguments files {A} o.
Arguments unread {A} o.
Arguments console {A} o.

(** [h5py.File(filename, 'a')]: the file is created when it does not exist. *)
Definition open_append (fs : disk) (filename : string) : h5obj * disk :=
  let f := default (H5Group []) (fs !! filename) in (f, <[filename := f]> fs).

(** [_writetoh5(data=data, path=path)] on [self.filename = filename].  Each
    recursive call reads one reply; [replies] exhausted is [input] failing
    with EOFError.  The model's inner call never raises KeyError, so the
    [except KeyError] of the caller is not entered on the way back. *)
Fixpoint _writetoh5 (replies : list string) (filename path : string)
    (data : pyval) (fs : disk) (out : list io_event) : outcome unit :=
  let '(f, fs) := open_append fs filename in
  match h5_lookup (components path) f with
  | Some _ =>
    let out :=
      out ++ [Prompt ("Path " ++ path
                      ++ " has been used already! Type a new path: ")] in
    match replies with
    | [] => mkOutcome (Raise EOFError) fs [] out
    | newpath :: replies => _writetoh5 replies filename newpath data fs out
    end
  | None =>
    match h5_create (components path) data f with
    | Ok f' => mkOutcome (Ok tt) (<[filename := f']> fs) replies out
    | Raise e => mkOutcome (Raise e) fs replies out
    end
  end.

(** [fao.create_dataset(pathtowrite, shape=n)]: zeros of HDF5's default
    type. *)
Definition zeros (n : nat) : pyval :=
  PArray (mkArray (DOther "float32") (repeat (CNum 0) n)).

Definition overwrite_prompt (pathtowrite : string) (sl : slice) : string :=
  ("Data already written to " ++ pathtowrite ++ " at location slice("
   ++ NilEmpty.string_of_uint (Nat.to_uint (start sl)) ++ ", "
   ++ NilEmpty.string_of_uint (Nat.to_uint (stop sl)) ++ ", None)"
   ++ ". Type OVERWRITE to overwrite, else, code"
   ++ " creates a new array at path+_antioverwrite and saves data "
   ++ "there")%string.

(** [_appenddatah5(filename, numpyarray, pathtowrite, slice)], every
    assignment [dataset[slice] = numpyarray] being one that h5py accepts;
    [_appenddatah5_may_refuse] below does without that. *)
Fixpoint _appenddatah5 (replies : list string) (filename : string)
    (numpyarray : ndarray) (pathtowrite : string) (sl : slice) (fs : disk)
    (out : list io_event) : outcome unit :=
  match fs !! filename with
  | None => mkOutcome (Raise OSError) fs replies out
  | Some f =>
    match h5_lookup (components pathtowrite) f with
    | None => mkOutcome (Raise KeyError) fs replies out
    | Some (H5Dataset (PArray dataset)) =>
      if negb (length (cells numpyarray)
               =? length (slice_of sl (cells dataset)))%nat then
        mkOutcome (Raise (Exception "Slice and data are not the same shape"))
          fs replies out
      else
        (* the file [f] after [dataset[slice] = numpyarray] *)
        let f_written :=
          h5_replace (components pathtowrite)
            (H5Dataset (PArray (mkArray (dtype_of dataset)
               (set_slice sl (cells numpyarray) (cells dataset))))) f in
        if forallb isnan (slice_of sl (cells dataset)) then
          mkOutcome (Ok tt) (<[filename := f_written]> fs) replies out
        else
          let out := out ++ [Prompt (overwrite_prompt pathtowrite sl)] in
          match replies with
          | [] => mkOutcome (Raise EOFError) fs [] out
          | shouldoverwrite :: replies =>
            if String.eqb shouldoverwrite "OVERWRITE" then
              mkOutcome (Ok tt) (<[filename := f_written]> fs) replies out
            else
              let '(fao, fs) :=
                open_append fs ("antioverwrite_" ++ filename) in
              match h5_create (components pathtowrite)
                      (zeros (length (cells dataset))) fao with
              | Ok fao' =>
                (* f[pathtowrite][slice] = numpyarray *)
                mkOutcome (Ok tt)
                  (<[filename := f_written]>
                     (<[("antioverwrite_" ++ filename)%string := fao']> fs))
                  replies (out ++ [Print "this"])
              | Raise _ =>
                _appenddatah5 replies (filename ++ "_antioverwrite")
                  numpyarray pathtowrite sl fs out
              end
          end
    | Some _ => mkOutcome (Raise TypeError) fs replies out
    end
  end.

(** [_appenddatah5] once more, with the assignments
    [dataset[slice] = numpyarray] that h5py refuses:
    [refused dataset slice numpyarray] is the exception it raises, [None]
    when the assignment is accepted, which is what [_appenddatah5] above
    takes for granted.  A refused assignment writes nothing.  Under [try]
    the bare [except] catches it as it catches a failing [create_dataset],
    after the dataset of zeros was added to the antioverwrite file. *)
Fixpoint _appenddatah5_may_refuse
    (refused : ndarray -> slice -> ndarray -> option exn)
    (replies : list string) (filename : string)
    (numpyarray : ndarray) (pathtowrite : string) (sl : slice) (fs : disk)
    (out : list io_event) : outcome unit :=
  match fs !! filename with
  | None => mkOutcome (Raise OSError) fs replies out
  | Some f =>
    match h5_lookup (components pathtowrite) f with
    | None => mkOutcome (Raise KeyError) fs replies out
    | Some (H5Dataset (PArray dataset)) =>
      if negb (length (cells numpyarray)
               =? length (slice_of sl (cells dataset)))%nat then
        mkOutcome (Raise (Exception "Slice and data are not the same shape"))
          fs replies out
      else
        (* the file [f] after [dataset[slice] = numpyarray] *)
        let f_written :=
          h5_replace (components pathtowrite)
            (H5Dataset (PArray (mkArray (dtype_of dataset)
               (set_slice sl (cells numpyarray) (cells dataset))))) f in
        if forallb isnan (slice_of sl (cells dataset)) then
          match refused dataset sl numpyarray with
          | Some e => mkOutcome (Raise e) fs replies out
          | None =>
            mkOutcome (Ok tt) (<[filename := f_written]> fs) replies out
          end
        else
          let out := out ++ [Prompt (overwrite_prompt pathtowrite sl)] in
          match replies with
          | [] => mkOutcome (Raise EOFError) fs [] out
          | shouldoverwrite :: replies =>
            if String.eqb shouldoverwrite "OVERWRITE" then
              match refused dataset sl numpyarray with
              | Some e => mkOutcome (Raise e) fs replies out
              | None =>
                mkOutcome (Ok tt) (<[filename := f_written]> fs) replies out
              end
            else
              let '(fao, fs) :=
                open_append fs ("antioverwrite_" ++ filename) in
              match h5_create (components pathtowrite)
                      (zeros (length (cells dataset))) fao with
              | Ok fao' =>
                let fs := <[("antioverwrite_" ++ filename)%string := fao']> fs
                in
                (* f[pathtowrite][slice] = numpyarray *)
                match refused dataset sl numpyarray with
                | None =>
                  mkOutcome (Ok tt) (<[filename := f_written]> fs) replies
                    (out ++ [Print "this"])
                | Some _ =>
                  _appenddatah5_may_refuse refused replies
                    (filename ++ "_antioverwrite") numpyarray pathtowrite sl
                    fs out
                end
              | Raise _ =>
                _appenddatah5_may_refuse refused replies
                  (filename ++ "_antioverwrite") numpyarray pathtowrite sl
                  fs out
              end
          end
    | Some _ => mkOutcome (Raise TypeError) fs replies out
    end
  end.

(** *** [sanitize] *)

Section Sanitize.

(** [str(data)] for an array. *)
Variable str_of_array : ndarray -> string.

Definition allowed_dtype (d : dtype) : bool :=
  match d with DFloat | DInt | DComplex | DUint => true | DOther _ => false end.

(** [np.array(data, dtype='float')]: every element goes through [float()];
    the first failure is the exception raised. *)
Fixpoint as_floats (cs : list cell) : result (list cell) :=
  match cs with
  | [] => Ok []
  | c :: cs =>
    bind (match c with
          | CNum q => Ok (CNum q)
          | CNaN => Ok CNaN
          | CObj (Ok q) => Ok (CNum q)
          | CObj (Raise e) => Raise e
          end) (fun c' =>
    bind (as_floats cs) (fun cs' => Ok (c' :: cs')))
  end.

(** [sanitize(data)]; the replies are only read when [str(data)] fails. *)
Fixpoint sanitize (data : pyval) (replies : list string) (out : list io_event)
  : result pyval * list string * list io_event :=
  match data with
  | PStr _ | PFloat _ | PInt _ | PList _ => (Ok data, replies, out)
  | PArray a =>
    if allowed_dtype (dtype_of a) then (Ok data, replies, out)
    else
      match as_floats (cells a) with
      | Ok cs => (Ok (PArray (mkArray DFloat cs)), replies, out)
      | Raise ValueError =>
        (Ok (PStr (str_of_array a)), replies,
         out ++ [Print ("Could not convert dtype of numpy array to float."
                        ++ " Saving as a string")])
      | Raise e => (Raise e, replies, out)
      end
  | PDict items =>
    (fix each (items : list (string * pyval)) (cleandata : dict pyval)
         (replies : list string) (out : list io_event)
       : result pyval * list string * list io_event :=
       match items with
       | [] => (Ok (PDict cleandata), replies, out)
       | (key, v) :: items =>
         match sanitize v replies out with
         | (Ok v', replies, out) =>
           each items (dict_set key v' cleandata) replies out
         | (Raise e, replies, out) => (Raise e, replies, out)
         end
       end) items [] replies out
  | POther str =>
    let out :=
      out ++ [Print "Could not recognize type. Attempting to convert to string."]
    in
    match str with
    | Some s => (Ok (PStr s), replies, out)
    | None =>
      let out :=
        out ++ [Prompt ("COULD NOT CONVERT TO STRING. "
                        ++ "DATA WILL NOT BE SAVED. Continue y/(n)")] in
      match replies with
      | [] => (Raise EOFError, [], out)
      | shouldcontinue :: replies =>
        if negb (String.eqb shouldcontinue "y") then
          (Raise (Exception "TypeError: could not convert to h5"), replies, out)
        else (Ok (PStr "unconvertable"), replies, out)
      end
    end
  end.

(** The loop [for key in data.keys()] of [sanitize], on its own. *)
Fixpoint sanitize_items (items : list (string * pyval))
    (cleandata : dict pyval) (replies : list string) (out : list io_event)
  : result pyval * list string * list io_event :=
  match items with
  | [] => (Ok (PDict cleandata), replies, out)
  | (key, v) :: items =>
    match sanitize v replies out with
    | (Ok v', replies, out) =>
      sanitize_items items (dict_set key v' cleandata) replies out
    | (Raise e, replies, out) => (Raise e, replies, out)
    end
  end.

(** A value a second [sanitize] returns as it is, reading no reply and
    printing nothing. *)
Definition fixed (v : pyval) : Prop :=
  forall (replies : list string) (out : list io_event),
    sanitize v replies out = (Ok v, replies, out).

End Sanitize.

(** *** [append] *)

(** ['/'.join(path)] *)
Fixpoint join_slash (path : list string) : string :=
  match path with
  | [] => ""
  | [k] => k
  | k :: path => (k ++ "/" ++ join_slash path)%string
  end.

Section Append.

Variable str_of_array : ndarray -> string.

(** [dictvisititems(dictionary, _loadhdf5)] with [recursivevisit] started at
    [keylist]: every key is visited, a dict after the call on itself; a
    value that is not a dict is written by [_writetoh5] at [pathtowrite]
    followed by the joined keys.  An exception ends the visit. *)
Fixpoint recursivevisit (filename pathtowrite : string)
    (keylist : list string) (dictionary : pyval) (fs : disk)
    (replies : list string) (out : list io_event) : outcome unit :=
  match dictionary with
  | PDict items =>
    (fix each (items : list (string * pyval)) (fs : disk)
         (replies : list string) (out : list io_event) : outcome unit :=
       match items with
       | [] => mkOutcome (Ok tt) fs replies out
       | (key, v) :: items =>
         let path := keylist ++ [key] in
         match v with
         | PDict _ =>
           let o := recursivevisit filename pathtowrite path v fs replies out in
           match res o with
           | Ok _ => each items (files o) (unread o) (console o)
           | Raise _ => o
           end
         | _ =>
           let o :=
             _writetoh5 replies filename (pathtowrite ++ join_slash path) v
               fs out in
           match res o with
           | Ok _ => each items (files o) (unread o) (console o)
           | Raise _ => o
           end
         end
       end) items fs replies out
  | _ => mkOutcome (Ok tt) fs replies out
  end.

(** [append(pathtowrite, datatowrite, slice)] *)
Definition append (filename pathtowrite : string) (datatowrite : pyval)
    (sl : option slice) (fs : disk) (replies : list string)
    (out : list io_event) : outcome unit :=
  match sanitize str_of_array datatowrite replies out with
  | (Raise e, replies, out) => mkOutcome (Raise e) fs replies out
  | (Ok cleandatatowrite, replies, out) =>
    match cleandatatowrite, sl with
    | PDict _, _ =>
      recursivevisit filename pathtowrite [] cleandatatowrite fs replies out
    | PArray a, Some sl => _appenddatah5 replies filename a pathtowrite sl fs out
    | _, _ => _writetoh5 replies filename pathtowrite cleandatatowrite fs out
    end
  end.

End Append.

(** What [sanitize] lets through: strings, numbers, arrays of one of the
    allowed dtypes, dicts of such values, and lists.  A list counts whatever
    it holds: [sanitize] passes lists on without looking inside them, and
    neither does this predicate. *)
Fixpoint storable (v : pyval) : Prop :=
  match v with
  | PStr _ | PFloat _ | PInt _ | PList _ => True
  | PArray a => allowed_dtype (dtype_of a) = true
  | PDict items =>
    (fix every (items : list (string * pyval)) : Prop :=
       match items with
       | [] => True
       | (_, x) :: items => storable x /\ every items
       end) items
  | POther _ => False
  end.

(** What one call of [sanitize] guarantees: a value of that shape, or an
    exception other than the ValueError of a failed conversion. *)
Definition clean_or_raises (str_of_array : ndarray -> string) (d : pyval)
  : Prop :=
  forall replies out,
    match sanitize str_of_array d replies out with
    | (Ok v, _, _) => storable v
    | (Raise e, _, _) => e <> ValueError
    end.

(** A link name: not empty and without a slash. *)
Definition plain (k : string) : Prop :=
  k <> ""%string /\ ~ In slash (list_ascii_of_string k).

(** Sample files: two groups with one dataset each, and a file holding a
    two-element array. *)
Definition two_groups : h5obj :=
  H5Group [("a"%string, H5Group [("x"%string, H5Dataset (PInt 1))]);
           ("b"%string, H5Group [("y"%string, H5Dataset (PInt 2))])].

Definition disk_two_groups : disk := <["data.h5"%string := two_groups]> ∅.

Definition measured : h5obj :=
  H5Group [("x"%string,
            H5Dataset (PArray (mkArray DFloat [CNum 1; CNum 2])))].

Definition disk_measured : disk := <["data.h5"%string := measured]> ∅.

(** The same disk with an antioverwrite file already there, and h5py
    refusing every assignment. *)
Definition disk_measured_ao : disk :=
  <["antioverwrite_data.h5"%string := H5Group []]> disk_measured.

Definition refuse_all (dataset : ndarray) (sl : slice) (numpyarray : ndarray)
  : option exn := Some TypeError.

(** A file holding an array whose first two elements are still NaN. *)
Definition blank : h5obj :=
  H5Group [("x"%string,
            H5Dataset (PArray (mkArray DFloat [CNaN; CNaN; CNum 3])))].

Definition disk_blank : disk := <["data.h5"%string := blank]> ∅.

(** Sample data for [sanitize]: a bool, a bool array, and nested in a dict
    an object whose [str()] fails; and what [sanitize] makes of it when the
    user replies 'y'. *)
Definition sample_data : pyval :=
  PDict [("name"%string, POther (Some "True"%string));
         ("trace"%string, PArray (mkArray (DOther "bool") [CNum 1; CNum 0]));
         ("meta"%string, PDict [("weird"%string, POther None)])].

Definition sample_clean : pyval :=
  PDict [("name"%string, PStr "True");
         ("trace"%string, PArray (mkArray DFloat [CNum 1; CNum 0]));
         ("meta"%string, PDict [("weird"%string, PStr "unconvertable")])].

Definition plain_str (a : ndarray) : string := "array"%string.

End Dataset.

(** * Properties *)

Lemma Qltb_lt (a b : Q) : Qltb a b = true <-> (a < b)%Q.
Proof.
  unfold Qltb. rewrite negb_true_iff. split.
  - intros H. apply Qnot_le_lt. intros Hle.
    apply Qle_bool_iff in Hle. congruence.
  - intros H. destruct (Qle_bool b a) eqn:E; [|reflexivity].
    apply Qle_bool_iff in E. exfalso. exact (Qlt_not_le _ _ H E).
Qed.

Lemma Qltb_ge (a b : Q) : Qltb a b = false <-> (b <= a)%Q.
Proof.
  unfold Qltb. rewrite negb_false_iff. apply Qle_bool_iff.
Qed.


(** ** Dicts *)

Module PyFacts.
Import Py.

Section Dict.
Context {V : Type}.

Lemma dict_get_app (k : string) (d d' : dict V) :
  dict_get k (d ++ d')
  = match dict_get k d with Some v => Some v | None => dict_get k d' end.
Proof.
  induction d as [|[k' v'] d IH]; [reflexivity|].
  cbn [app dict_get]. destruct (String.eqb k k'); [reflexivity|exact IH].
Qed.

Lemma dict_get_set (k k' : string) (v : V) (d : dict V) :
  dict_get k' (dict_set k v d)
  = if String.eqb k' k then Some v else dict_get k' d.
Proof.
  induction d as [|[k0 v0] d IH]; cbn [dict_set dict_get].
  - destruct (String.eqb k' k); reflexivity.
  - destruct (String.eqb k k0) eqn:E; cbn [dict_get].
    + apply String.eqb_eq in E. subst k0.
      destruct (String.eqb k' k); reflexivity.
    + rewrite IH. destruct (String.eqb k' k0) eqn:E'; [|reflexivity].
      apply String.eqb_eq in E'. subst k0.
      destruct (String.eqb k' k) eqn:E''; [|reflexivity].
      apply String.eqb_eq in E''. subst k'.
      rewrite String.eqb_refl in E. discriminate.
Qed.

Lemma dict_get_None (k : string) (d : dict V) :
  dict_get k d = None <-> ~ In k (keys d).
Proof.
  induction d as [|[k' v'] d IH]; cbn [dict_get keys map fst In].
  - split; [intros _ []|reflexivity].
  - destruct (String.eqb k k') eqn:E.
    + apply String.eqb_eq in E. subst k'. split; [discriminate|].
      intros H. exfalso. apply H. left. reflexivity.
    + apply String.eqb_neq in E. rewrite IH. unfold keys. split.
      * intros H [Heq|Hin]; [congruence|exact (H Hin)].
      * intros H Hin. apply H. right. exact Hin.
Qed.

Lemma dict_set_fresh (k : string) (v : V) (d : dict V) :
  dict_get k d = None -> dict_set k v d = d ++ [(k, v)].
Proof.
  induction d as [|[k' v'] d IH]; cbn [dict_get dict_set app];
    [reflexivity|].
  destruct (String.eqb k k'); [discriminate|].
  intros H. rewrite (IH H). reflexivity.
Qed.

Lemma keys_dict_set (k : string) (v : V) (d : dict V) :
  keys (dict_set k v d)
  = match dict_get k d with Some _ => keys d | None => keys d ++ [k] end.
Proof.
  induction d as [|[k' v'] d IH]; cbn [dict_get dict_set keys map fst app];
    [reflexivity|].
  destruct (String.eqb k k') eqn:E; [reflexivity|].
  cbn [map fst]. fold (keys (dict_set k v d)). rewrite IH.
  destruct (dict_get k d); reflexivity.
Qed.

Lemma NoDup_snoc (l : list string) (k : string) :
  List.NoDup l -> ~ In k l -> List.NoDup (l ++ [k]).
Proof.
  induction 1 as [|x l Hx Hl IH]; intros Hk; cbn [app].
  - constructor; [intros []|constructor].
  - constructor.
    + intros Hin. apply in_app_or in Hin. destruct Hin as [Hin|[<-|[]]].
      * exact (Hx Hin).
      * apply Hk. left. reflexivity.
    + apply IH. intros Hin. apply Hk. right. exact Hin.
Qed.

Lemma NoDup_keys_dict_set (k : string) (v : V) (d : dict V) :
  List.NoDup (keys d) -> List.NoDup (keys (dict_set k v d)).
Proof.
  intros Hd. rewrite keys_dict_set.
  destruct (dict_get k d) eqn:E; [exact Hd|].
  apply NoDup_snoc; [exact Hd|]. apply dict_get_None. exact E.
Qed.

Lemma Forall_dict_set (P : V -> Prop) (k : string) (v : V) (d : dict V) :
  P v -> List.Forall (fun kv => P (snd kv)) d ->
  List.Forall (fun kv => P (snd kv)) (dict_set k v d).
Proof.
  intros Hv. induction 1 as [|[k' v'] d Hx Hd IH]; cbn [dict_set].
  - constructor; [exact Hv|constructor].
  - destruct (String.eqb k k'); constructor; assumption.
Qed.

End Dict.
End PyFacts.

(** ** The tuning loop *)

Module ArrayTuneFacts.
Import ArrayTune.

Lemma adjust_calls_snoc (l : list event) (e : event) :
  adjust_calls (l ++ [e]) = (adjust_calls l + Nat.b2n (is_adjust e))%nat.
Proof.
  unfold adjust_calls. rewrite List.filter_app, length_app. simpl.
  destruct (is_adjust e); reflexivity.
Qed.

Lemma adjust_calls_of_snoc (a : attr) (l : list event) (e : event) :
  adjust_calls_of a (l ++ [e])
  = (adjust_calls_of a l + Nat.b2n (is_adjust_of a e))%nat.
Proof.
  unfold adjust_calls_of. rewrite List.filter_app, length_app. simpl.
  destruct (is_adjust_of a e); reflexivity.
Qed.

Lemma emit_log (e : event) (st : state) : log (emit e st) = log st ++ [e].
Proof. reflexivity. Qed.

Section Loop.

Variable saa_mean : nat -> Q.
Variable self : t.

Local Abbreviation locked_state := (ArrayTune.locked_state saa_mean self).
Local Abbreviation tuned_state := (ArrayTune.tuned_state saa_mean self).
Local Abbreviation aflux_ok := (ArrayTune.aflux_ok saa_mean self).
Local Abbreviation squid_ok := (ArrayTune.squid_ok saa_mean self).
Local Abbreviation first_aflux_ok := (ArrayTune.first_aflux_ok saa_mean self).

Lemma adjust_log (a : attr) (e : Q) (st : state) :
  log (adjust self a e st) = (log st ++ [EAdjust a]) ++ [EReset].
Proof.
  unfold adjust.
  destruct (Qltb _ 0); [|destruct (Qgtb _ 150)]; reflexivity.
Qed.

Lemma adjust_clock (a : attr) (e : Q) (st : state) :
  clock (adjust self a e st) = clock st.
Proof.
  unfold adjust.
  destruct (Qltb _ 0); [|destruct (Qgtb _ 150)]; reflexivity.
Qed.

Lemma lock_squid_step (depth : nat) (n : Z) (st : state) :
  lock_squid saa_mean self (S depth) n st =
  let error := (saa_mean (clock st) - sflux_offset self)%Q in
  if Qltb (Qabs error) (squid_tol self) then
    Some (true, emit (EPrintLocked (5 - n)) (locked_state st))
  else if n =? 0 then
    Some (false, emit (EPrint "could not tune SQUID flux.") (locked_state st))
  else lock_squid saa_mean self depth (n - 1)
         (adjust self S_flux error (locked_state st)).
Proof. reflexivity. Qed.

Lemma tune_squid_step (depth : nat) (n : Z) (st : state) :
  tune_squid saa_mean self (S depth) n st =
  let error := (saa_mean (clock st) - aflux_offset self)%Q in
  if Qltb (Qabs error) (aflux_tol self) then
    lock_squid saa_mean self depth 5 (tuned_state st)
  else if n =? 0 then
    Some (false, emit (EPrint "could not tune array flux.") (tuned_state st))
  else tune_squid saa_mean self depth (n - 1)
         (adjust self A_flux error (tuned_state st)).
Proof. reflexivity. Qed.

Lemma locked_state_log (st : state) :
  adjust_calls (log (locked_state st)) = adjust_calls (log st)
  /\ forall a, adjust_calls_of a (log (locked_state st))
             = adjust_calls_of a (log st).
Proof.
  unfold locked_state, monitor, reset, set_testSignal, lock, emit, with_squid.
  simpl. split; [|intros a];
    rewrite ?adjust_calls_snoc, ?adjust_calls_of_snoc; simpl; lia.
Qed.

Lemma tuned_state_log (st : state) :
  adjust_calls (log (tuned_state st)) = adjust_calls (log st)
  /\ forall a, adjust_calls_of a (log (tuned_state st))
             = adjust_calls_of a (log st).
Proof.
  unfold tuned_state, acquire, tune_squid_setup, reset, lock, emit, with_squid.
  simpl. split; [|intros a];
    rewrite ?adjust_calls_snoc, ?adjust_calls_of_snoc; simpl; lia.
Qed.

Lemma locked_state_clock (st : state) : clock (locked_state st) = S (clock st).
Proof. reflexivity. Qed.

Lemma tuned_state_clock (st : state) : clock (tuned_state st) = S (clock st).
Proof. reflexivity. Qed.

Lemma adjust_counts (a : attr) (e : Q) (st : state) :
  adjust_calls (log (adjust self a e st)) = S (adjust_calls (log st))
  /\ adjust_calls_of a (log (adjust self a e st))
     = S (adjust_calls_of a (log st))
  /\ forall b, b <> a ->
       adjust_calls_of b (log (adjust self a e st)) = adjust_calls_of b (log st).
Proof.
  rewrite adjust_log. repeat split; [| |intros b Hb];
    rewrite ?adjust_calls_snoc, ?adjust_calls_of_snoc; simpl.
  - lia.
  - destruct a; simpl; lia.
  - destruct a, b; simpl; try congruence; lia.
Qed.

(** [lock_squid] with [m] attempts left: it returns, after at most [m] calls
    to [adjust], all of them on [S_flux]. *)
Lemma lock_squid_bounded (m : nat) :
  forall (depth : nat) (st : state),
    (m < depth)%nat ->
    exists b st',
      lock_squid saa_mean self depth (Z.of_nat m) st = Some (b, st')
      /\ (adjust_calls (log st') <= adjust_calls (log st) + m)%nat
      /\ (adjust_calls_of S_flux (log st')
          <= adjust_calls_of S_flux (log st) + m)%nat
      /\ adjust_calls_of A_flux (log st') = adjust_calls_of A_flux (log st).
Proof.
  induction m as [|m IH]; intros depth st Hd;
    (destruct depth as [|depth]; [lia|]);
    rewrite lock_squid_step; cbv zeta;
    destruct (locked_state_log st) as [Hl Hla];
    destruct (Qltb _ (squid_tol self)).
  - eexists _, _. split; [reflexivity|].
    rewrite emit_log, adjust_calls_snoc, !adjust_calls_of_snoc, Hl, !Hla.
    simpl. lia.
  - eexists _, _. split; [reflexivity|].
    rewrite emit_log, adjust_calls_snoc, !adjust_calls_of_snoc, Hl, !Hla.
    simpl. lia.
  - eexists _, _. split; [reflexivity|].
    rewrite emit_log, adjust_calls_snoc, !adjust_calls_of_snoc, Hl, !Hla.
    simpl. lia.
  - replace (Z.of_nat (S m) =? 0) with false by (symmetry; apply Z.eqb_neq; lia).
    replace (Z.of_nat (S m) - 1) with (Z.of_nat m) by lia.
    set (st1 := adjust self S_flux _ (locked_state st)).
    destruct (IH depth st1 ltac:(lia)) as (b & st' & E & H1 & H2 & H3).
    exists b, st'. split; [exact E|].
    destruct (adjust_counts S_flux
                (saa_mean (clock st) - sflux_offset self)%Q (locked_state st))
      as (A1 & A2 & A3).
    fold st1 in A1, A2, A3. specialize (A3 A_flux ltac:(discriminate)).
    rewrite A1 in H1. rewrite A2 in H2. rewrite A3 in H3.
    rewrite Hl in H1. rewrite !Hla in H2, H3. lia.
Qed.

(** [tune_squid] with [m] attempts left: it returns, after at most [m] calls
    to [adjust] on [A_flux] and at most 5 more on [S_flux]. *)
Lemma tune_squid_bounded (m : nat) :
  forall (depth : nat) (st : state),
    (m + 6 < depth)%nat ->
    exists b st',
      tune_squid saa_mean self depth (Z.of_nat m) st = Some (b, st')
      /\ (adjust_calls_of A_flux (log st')
          <= adjust_calls_of A_flux (log st) + m)%nat
      /\ (adjust_calls_of S_flux (log st')
          <= adjust_calls_of S_flux (log st) + 5)%nat
      /\ (adjust_calls (log st') <= adjust_calls (log st) + m + 5)%nat.
Proof.
  induction m as [|m IH]; intros depth st Hd;
    (destruct depth as [|depth]; [lia|]);
    rewrite tune_squid_step; cbv zeta;
    destruct (tuned_state_log st) as [Hl Hla];
    destruct (Qltb _ (aflux_tol self)).
  - destruct (lock_squid_bounded 5 depth (tuned_state st) ltac:(lia))
      as (b & st' & E & H1 & H2 & H3).
    exists b, st'. split; [exact E|]. rewrite Hl in H1. rewrite !Hla in H2, H3.
    lia.
  - eexists _, _. split; [reflexivity|].
    rewrite emit_log, adjust_calls_snoc, !adjust_calls_of_snoc, Hl, !Hla.
    simpl. lia.
  - destruct (lock_squid_bounded 5 depth (tuned_state st) ltac:(lia))
      as (b & st' & E & H1 & H2 & H3).
    exists b, st'. split; [exact E|]. rewrite Hl in H1. rewrite !Hla in H2, H3.
    lia.
  - replace (Z.of_nat (S m) =? 0) with false by (symmetry; apply Z.eqb_neq; lia).
    replace (Z.of_nat (S m) - 1) with (Z.of_nat m) by lia.
    set (st1 := adjust self A_flux _ (tuned_state st)).
    destruct (IH depth st1 ltac:(lia)) as (b & st' & E & H1 & H2 & H3).
    exists b, st'. split; [exact E|].
    destruct (adjust_counts A_flux
                (saa_mean (clock st) - aflux_offset self)%Q (tuned_state st))
      as (A1 & A2 & A3).
    fold st1 in A1, A2, A3. specialize (A3 S_flux ltac:(discriminate)).
    rewrite A1 in H3. rewrite A2 in H1. rewrite A3 in H2.
    rewrite Hl in H3. rewrite !Hla in H1, H2. lia.
Qed.

Lemma Qltb_false_not (a b : Q) : Qltb a b = false -> ~ (a < b)%Q.
Proof. intros E H. apply Qltb_lt in H. congruence. Qed.

(** [lock_squid] answers [True] exactly when one of the readings it takes
    while the counter runs from [m] down to 0 is within [squid_tol]. *)
Lemma lock_squid_answer (m : nat) :
  forall (depth : nat) (st : state),
    (m < depth)%nat ->
    exists b st',
      lock_squid saa_mean self depth (Z.of_nat m) st = Some (b, st')
      /\ (b = true <->
          exists j, (j <= m)%nat /\ squid_ok (clock st + j)).
Proof.
  induction m as [|m IH]; intros depth st Hd;
    (destruct depth as [|depth]; [lia|]);
    rewrite lock_squid_step; cbv zeta;
    destruct (Qltb _ (squid_tol self)) eqn:E.
  - eexists _, _. split; [reflexivity|]. split; [intros _|reflexivity].
    exists 0%nat. rewrite Nat.add_0_r. split; [lia|]. apply Qltb_lt, E.
  - eexists _, _. split; [reflexivity|]. split; [discriminate|].
    intros (j & Hj & Hok). replace j with 0%nat in Hok by lia.
    rewrite Nat.add_0_r in Hok. exfalso. exact (Qltb_false_not _ _ E Hok).
  - eexists _, _. split; [reflexivity|]. split; [intros _|reflexivity].
    exists 0%nat. rewrite Nat.add_0_r. split; [lia|]. apply Qltb_lt, E.
  - replace (Z.of_nat (S m) =? 0) with false by (symmetry; apply Z.eqb_neq; lia).
    replace (Z.of_nat (S m) - 1) with (Z.of_nat m) by lia.
    set (st1 := adjust self S_flux _ (locked_state st)).
    destruct (IH depth st1 ltac:(lia)) as (b & st' & Eq & Hb).
    assert (Hc : clock st1 = S (clock st)).
    { unfold st1. rewrite adjust_clock. apply locked_state_clock. }
    rewrite Hc in Hb.
    exists b, st'. split; [exact Eq|]. rewrite Hb. split.
    + intros (j & Hj & Hok). exists (S j). split; [lia|].
      replace (clock st + S j)%nat with (S (clock st) + j)%nat by lia. exact Hok.
    + intros (j & Hj & Hok). destruct j as [|j].
      * rewrite Nat.add_0_r in Hok. exfalso. exact (Qltb_false_not _ _ E Hok).
      * exists j. split; [lia|].
        replace (S (clock st) + j)%nat with (clock st + S j)%nat by lia.
        exact Hok.
Qed.

Lemma tune_squid_answer (m : nat) :
  forall (depth : nat) (st : state),
    (m + 6 < depth)%nat ->
    exists b st',
      tune_squid saa_mean self depth (Z.of_nat m) st = Some (b, st')
      /\ (b = true <->
          exists i, (i <= m)%nat /\ first_aflux_ok st i
            /\ exists j, (j <= 5)%nat /\ squid_ok (clock st + i + 1 + j)).
Proof.
  induction m as [|m IH]; intros depth st Hd;
    (destruct depth as [|depth]; [lia|]);
    rewrite tune_squid_step; cbv zeta;
    destruct (Qltb _ (aflux_tol self)) eqn:E.
  1, 3:
    destruct (lock_squid_answer 5 depth (tuned_state st) ltac:(lia))
      as (b & st' & Eq & Hb);
    rewrite tuned_state_clock in Hb;
    exists b, st'; (split; [exact Eq|]); rewrite Hb; apply Qltb_lt in E; split.
  1, 3:
    intros (j & Hj & Hok); exists 0%nat; split; [lia|]; split;
    [ split; [rewrite Nat.add_0_r; exact E | intros i' Hi'; lia]
    | exists j; split; [lia|];
      replace (clock st + 0 + 1 + j)%nat with (S (clock st) + j)%nat by lia;
      exact Hok ].
  1, 2:
    intros (i & Hi & (Hi1 & Hi2) & j & Hj & Hok);
    assert (i = 0)%nat as ->
      by (destruct i as [|i]; [reflexivity|];
          exfalso; apply (Hi2 0%nat); [lia|]; rewrite Nat.add_0_r; exact E);
    exists j; split; [lia|];
    replace (S (clock st) + j)%nat with (clock st + 0 + 1 + j)%nat by lia;
    exact Hok.
  - eexists _, _. split; [reflexivity|]. split; [discriminate|].
    intros (i & Hi & (Hi1 & _) & _). replace i with 0%nat in Hi1 by lia.
    rewrite Nat.add_0_r in Hi1. exfalso. exact (Qltb_false_not _ _ E Hi1).
  - replace (Z.of_nat (S m) =? 0) with false by (symmetry; apply Z.eqb_neq; lia).
    replace (Z.of_nat (S m) - 1) with (Z.of_nat m) by lia.
    set (st1 := adjust self A_flux _ (tuned_state st)).
    destruct (IH depth st1 ltac:(lia)) as (b & st' & Eq & Hb).
    assert (Hc : clock st1 = S (clock st)).
    { unfold st1. rewrite adjust_clock. apply tuned_state_clock. }
    unfold first_aflux_ok in *. rewrite Hc in Hb.
    exists b, st'. split; [exact Eq|]. rewrite Hb. split.
    + intros (i & Hi & (Hi1 & Hi2) & j & Hj & Hok). exists (S i).
      split; [lia|]. split; [split|].
      * replace (clock st + S i)%nat with (S (clock st) + i)%nat by lia.
        exact Hi1.
      * intros i' Hi'. destruct i' as [|i'].
        -- rewrite Nat.add_0_r. exact (Qltb_false_not _ _ E).
        -- replace (clock st + S i')%nat with (S (clock st) + i')%nat by lia.
           apply Hi2. lia.
      * exists j. split; [lia|].
        replace (clock st + S i + 1 + j)%nat
          with (S (clock st) + i + 1 + j)%nat by lia.
        exact Hok.
    + intros (i & Hi & (Hi1 & Hi2) & j & Hj & Hok). destruct i as [|i].
      * rewrite Nat.add_0_r in Hi1. exfalso.
        exact (Qltb_false_not _ _ E Hi1).
      * exists i. split; [lia|]. split; [split|].
        -- replace (S (clock st) + i)%nat with (clock st + S i)%nat by lia.
           exact Hi1.
        -- intros i' Hi'.
           replace (S (clock st) + i')%nat with (clock st + S i')%nat by lia.
           apply Hi2. lia.
        -- exists j. split; [lia|].
           replace (S (clock st) + i + 1 + j)%nat
             with (clock st + S i + 1 + j)%nat by lia.
           exact Hok.
Qed.

End Loop.

(** C1 (as amended).  For every non-negative number of attempts [n] both
    procedures return a boolean as soon as the recursion depth available
    exceeds [n] (respectively [n + 6]).  [lock_squid(attempts=n)] calls
    [adjust] at most [n] times.  [tune_squid(attempts=n)] calls [adjust] at
    most [n] times on [A_flux]; the [lock_squid()] it ends with runs with its
    own default of 5 attempts and may add up to 5 calls on [S_flux], so the
    bound for the whole call is [n + 5]. *)
Theorem retries_bounded (saa_mean : nat -> Q) (self : t) (n : Z)
    (depth : nat) (st : state) :
  0 <= n ->
  ((Z.to_nat n < depth)%nat ->
     exists b st',
       lock_squid saa_mean self depth n st = Some (b, st')
       /\ (adjust_calls (log st') <= adjust_calls (log st) + Z.to_nat n)%nat)
  /\ ((Z.to_nat n + 6 < depth)%nat ->
     exists b st',
       tune_squid saa_mean self depth n st = Some (b, st')
       /\ (adjust_calls_of A_flux (log st')
           <= adjust_calls_of A_flux (log st) + Z.to_nat n)%nat
       /\ (adjust_calls_of S_flux (log st')
           <= adjust_calls_of S_flux (log st) + 5)%nat
       /\ (adjust_calls (log st')
           <= adjust_calls (log st) + Z.to_nat n + 5)%nat).
Proof.
  intros Hn. split; intros Hd.
  - destruct (lock_squid_bounded saa_mean self (Z.to_nat n) depth st Hd)
      as (b & st' & E & H & _).
    rewrite Z2Nat.id in E by exact Hn. exists b, st'. split; assumption.
  - destruct (tune_squid_bounded saa_mean self (Z.to_nat n) depth st Hd)
      as (b & st' & E & H).
    rewrite Z2Nat.id in E by exact Hn. exists b, st'. split; assumption.
Qed.

Lemma retries_bounded_witness :
  (exists b st',
     lock_squid late_drift (init 0 None None None None) 6 5 st0 = Some (b, st')
     /\ (adjust_calls (log st') <= adjust_calls (log st0) + Z.to_nat 5)%nat)
  /\ (exists b st',
     tune_squid slow_settle (init 0 None None None None) 12 5 st0
       = Some (b, st')
     /\ (adjust_calls_of A_flux (log st')
         <= adjust_calls_of A_flux (log st0) + Z.to_nat 5)%nat
     /\ (adjust_calls_of S_flux (log st')
         <= adjust_calls_of S_flux (log st0) + 5)%nat
     /\ (adjust_calls (log st')
         <= adjust_calls (log st0) + Z.to_nat 5 + 5)%nat).
Proof.
  split.
  - apply (retries_bounded late_drift (init 0 None None None None) 5 6 st0);
      [lia | simpl; lia].
  - apply (retries_bounded slow_settle (init 0 None None None None) 5 12 st0);
      [lia | simpl; lia].
Defined.

(** C1 (as stated) fails for [tune_squid]: with [attempts=0] and a first
    reading within [aflux_tol], the call goes on to [lock_squid()] and calls
    [adjust] 5 times; with the default [attempts=5] the whole call can make
    10 corrections. *)
Lemma tune_squid_exceeds_attempts :
  (exists st',
     tune_squid late_drift (init 0 None None None None) 50 0 st0
       = Some (false, st')
     /\ adjust_calls (log st') = 5%nat
     /\ ~ (adjust_calls (log st') <= adjust_calls (log st0) + Z.to_nat 0)%nat)
  /\ (exists st',
     tune_squid slow_settle (init 0 None None None None) 50 5 st0
       = Some (false, st')
     /\ adjust_calls (log st') = 10%nat
     /\ ~ (adjust_calls (log st') <= adjust_calls (log st0) + Z.to_nat 5)%nat).
Proof.
  split; eexists; (split; [vm_compute; reflexivity|]);
    (split; [vm_compute; reflexivity|]); vm_compute; lia.
Qed.



(** C3 (as amended).  On an object built by [__init__] (conversion factor
    10), [adjust(attr, e)] with [v] the current value of the attribute sets it
    to [v + 10*e] when [0 <= v + 10*e <= 150], to [v + 50] when
    [v + 10*e < 0] and to [0] when [v + 10*e > 150]; in every case the call
    ends with a reset of the SQUID array. *)
Theorem adjust_correction (bias : Q) (stol atol soff aoff : option Q)
    (a : attr) (e : Q) (st : state) :
  let self := init bias stol atol soff aoff in
  let v := getattr (squid st) a in
  let st' := adjust self a e st in
  ((0 <= v + 10 * e)%Q -> (v + 10 * e <= 150)%Q ->
     getattr (squid st') a = (v + 10 * e)%Q)
  /\ ((v + 10 * e < 0)%Q -> getattr (squid st') a = (v + 50)%Q)
  /\ ((150 < v + 10 * e)%Q -> getattr (squid st') a = 0%Q)
  /\ log st' = log st ++ [EAdjust a; EReset].
Proof.
  intros self v st'.
  assert (Hc : (v + e * conversion self == v + 10 * e)%Q)
    by (simpl; ring).
  assert (Hget : forall sa x, getattr (setattr sa a x) a = x)
    by (intros sa x; destruct a; reflexivity).
  split; [|split; [|split]].
  - intros H0 H150. unfold st', adjust. fold v.
    destruct (Qltb (v + e * conversion self) 0) eqn:E1.
    { apply Qltb_lt in E1. rewrite Hc in E1.
      exfalso. exact (Qlt_not_le _ _ E1 H0). }
    destruct (Qgtb (v + e * conversion self) 150) eqn:E2.
    { unfold Qgtb in E2. apply Qltb_lt in E2. rewrite Hc in E2.
      exfalso. exact (Qlt_not_le _ _ E2 H150). }
    simpl. apply Hget.
  - intros Hneg. unfold st', adjust. fold v.
    destruct (Qltb (v + e * conversion self) 0) eqn:E1.
    + simpl. apply Hget.
    + apply Qltb_ge in E1. rewrite Hc in E1.
      exfalso. exact (Qlt_not_le _ _ Hneg E1).
  - intros Hbig. unfold st', adjust. fold v.
    destruct (Qltb (v + e * conversion self) 0) eqn:E1.
    { apply Qltb_lt in E1. rewrite Hc in E1. exfalso.
      apply (Qlt_irrefl 0). apply Qlt_trans with 150%Q; [reflexivity|].
      apply Qlt_trans with (v + 10 * e)%Q; assumption. }
    destruct (Qgtb (v + e * conversion self) 150) eqn:E2.
    + simpl. apply Hget.
    + unfold Qgtb in E2. apply Qltb_ge in E2. rewrite Hc in E2.
      exfalso. exact (Qlt_not_le _ _ Hbig E2).
  - unfold st'. rewrite adjust_log, <- app_assoc. reflexivity.
Qed.

Lemma adjust_correction_witness :
  getattr (squid (adjust (init 0 None None None None) A_flux (1 # 2) st0))
    A_flux = (0 + 10 * (1 # 2))%Q
  /\ getattr (squid (adjust (init 0 None None None None) S_flux (- (1)) st0))
       S_flux = (0 + 50)%Q
  /\ getattr (squid (adjust (init 0 None None None None) S_flux 16 st0))
       S_flux = 0%Q.
Proof.
  split; [|split].
  - apply (adjust_correction 0 None None None None A_flux (1 # 2) st0);
      vm_compute; discriminate.
  - apply (adjust_correction 0 None None None None S_flux (- (1)) st0).
    vm_compute. reflexivity.
  - apply (adjust_correction 0 None None None None S_flux 16 st0).
    vm_compute. reflexivity.
Defined.

(** C3 (as stated) fails outside the window: from [v = 0] an error of [-1]
    gives [v + 10*e = -10], and [adjust] stores 50 instead; an error of 16
    gives [v + 10*e = 160], and [adjust] stores 0. *)
Lemma adjust_not_linear :
  let below := adjust (init 0 None None None None) A_flux (- (1)) st0 in
  let above := adjust (init 0 None None None None) A_flux 16 st0 in
  getattr (squid below) A_flux = (0 + 50)%Q
  /\ ~ (getattr (squid below) A_flux
        == getattr (squid st0) A_flux + 10 * - (1))%Q
  /\ getattr (squid above) A_flux = 0%Q
  /\ ~ (getattr (squid above) A_flux == getattr (squid st0) A_flux + 10 * 16)%Q.
Proof.
  split; [reflexivity|]. split; [vm_compute; discriminate|].
  split; [reflexivity|]. vm_compute. discriminate.
Qed.

End ArrayTuneFacts.

(** ** The DAQ driver *)

Module NIDAQFacts.
Import Py NIDAQ.

(** *** Ramps *)

Lemma linspace_raises (start stop : Q) (num : Z) (e : exn) :
  linspace start stop num = Raise e -> e = ValueError.
Proof.
  unfold linspace. destruct (num <? 0); [|discriminate].
  intros H. injection H as <-. reflexivity.
Qed.

Lemma length_removelast (l : list Q) :
  length (removelast l) = pred (length l).
Proof.
  rewrite removelast_firstn_len, List.length_firstn. lia.
Qed.

Lemma linspace_length (start stop : Q) (num : Z) :
  0 <= num ->
  exists y, linspace start stop num = Ok y /\ length y = Z.to_nat num.
Proof.
  intros Hn. unfold linspace.
  replace (num <? 0) with false by (symmetry; apply Z.ltb_ge; exact Hn).
  eexists. split; [reflexivity|].
  set (y := map _ _).
  assert (Hy : length y = Z.to_nat num)
    by (unfold y; rewrite length_map, length_seq; reflexivity).
  destruct (1 <? num) eqn:E; [|exact Hy].
  apply Z.ltb_lt in E. rewrite length_app, length_removelast. simpl. lia.
Qed.

(** With at least two samples the first is [start] (computed as
    [0 * step + start]) and the last is [stop] itself. *)
Lemma linspace_ends (start stop : Q) (num : Z) :
  2 <= num ->
  exists mid,
    linspace start stop num
    = Ok ((inject_Z 0 * ((stop - start) / inject_Z (num - 1)) + start)%Q
            :: mid ++ [stop])
    /\ length mid = Z.to_nat (num - 2).
Proof.
  intros Hn. unfold linspace.
  replace (num <? 0) with false by (symmetry; apply Z.ltb_ge; lia).
  replace (1 <? num) with true by (symmetry; apply Z.ltb_lt; lia).
  replace (0 <? num - 1) with true by (symmetry; apply Z.ltb_lt; lia).
  replace (Z.to_nat num) with (S (S (Z.to_nat (num - 2)))) by lia.
  set (f := fun i : nat => _).
  change (seq 0 (S (S (Z.to_nat (num - 2)))))
    with (0%nat :: seq 1 (S (Z.to_nat (num - 2)))).
  rewrite map_cons.
  set (rest := map f (seq 1 (S (Z.to_nat (num - 2))))).
  assert (Hrest : length rest = S (Z.to_nat (num - 2)))
    by (unfold rest; rewrite length_map, length_seq; reflexivity).
  exists (removelast rest). split.
  - destruct rest as [|b rest]; [discriminate Hrest|]. reflexivity.
  - rewrite length_removelast, Hrest. reflexivity.
Qed.

Lemma accel_function_raises (start end_ : Q) (numpts : Z) (e : exn) :
  accel_function start end_ numpts = Raise e -> e = ValueError.
Proof.
  unfold accel_function. destruct (Qeq_bool start end_); [discriminate|].
  destruct (linspace start _ numpts) as [p1|e1] eqn:E1; simpl.
  - destruct (linspace _ end_ numpts) as [p2|e2] eqn:E2; simpl; [discriminate|].
    intros H. injection H as <-. exact (linspace_raises _ _ _ _ E2).
  - intros H. injection H as <-. exact (linspace_raises _ _ _ _ E1).
Qed.

Lemma accel_function_total (start end_ : Q) (numpts : Z) :
  0 <= numpts -> exists l, accel_function start end_ numpts = Ok l.
Proof.
  intros Hn. unfold accel_function.
  destruct (Qeq_bool start end_); [eexists; reflexivity|].
  destruct (linspace_length start ((end_ - start) / 2 + start) numpts Hn)
    as (y1 & -> & _).
  destruct (linspace_length ((end_ - start) / 2 + start) end_ numpts Hn)
    as (y2 & -> & _).
  simpl. eexists; reflexivity.
Qed.

(** C8 (as amended).  In exact arithmetic (floats idealised as rationals:
    no rounding, no overflow, no underflow to 0.0 and no NaN): when
    [start == end], [accel_function] returns a list of length [2*numpts]
    whose elements are all [start].  Otherwise, for [numpts >= 2], it returns
    a list of length [2*numpts - 1] whose first element equals [start] and
    whose last element equals [end]. *)
Theorem accel_function_shape (start end_ : Q) (numpts : Z) :
  ((start == end_)%Q -> 0 <= numpts ->
     exists l, accel_function start end_ numpts = Ok l
       /\ Z.of_nat (length l) = 2 * numpts
       /\ Forall (fun x => x = start) l)
  /\ (~ (start == end_)%Q -> 2 <= numpts ->
     exists l, accel_function start end_ numpts = Ok l
       /\ Z.of_nat (length l) = 2 * numpts - 1
       /\ (List.hd 0 l == start)%Q
       /\ (last_elt l == end_)%Q).
Proof.
  split.
  - intros Heq Hn. unfold accel_function.
    replace (Qeq_bool start end_) with true
      by (symmetry; apply Qeq_bool_iff; exact Heq).
    eexists. split; [reflexivity|]. split.
    + rewrite length_app, repeat_length. lia.
    + apply Forall_app. split; apply Forall_forall; intros x Hx;
        apply list_elem_of_In, repeat_spec in Hx; exact Hx.
  - intros Hne Hn. unfold accel_function.
    destruct (Qeq_bool start end_) eqn:E.
    { apply Qeq_bool_iff in E. contradiction. }
    destruct (linspace_ends start ((end_ - start) / 2 + start) numpts Hn)
      as (m1 & -> & L1).
    destruct (linspace_ends ((end_ - start) / 2 + start) end_ numpts Hn)
      as (m2 & -> & L2).
    cbn [bind]. eexists. split; [reflexivity|]. split; [|split].
    + cbn [map tl]. rewrite length_app. cbn [length].
      rewrite !length_map, !length_app. cbn [length]. lia.
    + cbn [map List.hd app]. unfold Qdiv. ring.
    + unfold last_elt. cbn [map tl]. rewrite (map_app _ m2). cbn [map].
      rewrite app_assoc, List.last_last. unfold Qdiv. ring.
Qed.

Lemma accel_function_shape_witness :
  (exists l, accel_function 3 3 4 = Ok l
     /\ Z.of_nat (length l) = 2 * 4
     /\ Forall (fun x => x = 3%Q) l)
  /\ (exists l, accel_function 0 1 250 = Ok l
     /\ Z.of_nat (length l) = 2 * 250 - 1
     /\ (List.hd 0 l == 0)%Q
     /\ (last_elt l == 1)%Q).
Proof.
  split.
  - apply (accel_function_shape 3 3 4); [reflexivity | lia].
  - apply (accel_function_shape 0 1 250); [discriminate | lia].
Defined.

(** C8 (as stated) fails for [numpts = 1]: the ramp from 0 to 1 is the
    one-element list holding 0, whose last element is not 1.  It also fails
    below that: for [numpts = 0] the ramp is empty, of length 0 and not
    [2*0 - 1], and a negative [numpts] with [start == end] gives the empty
    list, not one of length [2*numpts]. *)
Lemma accel_function_single_point :
  (exists l, accel_function 0 1 1 = Ok l
     /\ Z.of_nat (length l) = 2 * 1 - 1
     /\ ~ (last_elt l == 1)%Q)
  /\ (exists l, accel_function 0 1 0 = Ok l
     /\ Z.of_nat (length l) <> 2 * 0 - 1)
  /\ (exists l, accel_function 3 3 (- 1) = Ok l
     /\ Z.of_nat (length l) <> 2 * (- 1)).
Proof.
  split; [|split].
  - eexists. split; [vm_compute; reflexivity|].
    split; [reflexivity|]. vm_compute. discriminate.
  - eexists. split; [vm_compute; reflexivity|]. vm_compute. discriminate.
  - eexists. split; [vm_compute; reflexivity|]. vm_compute. discriminate.
Qed.

(** *** Objects on the heap *)

Lemma alloc_fresh (o : object) (h : Py.heap) : h !! (alloc o h).1 = None.
Proof. apply not_elem_of_dom, is_fresh. Qed.

Lemma alloc_subseteq (o : object) (h0 h : Py.heap) :
  h0 ⊆ h -> h0 ⊆ (alloc o h).2.
Proof.
  intros Hsub. etrans; [exact Hsub|].
  unfold alloc. cbn [snd]. apply insert_subseteq, not_elem_of_dom, is_fresh.
Qed.

Lemma alloc_fresh_below (o : object) (h0 h : Py.heap) :
  h0 ⊆ h -> h0 !! (alloc o h).1 = None.
Proof.
  intros Hsub. destruct (h0 !! (alloc o h).1) as [x|] eqn:E; [|reflexivity].
  apply (lookup_weaken _ _ _ _ E) in Hsub.
  rewrite alloc_fresh in Hsub. discriminate.
Qed.

Section DriverFacts.

Variable task_run : dict (list Q) -> nat -> Q -> dict (list Q).

(** The loop only allocates and only assigns into the dict it was given: a
    heap [h0] in which that dict does not exist is carried along unchanged. *)
Lemma send_loop_frame (chs : list string) :
  forall (data : loc) (wd : dict (list Q)) (st : daq) r st' (h0 : Py.heap),
    h0 ⊆ heap st -> h0 !! data = None ->
    send_loop chs data wd st = (r, st') ->
    h0 ⊆ heap st'.
Proof.
  induction chs as [|ch chs IH]; intros data wd st r st' h0 Hsub Hfresh H;
    cbn [send_loop] in H.
  - injection H as <- <-. exact Hsub.
  - destruct (heap st !! data) as [[xs|items]|];
      try (injection H as <- <-; exact Hsub).
    destruct (dict_get ch items) as [ld|];
      [|injection H as <- <-; exact Hsub].
    destruct (heap st !! ld) as [[[|x0 xs]|items']|];
      try (injection H as <- <-; exact Hsub).
    apply IH with (h0 := h0) in H; [exact H| |exact Hfresh].
    cbn [heap]. apply insert_subseteq_r; [exact Hfresh|].
    apply alloc_subseteq, alloc_subseteq, Hsub.
Qed.

Lemma send_receive_frame (chan_out : chan_arg) (orig_data : loc) (freq : Q)
    (st : daq) :
  heap st ⊆ heap (send_receive task_run chan_out orig_data freq st).2.
Proof.
  unfold send_receive.
  destruct (heap st !! orig_data) as [o|]; [|reflexivity].
  set (a1 := alloc o (heap st)).
  assert (H1 : heap st ⊆ a1.2) by (apply alloc_subseteq; reflexivity).
  assert (F1 : heap st !! a1.1 = None) by apply alloc_fresh.
  destruct a1 as [d1 h1]. cbn [fst snd] in H1, F1.
  destruct chan_out as [ch|chs].
  - set (a2 := alloc (ODict [(ch, d1)]) h1).
    assert (H2 : heap st ⊆ a2.2) by (apply alloc_subseteq; exact H1).
    assert (F2 : heap st !! a2.1 = None) by (apply alloc_fresh_below; exact H1).
    destruct a2 as [d2 h2]. cbn [fst snd] in H2, F2.
    destruct (h2 !! d2) as [od|]; [|exact H2].
    destruct (negb _); [exact H2|].
    destruct (send_loop [ch] d2 [] _) as [r st2] eqn:Hloop.
    apply send_loop_frame with (h0 := heap st) in Hloop;
      [|exact H2|exact F2].
    destruct r as [wd|e]; [|exact Hloop].
    repeat case_match; exact Hloop.
  - destruct (h1 !! d1) as [od|]; [|exact H1].
    destruct (negb _); [exact H1|].
    destruct (send_loop chs d1 [] _) as [r st2] eqn:Hloop.
    apply send_loop_frame with (h0 := heap st) in Hloop;
      [|exact H1|exact F1].
    destruct r as [wd|e]; [|exact Hloop].
    repeat case_match; exact Hloop.
Qed.

End DriverFacts.

(** C9.  Whatever [send_receive] returns or raises, every object that was
    on the heap when it was called (the caller's [orig_data], and the lists a
    dict [orig_data] refers to) holds the same contents afterwards: the
    duplicated last sample only ever lands in objects created by the call. *)
Theorem send_receive_preserves_caller_data
    (task_run : dict (list Q) -> nat -> Q -> dict (list Q))
    (chan_out : chan_arg) (orig_data : loc) (freq : Q) (st : daq)
    (l : loc) (o : object) :
  heap st !! l = Some o ->
  heap (send_receive task_run chan_out orig_data freq st).2 !! l = Some o.
Proof.
  intros H. eapply lookup_weaken; [exact H|]. apply send_receive_frame.
Qed.

Lemma send_receive_preserves_caller_data_witness :
  heap (send_receive idle_task (Many ["ao0"%string]) 2%positive 100 daq1).2 !! 1%positive
  = Some (OList [1%Q; 2%Q])
  /\ heap (send_receive idle_task (One "ao0"%string) 1%positive 100 daq1).2 !! 1%positive
    = Some (OList [1%Q; 2%Q]).
Proof.
  split; apply send_receive_preserves_caller_data; reflexivity.
Defined.

(** The duplicated sample is there all the same: it is what the card gets. *)
Example send_receive_sends_duplicate :
  hw (send_receive idle_task (Many ["ao0"%string]) 2%positive 100 daq1).2
  = [HwWrite "ao0" 1; HwRun [("ao0"%string, [1%Q; 2%Q; 2%Q])] 3 100].
Proof. vm_compute. reflexivity. Qed.

(** *** The range check of [sweep] *)

Lemma builtin_not_range (e : exn) : builtin e -> e <> range_error.
Proof. intros H ->. exact H. Qed.

Lemma pymax_le (a b c : Q) : (a <= c)%Q -> (b <= c)%Q -> (pymax a b <= c)%Q.
Proof. intros Ha Hb. unfold pymax. destruct (Qgtb b a); assumption. Qed.

Lemma Qabs_within (v : Q) : (- (10) <= v)%Q /\ (v <= 10)%Q -> (Qabs v <= 10)%Q.
Proof. intros H. apply Qabs_Qle_condition. exact H. Qed.

Lemma sweep_loop_raises_range (items : dict Q) :
  forall (Vend : dict Q) (numsteps : Z) (accel : bool) (V : dict (list Q)),
    (if accel then 1 <= numsteps else 0 <= numsteps) ->
    (forall k vs, In (k, vs) items -> is_Some (dict_get k Vend)) ->
    (exists k vs ve,
        In (k, vs) items /\ dict_get k Vend = Some ve /\ out_of_range vs ve) ->
    sweep_loop items Vend numsteps accel V = Raise range_error.
Proof.
  induction items as [|[k0 vs0] items IH];
    intros Vend numsteps accel V Hn Hwf (k & vs & ve & Hin & Hget & Hout).
  { destruct Hin. }
  cbn [sweep_loop].
  destruct (Hwf k0 vs0 (or_introl eq_refl)) as [ve0 Hve0]. rewrite Hve0.
  assert (Hn0 : 0 <= numsteps) by (destruct accel; lia).
  destruct (linspace_length vs0 ve0 numsteps Hn0) as (pts & -> & Hlen).
  destruct (Qgtb (pymax (Qabs vs0) (Qabs ve0)) 10) eqn:E; [reflexivity|].
  assert (Htail : exists k vs ve,
             In (k, vs) items /\ dict_get k Vend = Some ve
             /\ out_of_range vs ve).
  { destruct Hin as [Heq|Hin].
    - injection Heq as <- <-. rewrite Hve0 in Hget. injection Hget as <-.
      exfalso. unfold Qgtb in E. apply Qltb_ge in E.
      exact (Qlt_not_le _ _ Hout E).
    - exists k, vs, ve. repeat split; assumption. }
  assert (Hwf' : forall k vs, In (k, vs) items -> is_Some (dict_get k Vend))
    by (intros k' vs' H'; apply (Hwf k' vs'); right; exact H').
  destruct accel; [|apply IH; assumption].
  destruct pts as [|first pts]; [simpl in Hlen; lia|].
  destruct (accel_function_total 0 first numaccel ltac:(unfold numaccel; lia))
    as (up & ->).
  destruct (accel_function_total (last_elt (up ++ first :: pts)) 0 numaccel
              ltac:(unfold numaccel; lia)) as (down & ->).
  apply IH; assumption.
Qed.

Lemma sweep_loop_no_range_error (items : dict Q) :
  forall (Vend : dict Q) (numsteps : Z) (accel : bool) (V : dict (list Q)),
    (forall k vs ve, In (k, vs) items -> dict_get k Vend = Some ve ->
       (Qabs vs <= 10)%Q /\ (Qabs ve <= 10)%Q) ->
    sweep_loop items Vend numsteps accel V <> Raise range_error.
Proof.
  induction items as [|[k0 vs0] items IH]; intros Vend numsteps accel V Hin;
    cbn [sweep_loop]; [discriminate|].
  destruct (dict_get k0 Vend) as [ve0|] eqn:Hve0; [|discriminate].
  destruct (linspace vs0 ve0 numsteps) as [pts|e] eqn:El.
  2: { apply linspace_raises in El. subst e. discriminate. }
  destruct (Hin k0 vs0 ve0 (or_introl eq_refl) Hve0) as [Hs He].
  assert (E : Qgtb (pymax (Qabs vs0) (Qabs ve0)) 10 = false)
    by (unfold Qgtb; apply Qltb_ge, pymax_le; assumption).
  rewrite E.
  assert (Hin' : forall k vs ve, In (k, vs) items -> dict_get k Vend = Some ve ->
             (Qabs vs <= 10)%Q /\ (Qabs ve <= 10)%Q)
    by (intros k vs ve H'; apply Hin; right; exact H').
  destruct accel; [|apply IH; exact Hin'].
  destruct pts as [|first pts]; [discriminate|].
  destruct (accel_function 0 first numaccel) as [up|e] eqn:Eu.
  2: { apply accel_function_raises in Eu. subst e. discriminate. }
  destruct (accel_function _ 0 numaccel) as [down|e] eqn:Ed.
  2: { apply accel_function_raises in Ed. subst e. discriminate. }
  apply IH. exact Hin'.
Qed.

Section SweepFacts.

Variable task_run : dict (list Q) -> nat -> Q -> dict (list Q).

Lemma send_loop_raises (chs : list string) :
  forall (data : loc) (wd : dict (list Q)) (st : daq) e st',
    send_loop chs data wd st = (Raise e, st') -> builtin e.
Proof.
  induction chs as [|ch chs IH]; intros data wd st e st' H;
    cbn [send_loop] in H; [discriminate|].
  repeat case_match; simplify_eq; try exact I.
  eapply IH. eassumption.
Qed.

Lemma chan_nums_raises (ys : list string) (e : exn) :
  chan_nums ys = Raise e -> builtin e.
Proof.
  revert e. induction ys as [|y ys IH]; intros e H; cbn [chan_nums] in H;
    [discriminate|].
  unfold chan_num in H.
  destruct (List.filter is_digit (list_ascii_of_string y));
    cbn [bind] in H; [injection H as <-; exact I|].
  destruct (chan_nums ys) as [ns|e']; cbn [bind] in H; [discriminate|].
  injection H as <-. apply IH. reflexivity.
Qed.

Lemma trim_inputs_raises (chs : list string) :
  forall (min_chan : string) (received data_in : dict (list Q)) (e : exn),
    trim_inputs chs min_chan received data_in = Raise e -> builtin e.
Proof.
  induction chs as [|ch chs IH]; intros min_chan received data_in e H;
    cbn [trim_inputs] in H; [discriminate|].
  destruct (dict_get ch received); [|injection H as <-; exact I].
  eapply IH. exact H.
Qed.

Lemma send_receive_no_range_error (chan_out : chan_arg) (orig_data : loc)
    (freq : Q) (st : daq) :
  (send_receive task_run chan_out orig_data freq st).1 <> Raise range_error.
Proof.
  unfold send_receive.
  repeat case_match; cbn [fst]; try discriminate;
    match goal with
    | H : send_loop _ _ _ _ = (Raise _, _) |- _ =>
      apply send_loop_raises, builtin_not_range in H; congruence
    | H : chan_nums _ = Raise _ |- _ =>
      apply chan_nums_raises, builtin_not_range in H; congruence
    | H : trim_inputs _ _ _ _ = Raise _ |- _ =>
      apply trim_inputs_raises, builtin_not_range in H; congruence
    end.
Qed.

End SweepFacts.

(** C7 (as amended).  Voltages being numbers (floats idealised as
    rationals, so no NaN): in a well-formed call of [sweep] (every channel of
    [Vstart] has an end voltage, a number of steps that is not negative, and
    positive with [accel]), if [max(|Vstart[k]|, |Vend[k]|) > 10] for some
    channel then the call raises 'NIDAQ out of range!' and leaves the driver
    as it found it: nothing was written to the card and no task was run.  In
    any call, when the start and end voltages of every channel are within
    [-10, 10], that exception is not raised. *)
Theorem sweep_range_check
    (task_run : dict (list Q) -> nat -> Q -> dict (list Q))
    (args : sweep_args) (freq : Q) (numsteps : Z) (accel : bool) (st : daq) :
  (well_formed args numsteps accel ->
   (exists ch vs ve,
       In (ch, vs, Some ve) (channels args) /\ out_of_range vs ve) ->
   sweep task_run args freq numsteps accel st = (Raise range_error, st))
  /\ ((forall ch vs ve, In (ch, vs, Some ve) (channels args) ->
         ((- (10) <= vs)%Q /\ (vs <= 10)%Q)
         /\ ((- (10) <= ve)%Q /\ (ve <= 10)%Q)) ->
      (sweep task_run args freq numsteps accel st).1 <> Raise range_error).
Proof.
  split.
  - intros [Hwf Hn] (ch & vs & ve & Hin & Hout). unfold sweep.
    destruct args as [c s e|chs Vstart Vend].
    + rewrite (sweep_loop_raises_range [(c, s)] [(c, e)] numsteps accel []);
        [reflexivity|exact Hn| |].
      * intros k v [Heq|[]]. injection Heq as <- <-. cbn [dict_get].
        rewrite String.eqb_refl. eexists; reflexivity.
      * cbn [channels] in Hin. destruct Hin as [Heq|[]].
        injection Heq as <- <- <-. exists c, s, e. split; [left; reflexivity|].
        split; [|exact Hout]. cbn [dict_get]. rewrite String.eqb_refl.
        reflexivity.
    + rewrite (sweep_loop_raises_range Vstart Vend numsteps accel []);
        [reflexivity|exact Hn| |].
      * intros k v Hk. apply (Hwf (k, v, dict_get k Vend)).
        cbn [channels]. apply in_map_iff. exists (k, v). split; [reflexivity|].
        exact Hk.
      * cbn [channels] in Hin. apply in_map_iff in Hin.
        destruct Hin as ([k v] & Heq & Hk). cbn [fst snd] in Heq.
        injection Heq as <- <- Hget. exists k, v, ve.
        repeat split; assumption.
  - intros Hin. unfold sweep.
    assert (Hloop : forall Vstart Vend,
      (forall k vs ve, In (k, vs) Vstart -> dict_get k Vend = Some ve ->
         In (k, vs, Some ve) (channels args)) ->
      sweep_loop Vstart Vend numsteps accel [] <> Raise range_error).
    { intros Vstart Vend Hch. apply sweep_loop_no_range_error.
      intros k vs ve Hk Hget.
      destruct (Hin k vs ve (Hch k vs ve Hk Hget)) as [Hs He].
      split; apply Qabs_within; assumption. }
    assert (Hargs : exists chs Vstart Vend,
      (match args with
       | SweepOne ch vs ve => ([ch], [(ch, vs)], [(ch, ve)])
       | SweepMany chs Vstart Vend => (chs, Vstart, Vend)
       end) = (chs, Vstart, Vend)
      /\ forall k vs ve, In (k, vs) Vstart -> dict_get k Vend = Some ve ->
           In (k, vs, Some ve) (channels args)).
    { destruct args as [c s e|chs Vstart Vend].
      - eexists _, _, _. split; [reflexivity|].
        intros k vs ve [Heq|[]] Hget. injection Heq as <- <-.
        cbn [dict_get] in Hget. rewrite String.eqb_refl in Hget.
        injection Hget as <-. left. reflexivity.
      - eexists _, _, _. split; [reflexivity|].
        intros k vs ve Hk Hget. cbn [channels]. apply in_map_iff.
        exists (k, vs). cbn [fst snd]. rewrite Hget. split; [reflexivity|].
        exact Hk. }
    destruct Hargs as (chs & Vstart & Vend & -> & Hch).
    specialize (Hloop Vstart Vend Hch).
    destruct (sweep_loop Vstart Vend numsteps accel []) as [V|e];
      [|cbn [fst]; congruence].
    destruct (store_lists V (heap st)) as [items h].
    destruct (alloc (ODict items) h) as [vref h'].
    pose proof (send_receive_no_range_error task_run (Many chs) vref freq
                  (mkDaq h' (hw st) (inputs_to_monitor st))) as Hsr.
    destruct (send_receive task_run (Many chs) vref freq _)
      as [[[response time]|e] st'].
    + destruct accel; [discriminate|]. repeat case_match; discriminate.
    + cbn [fst] in Hsr |- *. intros Heq. apply Hsr.
      injection Heq as ->. reflexivity.
Qed.

Lemma sweep_range_check_witness :
  sweep idle_task (SweepOne "ao0" 0 11) 100 1000 false daq0
  = (Raise range_error, daq0)
  /\ sweep idle_task
       (SweepMany ["ao0"; "ao1"]%string
          [("ao0"%string, 1%Q); ("ao1"%string, - (12))%Q]
          [("ao0"%string, 2%Q); ("ao1"%string, 0%Q)]) 100 1000 true daq0
    = (Raise range_error, daq0)
  /\ (sweep idle_task (SweepOne "ao0" (- (10)) 10) 100 3 false daq0).1
     <> Raise range_error.
Proof.
  split; [|split].
  3: { apply (sweep_range_check idle_task (SweepOne "ao0" (- (10)) 10)
                100 3 false daq0).
       intros ch vs ve [Heq|[]]. injection Heq as <- <- <-.
       repeat split; apply Qle_bool_iff; reflexivity. }
  - apply (sweep_range_check idle_task (SweepOne "ao0" 0 11) 100 1000 false daq0).
    + split; [|lia]. intros c [<-|[]]. eexists; reflexivity.
    + exists "ao0"%string, 0%Q, 11%Q. split; [left; reflexivity|].
      vm_compute. reflexivity.
  - apply (sweep_range_check idle_task
             (SweepMany ["ao0"; "ao1"]%string
                [("ao0"%string, 1%Q); ("ao1"%string, - (12))%Q]
                [("ao0"%string, 2%Q); ("ao1"%string, 0%Q)]) 100 1000 true daq0).
    + split; [|lia]. intros c [<-|[<-|[]]]; eexists; reflexivity.
    + exists "ao1"%string, (- (12))%Q, 0%Q.
      split; [right; left; reflexivity|]. vm_compute. reflexivity.
Defined.

(** C7 (as stated) fails for calls that are not well formed: [np.linspace]
    and [Vend[k]] are evaluated before the range test, and the channels
    before the one out of range are ramped first.  With an end point of 11
    volts a negative number of steps raises ValueError and a missing end
    voltage KeyError; with [accel] and no step, a first channel within range
    raises IndexError before the second one, at -12 volts, is looked at.
    None of these is 'NIDAQ out of range!'. *)
Lemma sweep_raises_before_range_check :
  out_of_range 0 11
  /\ sweep idle_task (SweepOne "ao0" 0 11) 100 (- 1) false daq0
     = (Raise ValueError, daq0)
  /\ sweep idle_task
       (SweepMany ["ao0"%string] [("ao0"%string, 11%Q)] []) 100 1000 false
       daq0
     = (Raise KeyError, daq0)
  /\ out_of_range (- (12)) 0
  /\ sweep idle_task
       (SweepMany ["ao0"; "ao1"]%string
          [("ao0"%string, 1%Q); ("ao1"%string, - (12))%Q]
          [("ao0"%string, 2%Q); ("ao1"%string, 0%Q)]) 100 0 true daq0
     = (Raise IndexError, daq0).
Proof. repeat split; vm_compute; reflexivity. Qed.

End NIDAQFacts.

(** ** The HDF5 layer *)

Module DatasetFacts.
Import Py Dataset.

(** *** Reading *)

(** For a path that names a group, the answer of [get] does not depend on
    the path: the visit always starts at the root of the file. *)
Lemma get_group_ignores_path (fs : disk) (filename path path' : string)
    (ms ms' : list (string * h5obj)) (f : h5obj) :
  fs !! filename = Some f ->
  h5_lookup (components path) f = Some (H5Group ms) ->
  h5_lookup (components path') f = Some (H5Group ms') ->
  get fs filename path None = get fs filename path' None.
Proof.
  intros Hf Hp Hp'. unfold get. rewrite Hf, Hp, Hp'. reflexivity.
Qed.

(** C4 (code at the failing input).  In a file with the groups "a" (holding
    the dataset "x") and "b" (holding "y"), [get("a")] returns the dict of
    the whole file, [{"a": {"x": 1}, "b": {"y": 2}}], where the docstring
    promises the dict of the subgroup, [{"x": 1}]. *)
Theorem get_group_returns_whole_file :
  get disk_two_groups "data.h5" "a" None
  = Ok (PDict [("a"%string, PDict [("x"%string, PInt 1)]);
               ("b"%string, PDict [("y"%string, PInt 2)])])
  /\ get_documented disk_two_groups "data.h5" "a"
     = Ok (PDict [("x"%string, PInt 1)])
  /\ get disk_two_groups "data.h5" "a" None
     <> get_documented disk_two_groups "data.h5" "a".
Proof.
  split; [vm_compute; reflexivity|].
  split; [vm_compute; reflexivity|].
  vm_compute. discriminate.
Qed.

(** *** Creating datasets *)

Lemma same_kind_refl (x : h5obj) : same_kind x x.
Proof. destruct x; [reflexivity|exact I]. Qed.

Lemma same_kind_trans (x y z : h5obj) :
  same_kind x y -> same_kind y z -> same_kind x z.
Proof.
  destruct x as [c|ms]; cbn [same_kind].
  - intros ->. cbn [same_kind]. exact (fun H => H).
  - destruct y as [c|ms']; [intros []|]. intros _. exact (fun H => H).
Qed.

Lemma h5_create_absent (keys : list string) :
  forall (v : pyval) (o o' : h5obj),
    h5_create keys v o = Ok o' -> h5_lookup keys o = None.
Proof.
  induction keys as [|k keys IH]; intros v o o' H;
    destruct o as [c|ms]; cbn [h5_create] in H; try discriminate.
  cbn [h5_lookup].
  destruct keys as [|k2 rest].
  - destruct (dict_get k ms); [discriminate|reflexivity].
  - destruct (dict_get k ms) as [child|]; [|reflexivity].
    destruct (h5_create (k2 :: rest) v child) as [child'|e] eqn:E;
      [|discriminate].
    exact (IH _ _ _ E).
Qed.

Lemma h5_create_present (keys : list string) :
  forall (v : pyval) (o o' : h5obj),
    h5_create keys v o = Ok o' -> h5_lookup keys o' = Some (H5Dataset v).
Proof.
  induction keys as [|k keys IH]; intros v o o' H;
    destruct o as [c|ms]; cbn [h5_create] in H; try discriminate.
  destruct keys as [|k2 rest].
  - destruct (dict_get k ms) eqn:Ek; [discriminate|].
    injection H as <-. cbn [h5_lookup].
    rewrite PyFacts.dict_get_app, Ek. cbn [dict_get].
    rewrite String.eqb_refl. reflexivity.
  - destruct (dict_get k ms) as [child|] eqn:Ek.
    + destruct (h5_create (k2 :: rest) v child) as [child'|e] eqn:E;
        [|discriminate].
      cbn [bind] in H. injection H as <-.
      change (h5_lookup (k :: k2 :: rest) (H5Group (dict_set k child' ms)))
        with (match dict_get k (dict_set k child' ms) with
              | Some c => h5_lookup (k2 :: rest) c
              | None => None
              end).
      rewrite PyFacts.dict_get_set, String.eqb_refl. exact (IH _ _ _ E).
    + destruct (h5_create (k2 :: rest) v (H5Group [])) as [child'|e] eqn:E;
        [|discriminate].
      cbn [bind] in H. injection H as <-.
      change (h5_lookup (k :: k2 :: rest) (H5Group (ms ++ [(k, child')])))
        with (match dict_get k (ms ++ [(k, child')]) with
              | Some c => h5_lookup (k2 :: rest) c
              | None => None
              end).
      rewrite PyFacts.dict_get_app, Ek. cbn [dict_get].
      rewrite String.eqb_refl. exact (IH _ _ _ E).
Qed.

(** Creating a dataset leaves every dataset where it was, with its
    contents, and every group a group. *)
Lemma h5_create_frame (keys : list string) :
  forall (v : pyval) (o o' : h5obj) (p : list string) (x : h5obj),
    h5_create keys v o = Ok o' ->
    h5_lookup p o = Some x ->
    exists x', h5_lookup p o' = Some x' /\ same_kind x x'.
Proof.
  induction keys as [|k keys IH]; intros v o o' p x H Hp;
    destruct o as [c|ms]; cbn [h5_create] in H; try discriminate.
  assert (Hgroup : forall ms', o' = H5Group ms' ->
            p = [] -> exists x', h5_lookup p o' = Some x' /\ same_kind x x').
  { intros ms' -> ->. cbn [h5_lookup] in Hp. injection Hp as <-.
    eexists. split; [reflexivity|]. exact I. }
  destruct p as [|q ps].
  { destruct keys as [|k2 rest].
    - destruct (dict_get k ms); [discriminate|]. injection H as <-.
      eapply Hgroup; reflexivity.
    - destruct (dict_get k ms) as [child|].
      + destruct (h5_create (k2 :: rest) v child); [|discriminate].
        injection H as <-. eapply Hgroup; reflexivity.
      + destruct (h5_create (k2 :: rest) v (H5Group [])); [|discriminate].
        injection H as <-. eapply Hgroup; reflexivity. }
  clear Hgroup. cbn [h5_lookup] in Hp.
  destruct (dict_get q ms) as [child0|] eqn:Eq; [|discriminate].
  assert (Hkeep : forall ms', dict_get q ms' = Some child0 ->
            exists x', h5_lookup (q :: ps) (H5Group ms') = Some x'
                       /\ same_kind x x').
  { intros ms' Hq. exists x. cbn [h5_lookup]. rewrite Hq.
    split; [exact Hp|apply same_kind_refl]. }
  destruct keys as [|k2 rest].
  - destruct (dict_get k ms) eqn:Ek; [discriminate|]. injection H as <-.
    apply Hkeep. rewrite PyFacts.dict_get_app, Eq. reflexivity.
  - destruct (dict_get k ms) as [child|] eqn:Ek.
    + destruct (h5_create (k2 :: rest) v child) as [child'|e] eqn:E;
        [|discriminate].
      cbn [bind] in H. injection H as <-.
      destruct (String.eqb q k) eqn:Eqk.
      * apply String.eqb_eq in Eqk. subst q.
        rewrite Ek in Eq. injection Eq as <-.
        destruct (IH _ _ _ ps x E Hp) as (x' & Hx' & Hk).
        exists x'. split; [|exact Hk]. cbn [h5_lookup].
        rewrite PyFacts.dict_get_set, String.eqb_refl. exact Hx'.
      * apply Hkeep. rewrite PyFacts.dict_get_set, Eqk. exact Eq.
    + destruct (h5_create (k2 :: rest) v (H5Group [])) as [child'|e] eqn:E;
        [|discriminate].
      cbn [bind] in H. injection H as <-.
      apply Hkeep. rewrite PyFacts.dict_get_app, Eq. reflexivity.
Qed.

(** *** [_writetoh5] *)

Lemma preserved_refl (fs : disk) : preserved fs fs.
Proof.
  intros name f Hf. exists f. split; [exact Hf|].
  intros p x Hp. exists x. split; [exact Hp|apply same_kind_refl].
Qed.

Lemma preserved_trans (fs1 fs2 fs3 : disk) :
  preserved fs1 fs2 -> preserved fs2 fs3 -> preserved fs1 fs3.
Proof.
  intros H12 H23 name f Hf.
  destruct (H12 name f Hf) as (f2 & Hf2 & K2).
  destruct (H23 name f2 Hf2) as (f3 & Hf3 & K3).
  exists f3. split; [exact Hf3|]. intros p x Hp.
  destruct (K2 p x Hp) as (x2 & Hx2 & S2).
  destruct (K3 p x2 Hx2) as (x3 & Hx3 & S3).
  exists x3. split; [exact Hx3|]. exact (same_kind_trans _ _ _ S2 S3).
Qed.

Lemma preserved_open_append (fs : disk) (filename : string) :
  preserved fs (open_append fs filename).2.
Proof.
  intros name f Hf. unfold open_append. cbv zeta. cbn [snd]. exists f. split.
  - destruct (decide (name = filename)) as [->|Hne].
    + rewrite Hf. cbn [default]. apply lookup_insert_eq.
    + rewrite lookup_insert_ne by congruence. exact Hf.
  - intros p x Hp. exists x. split; [exact Hp|apply same_kind_refl].
Qed.

Lemma preserved_create (fs : disk) (filename : string) (keys : list string)
    (v : pyval) (f f' : h5obj) :
  fs !! filename = Some f ->
  h5_create keys v f = Ok f' ->
  preserved fs (<[filename := f']> fs).
Proof.
  intros Hf Hc name g Hg.
  destruct (decide (name = filename)) as [->|Hne].
  - rewrite Hf in Hg. injection Hg as <-. exists f'.
    split; [apply lookup_insert_eq|].
    intros p x Hp. exact (h5_create_frame keys v f f' p x Hc Hp).
  - exists g. split; [rewrite lookup_insert_ne by congruence; exact Hg|].
    intros p x Hp. exists x. split; [exact Hp|apply same_kind_refl].
Qed.

Lemma writetoh5_step (replies : list string) (filename path : string)
    (data : pyval) (fs : disk) (out : list io_event) :
  _writetoh5 replies filename path data fs out =
  let '(f, fs) := open_append fs filename in
  match h5_lookup (components path) f with
  | Some _ =>
    let out :=
      out ++ [Prompt ("Path " ++ path
                      ++ " has been used already! Type a new path: ")] in
    match replies with
    | [] => mkOutcome (Raise EOFError) fs [] out
    | newpath :: replies => _writetoh5 replies filename newpath data fs out
    end
  | None =>
    match h5_create (components path) data f with
    | Ok f' => mkOutcome (Ok tt) (<[filename := f']> fs) replies out
    | Raise e => mkOutcome (Raise e) fs replies out
    end
  end.
Proof. destruct replies; reflexivity. Qed.

Lemma writetoh5_spec (filename : string) (data : pyval)
    (replies : list string) :
  forall (path : string) (fs : disk) (out : list io_event),
    let o := _writetoh5 replies filename path data fs out in
    preserved fs (files o)
    /\ (res o = Ok tt ->
        exists p f',
          In p (path :: replies)
          /\ h5_lookup (components p) (default (H5Group []) (fs !! filename))
             = None
          /\ files o !! filename = Some f'
          /\ h5_lookup (components p) f' = Some (H5Dataset data)).
Proof.
  induction replies as [|r replies IH]; intros path fs out o; subst o;
    rewrite writetoh5_step; unfold open_append; cbv zeta;
    set (f := default (H5Group []) (fs !! filename));
    pose proof (preserved_open_append fs filename) as Hopen;
    unfold open_append in Hopen; cbv zeta in Hopen; cbn [snd] in Hopen;
    fold f in Hopen;
    (assert (Hf : (<[filename := f]> fs) !! filename = Some f)
       by apply lookup_insert_eq);
    destruct (h5_lookup (components path) f) as [x|] eqn:Hp.
  - cbn [files res]. split; [exact Hopen|discriminate].
  - destruct (h5_create (components path) data f) as [f'|e] eqn:Hc;
      cbn [files res].
    + split.
      * apply (preserved_trans _ _ _ Hopen).
        exact (preserved_create _ _ _ _ _ _ Hf Hc).
      * intros _. exists path, f'. split; [left; reflexivity|].
        split; [exact Hp|]. split; [apply lookup_insert_eq|].
        exact (h5_create_present _ _ _ _ Hc).
    + split; [exact Hopen|discriminate].
  - destruct (IH r (<[filename := f]> fs)
                (out ++ [Prompt ("Path " ++ path
                   ++ " has been used already! Type a new path: ")]))
      as [Hpres Hres].
    split; [exact (preserved_trans _ _ _ Hopen Hpres)|].
    intros Hok. destruct (Hres Hok) as (p & f' & Hin & Hnone & Hf' & Hd).
    exists p, f'. split; [right; exact Hin|].
    rewrite Hf in Hnone. cbn [default] in Hnone.
    repeat split; assumption.
  - destruct (h5_create (components path) data f) as [f'|e] eqn:Hc;
      cbn [files res].
    + split.
      * apply (preserved_trans _ _ _ Hopen).
        exact (preserved_create _ _ _ _ _ _ Hf Hc).
      * intros _. exists path, f'. split; [left; reflexivity|].
        split; [exact Hp|]. split; [apply lookup_insert_eq|].
        exact (h5_create_present _ _ _ _ Hc).
    + split; [exact Hopen|discriminate].
Qed.



(** *** Appending into a slice *)

(** C6 (code at the failing input).  The array at "x" holds [1, 2]; writing
    [9] into [x[0:1]] prompts, and with the reply "no" the original file
    nevertheless ends up with [9, 2]: the branch that was to save the data
    elsewhere assigns into [f[pathtowrite]] once more, and the file
    'antioverwrite_data.h5' only receives zeros. *)
Theorem appenddatah5_overwrites_without_consent :
  let o := _appenddatah5 ["no"%string] "data.h5" (mkArray DFloat [CNum 9]) "x"
             (mkSlice 0 1) disk_measured [] in
  res o = Ok tt
  /\ files o !! "data.h5"%string
     = Some (H5Group [("x"%string,
               H5Dataset (PArray (mkArray DFloat [CNum 9; CNum 2])))])
  /\ files o !! "antioverwrite_data.h5"%string
     = Some (H5Group [("x"%string, H5Dataset (zeros 2))])
  /\ console o
     = [Prompt (overwrite_prompt "x" (mkSlice 0 1)); Print "this"].
Proof.
  vm_compute. repeat split; reflexivity.
Qed.

(** What holds of the claim: a slice that only holds NaN is written without
    a prompt. *)
Lemma appenddatah5_nan_silent (replies : list string) (filename : string)
    (numpyarray dataset : ndarray) (pathtowrite : string) (sl : slice)
    (fs : disk) (out : list io_event) (f : h5obj) :
  fs !! filename = Some f ->
  h5_lookup (components pathtowrite) f = Some (H5Dataset (PArray dataset)) ->
  length (cells numpyarray) = length (slice_of sl (cells dataset)) ->
  forallb isnan (slice_of sl (cells dataset)) = true ->
  let o := _appenddatah5 replies filename numpyarray pathtowrite sl fs out in
  res o = Ok tt /\ console o = out /\ unread o = replies.
Proof.
  intros Hf Hp Hlen Hnan.
  destruct replies as [|r replies]; cbn [_appenddatah5];
    rewrite Hf, Hp, Hlen, Nat.eqb_refl, Hnan; cbn; repeat split.
Qed.

(** The defect in general: whenever the data can be given a place in the
    'antioverwrite_' file, a reply other than OVERWRITE leaves the original
    file with the slice overwritten. *)
Lemma appenddatah5_declined_still_writes (reply : string)
    (replies : list string) (filename : string)
    (numpyarray dataset : ndarray) (pathtowrite : string) (sl : slice)
    (fs : disk) (out : list io_event) (f fao' : h5obj) :
  fs !! filename = Some f ->
  h5_lookup (components pathtowrite) f = Some (H5Dataset (PArray dataset)) ->
  length (cells numpyarray) = length (slice_of sl (cells dataset)) ->
  forallb isnan (slice_of sl (cells dataset)) = false ->
  String.eqb reply "OVERWRITE" = false ->
  h5_create (components pathtowrite) (zeros (length (cells dataset)))
    (default (H5Group []) (fs !! ("antioverwrite_" ++ filename)%string))
  = Ok fao' ->
  files (_appenddatah5 (reply :: replies) filename numpyarray pathtowrite sl
           fs out) !! filename
  = Some (h5_replace (components pathtowrite)
            (H5Dataset (PArray (mkArray (dtype_of dataset)
               (set_slice sl (cells numpyarray) (cells dataset))))) f).
Proof.
  intros Hf Hp Hlen Hnan Hreply Hcreate.
  cbn [_appenddatah5].
  rewrite Hf, Hp, Hlen, Nat.eqb_refl, Hnan, Hreply.
  cbn [negb]. unfold open_append. cbv zeta. rewrite Hcreate.
  cbn [files]. apply lookup_insert_eq.
Qed.

(** *** [sanitize] *)

Section SanitizeFacts.

Variable str_of_array : ndarray -> string.

Local Abbreviation sanitize := (Dataset.sanitize str_of_array).
Local Abbreviation sanitize_items := (Dataset.sanitize_items str_of_array).
Local Abbreviation fixed := (Dataset.fixed str_of_array).

Lemma sanitize_dict (items : list (string * pyval)) (replies : list string)
    (out : list io_event) :
  sanitize (PDict items) replies out = sanitize_items items [] replies out.
Proof. reflexivity. Qed.

Lemma pyval_dict_ind (P : pyval -> Prop) :
  (forall s, P (PStr s)) ->
  (forall x, P (PFloat x)) ->
  (forall n, P (PInt n)) ->
  (forall xs, P (PList xs)) ->
  (forall a, P (PArray a)) ->
  (forall items, List.Forall (fun kv => P (snd kv)) items -> P (PDict items)) ->
  (forall s, P (POther s)) ->
  forall v, P v.
Proof.
  intros Hs Hf Hn Hl Ha Hd Ho. fix IH 1. intros [s|x|n|xs|a|items|s].
  - apply Hs.
  - apply Hf.
  - apply Hn.
  - apply Hl.
  - apply Ha.
  - apply Hd. induction items as [|[k v] items IHitems]; constructor.
    + apply IH.
    + exact IHitems.
  - apply Ho.
Qed.

(** A dict with distinct keys and fixed values is rebuilt as it is. *)
Lemma sanitize_items_fixed (l : list (string * pyval)) :
  forall (acc : dict pyval) (replies : list string) (out : list io_event),
    List.Forall (fun kv => fixed (snd kv)) l ->
    List.NoDup (keys l) ->
    (forall k, In k (keys l) -> dict_get k acc = None) ->
    sanitize_items l acc replies out = (Ok (PDict (acc ++ l)), replies, out).
Proof.
  induction l as [|[k v] l IH]; intros acc replies out Hfix Hnd Hacc;
    cbn [Dataset.sanitize_items].
  - rewrite app_nil_r. reflexivity.
  - inversion Hfix as [|? ? Hv Hl]; subst.
    inversion Hnd as [|? ? Hk Hnd']; subst.
    cbn [snd] in Hv. rewrite (Hv replies out).
    rewrite (PyFacts.dict_set_fresh k v acc (Hacc k (or_introl eq_refl))).
    rewrite IH; [rewrite <- app_assoc; reflexivity|exact Hl|exact Hnd'|].
    intros k' Hk'. rewrite PyFacts.dict_get_app.
    rewrite (Hacc k' (or_intror Hk')). cbn [dict_get].
    destruct (String.eqb k' k) eqn:E; [|reflexivity].
    apply String.eqb_eq in E. subst k'. contradiction.
Qed.

Lemma fixed_dict (clean : dict pyval) :
  List.NoDup (keys clean) ->
  List.Forall (fun kv => fixed (snd kv)) clean ->
  fixed (PDict clean).
Proof.
  intros Hnd Hfix replies out. rewrite sanitize_dict.
  rewrite (sanitize_items_fixed clean [] replies out Hfix Hnd);
    [reflexivity|]. reflexivity.
Qed.

Lemma sanitize_items_result (items : list (string * pyval)) :
  List.Forall (fun kv => forall replies out v replies' out',
                 sanitize (snd kv) replies out = (Ok v, replies', out') ->
                 fixed v) items ->
  forall (clean : dict pyval) (replies : list string) (out : list io_event)
         v replies' out',
    List.NoDup (keys clean) ->
    List.Forall (fun kv => fixed (snd kv)) clean ->
    sanitize_items items clean replies out = (Ok v, replies', out') ->
    fixed v.
Proof.
  induction 1 as [|[k x] items Hx Hitems IH];
    intros clean replies out v replies' out' Hnd Hfix H;
    cbn [Dataset.sanitize_items] in H.
  - injection H as <- <- <-. apply fixed_dict; assumption.
  - cbn [snd] in Hx.
    destruct (sanitize x replies out) as [[[x'|e] rs1] out1] eqn:Ex;
      [|discriminate].
    apply (IH _ _ _ _ _ _ (PyFacts.NoDup_keys_dict_set k x' clean Hnd)
             (PyFacts.Forall_dict_set _ k x' clean (Hx _ _ _ _ _ Ex) Hfix) H).
Qed.

Lemma sanitize_result_fixed (data : pyval) :
  forall (replies : list string) (out : list io_event) v replies' out',
    sanitize data replies out = (Ok v, replies', out') -> fixed v.
Proof.
  induction data as [s|x|n|xs|a|items IH|s] using pyval_dict_ind;
    intros replies out v replies' out' H.
  - injection H as <- <- <-. intros r o. reflexivity.
  - injection H as <- <- <-. intros r o. reflexivity.
  - injection H as <- <- <-. intros r o. reflexivity.
  - injection H as <- <- <-. intros r o. reflexivity.
  - cbn [Dataset.sanitize] in H.
    destruct (allowed_dtype (dtype_of a)) eqn:Ea.
    + injection H as <- <- <-. intros r o. cbn [Dataset.sanitize].
      rewrite Ea. reflexivity.
    + destruct (as_floats (cells a)) as [cs|e].
      * injection H as <- <- <-. intros r o. reflexivity.
      * destruct e; try discriminate.
        injection H as <- <- <-. intros r o. reflexivity.
  - rewrite sanitize_dict in H.
    apply (sanitize_items_result items IH [] replies out v replies' out');
      [constructor|constructor|exact H].
  - cbn [Dataset.sanitize] in H. destruct s as [s|].
    + injection H as <- <- <-. intros r o. reflexivity.
    + destruct replies as [|reply replies]; [discriminate|].
      destruct (negb (String.eqb reply "y")); [discriminate|].
      injection H as <- <- <-. intros r o. reflexivity.
Qed.

End SanitizeFacts.




End DatasetFacts.

(** * Further properties *)

(** ** The tuning loop: state, accounting, negative budgets *)

Module ArrayTuneExtra.
Import ArrayTune.

Section Loop.

Variable saa_mean : nat -> Q.
Variable self : t.

Local Abbreviation locked_state := (ArrayTune.locked_state saa_mean self).
Local Abbreviation tuned_state := (ArrayTune.tuned_state saa_mean self).
Local Abbreviation squid_ok := (ArrayTune.squid_ok saa_mean self).
Local Abbreviation aflux_ok := (ArrayTune.aflux_ok saa_mean self).

(** What [adjust] leaves alone. *)
Lemma adjust_frame (a : attr) (e : Q) (st : state) :
  let st' := adjust self a e st in
  clock st' = clock st
  /\ sa_S_flux_lim (squid st') = sa_S_flux_lim (squid st)
  /\ sa_S_bias (squid st') = sa_S_bias (squid st)
  /\ sa_testInput (squid st') = sa_testInput (squid st)
  /\ sa_testSignal (squid st') = sa_testSignal (squid st)
  /\ sa_sensitivity (squid st') = sa_sensitivity (squid st)
  /\ sa_locked (squid st') = sa_locked (squid st)
  /\ forall b, b <> a -> getattr (squid st') b = getattr (squid st) b.
Proof.
  unfold adjust.
  destruct (Qltb _ 0); [|destruct (Qgtb _ 150)];
    destruct a; cbn; repeat split; intros [] Hb;
    first [reflexivity | exfalso; apply Hb; reflexivity].
Qed.

Lemma lock_squid_unfold (depth : nat) (n : Z) (st : state) :
  lock_squid saa_mean self (S depth) n st =
  let error := (saa_mean (clock st) - sflux_offset self)%Q in
  if Qltb (Qabs error) (squid_tol self) then
    Some (true, emit (EPrintLocked (5 - n)) (locked_state st))
  else if n =? 0 then
    Some (false, emit (EPrint "could not tune SQUID flux.") (locked_state st))
  else lock_squid saa_mean self depth (n - 1)
         (adjust self S_flux error (locked_state st)).
Proof. reflexivity. Qed.

Lemma tune_squid_unfold (depth : nat) (n : Z) (st : state) :
  tune_squid saa_mean self (S depth) n st =
  let error := (saa_mean (clock st) - aflux_offset self)%Q in
  if Qltb (Qabs error) (aflux_tol self) then
    lock_squid saa_mean self depth 5 (tuned_state st)
  else if n =? 0 then
    Some (false, emit (EPrint "could not tune array flux.") (tuned_state st))
  else tune_squid saa_mean self depth (n - 1)
         (adjust self A_flux error (tuned_state st)).
Proof. reflexivity. Qed.

(** The settings [lock_squid] leaves behind, whatever it answers. *)
Lemma lock_squid_settings (depth : nat) :
  forall (n : Z) (st : state) (b : bool) (st' : state),
    lock_squid saa_mean self depth n st = Some (b, st') ->
    sa_locked (squid st') = Squid
    /\ sa_testSignal (squid st') = Off
    /\ sa_S_bias (squid st') = sa_S_bias (squid st)
    /\ sa_S_flux_lim (squid st') = sa_S_flux_lim (squid st)
    /\ sa_sensitivity (squid st') = sa_sensitivity (squid st)
    /\ sa_testInput (squid st') = sa_testInput (squid st)
    /\ sa_A_flux (squid st') = sa_A_flux (squid st).
Proof.
  induction depth as [|depth IH]; intros n st b st' H; [discriminate|].
  rewrite lock_squid_unfold in H. cbv zeta in H.
  destruct (Qltb _ (squid_tol self)).
  { injection H as <- <-. cbn. repeat split. }
  destruct (n =? 0).
  { injection H as <- <-. cbn. repeat split. }
  apply IH in H.
  destruct (adjust_frame S_flux
              (saa_mean (clock st) - sflux_offset self)%Q (locked_state st))
    as (_ & F1 & F2 & F3 & F4 & F5 & F6 & F7).
  specialize (F7 A_flux ltac:(discriminate)). cbn [getattr] in F7.
  destruct H as (H1 & H2 & H3 & H4 & H5 & H6 & H7).
  rewrite H1, H2, H3, H4, H5, H6, H7, F1, F2, F3, F5, F7.
  cbn. repeat split.
Qed.

Lemma tune_squid_settings (depth : nat) :
  forall (n : Z) (st st' : state),
    tune_squid saa_mean self depth n st = Some (true, st') ->
    sa_locked (squid st') = Squid
    /\ sa_testSignal (squid st') = Off
    /\ sa_S_bias (squid st') = squid_bias self
    /\ sa_S_flux_lim (squid st') = 150%Q
    /\ sa_sensitivity (squid st') = "High"%string
    /\ sa_testInput (squid st') = "S_flux"%string.
Proof.
  induction depth as [|depth IH]; intros n st st' H; [discriminate|].
  rewrite tune_squid_unfold in H. cbv zeta in H.
  destruct (Qltb _ (aflux_tol self)).
  { apply lock_squid_settings in H.
    destruct H as (H1 & H2 & H3 & H4 & H5 & H6 & _).
    rewrite H1, H2, H3, H4, H5, H6. cbn. repeat split. }
  destruct (n =? 0); [discriminate|].
  exact (IH _ _ _ H).
Qed.

Lemma lock_squid_negative (depth : nat) :
  forall (n : Z) (st : state),
    n < 0 ->
    (forall b st', lock_squid saa_mean self depth n st = Some (b, st') ->
                   b = true)
    /\ ((forall k, ~ squid_ok k) ->
        lock_squid saa_mean self depth n st = None).
Proof.
  induction depth as [|depth IH]; intros n st Hn.
  { split; [discriminate|reflexivity]. }
  rewrite lock_squid_unfold. cbv zeta.
  replace (n =? 0) with false by (symmetry; apply Z.eqb_neq; lia).
  destruct (IH (n - 1)
              (adjust self S_flux (saa_mean (clock st) - sflux_offset self)%Q
                 (locked_state st)) ltac:(lia)) as [IH1 IH2].
  destruct (Qltb _ (squid_tol self)) eqn:E; split.
  - intros b st' H. injection H as <- _. reflexivity.
  - intros Hnever. apply Qltb_lt in E. exfalso. exact (Hnever _ E).
  - exact IH1.
  - exact IH2.
Qed.

Lemma tune_squid_negative (depth : nat) :
  forall (n : Z) (st : state),
    n < 0 -> (forall k, ~ aflux_ok k) ->
    tune_squid saa_mean self depth n st = None.
Proof.
  induction depth as [|depth IH]; intros n st Hn Hnever; [reflexivity|].
  rewrite tune_squid_unfold. cbv zeta.
  replace (n =? 0) with false by (symmetry; apply Z.eqb_neq; lia).
  destruct (Qltb _ (aflux_tol self)) eqn:E.
  - apply Qltb_lt in E. exfalso. exact (Hnever _ E).
  - apply IH; [lia|exact Hnever].
Qed.

(** One reading per call, one correction per reading that fails. *)
Lemma lock_squid_accounting (m : nat) :
  forall (depth : nat) (st : state),
    (m < depth)%nat ->
    exists b st' j,
      lock_squid saa_mean self depth (Z.of_nat m) st = Some (b, st')
      /\ (j <= m)%nat
      /\ adjust_calls (log st') = (adjust_calls (log st) + j)%nat
      /\ clock st' = (clock st + j + 1)%nat
      /\ (forall i, (i < j)%nat -> ~ squid_ok (clock st + i))
      /\ (b = true -> squid_ok (clock st + j))
      /\ (b = false -> j = m /\ ~ squid_ok (clock st + j)).
Proof.
  induction m as [|m IH]; intros depth st Hd;
    (destruct depth as [|depth]; [lia|]);
    rewrite lock_squid_unfold; cbv zeta;
    destruct (ArrayTuneFacts.locked_state_log saa_mean self st) as [Hl _];
    destruct (Qltb _ (squid_tol self)) eqn:E.
  1, 3:
    eexists true, _, 0%nat; (split; [reflexivity|]);
    rewrite ArrayTuneFacts.emit_log, ArrayTuneFacts.adjust_calls_snoc, Hl;
    cbn [is_adjust Nat.b2n emit clock];
    rewrite (ArrayTuneFacts.locked_state_clock saa_mean self st);
    rewrite !Nat.add_0_r;
    (split; [lia|]); (split; [reflexivity|]); (split; [lia|]);
    (split; [intros i Hi; lia|]);
    (split; [intros _; apply Qltb_lt, E|discriminate]).
  - eexists false, _, 0%nat. split; [reflexivity|].
    rewrite ArrayTuneFacts.emit_log, ArrayTuneFacts.adjust_calls_snoc, Hl.
    cbn [is_adjust Nat.b2n emit clock].
    rewrite (ArrayTuneFacts.locked_state_clock saa_mean self st).
    rewrite !Nat.add_0_r.
    split; [lia|]. split; [reflexivity|]. split; [lia|].
    split; [intros i Hi; lia|]. split; [discriminate|].
    intros _. split; [reflexivity|].
    exact (ArrayTuneFacts.Qltb_false_not _ _ E).
  - replace (Z.of_nat (S m) =? 0) with false by (symmetry; apply Z.eqb_neq; lia).
    replace (Z.of_nat (S m) - 1) with (Z.of_nat m) by lia.
    set (st1 := adjust self S_flux _ (locked_state st)).
    destruct (IH depth st1 ltac:(lia))
      as (b & st' & j & Eq & Hj & Hadj & Hclk & Hbefore & Ht & Hf).
    assert (Hc : clock st1 = S (clock st)).
    { unfold st1. rewrite ArrayTuneFacts.adjust_clock.
      apply ArrayTuneFacts.locked_state_clock. }
    destruct (ArrayTuneFacts.adjust_counts self S_flux
                (saa_mean (clock st) - sflux_offset self)%Q (locked_state st))
      as (A1 & _). fold st1 in A1.
    rewrite Hc in *. rewrite A1, Hl in Hadj.
    exists b, st', (S j). split; [exact Eq|].
    split; [lia|]. split; [lia|]. split; [lia|].
    split; [|split].
    + intros i Hi. destruct i as [|i].
      * rewrite Nat.add_0_r. exact (ArrayTuneFacts.Qltb_false_not _ _ E).
      * replace (clock st + S i)%nat with (S (clock st) + i)%nat by lia.
        apply Hbefore. lia.
    + intros Hb.
      replace (clock st + S j)%nat with (S (clock st) + j)%nat by lia.
      exact (Ht Hb).
    + intros Hb. destruct (Hf Hb) as [-> Hno]. split; [reflexivity|].
      replace (clock st + S m)%nat with (S (clock st) + m)%nat by lia.
      exact Hno.
Qed.

End Loop.

(** X2.  With a negative number of attempts the counter never reaches 0:
    [lock_squid] may answer [True] but never [False], and when no reading
    ever comes within tolerance neither [lock_squid] nor [tune_squid]
    returns, whatever recursion depth is available. *)
Theorem negative_attempts_never_give_up (saa_mean : nat -> Q) (self : t)
    (n : Z) (depth : nat) (st : state) :
  n < 0 ->
  (forall b st', lock_squid saa_mean self depth n st = Some (b, st') ->
                 b = true)
  /\ ((forall k, ~ squid_ok saa_mean self k) ->
      lock_squid saa_mean self depth n st = None)
  /\ ((forall k, ~ aflux_ok saa_mean self k) ->
      tune_squid saa_mean self depth n st = None).
Proof.
  intros Hn.
  destruct (lock_squid_negative saa_mean self depth n st Hn) as [H1 H2].
  split; [exact H1|]. split; [exact H2|].
  exact (tune_squid_negative saa_mean self depth n st Hn).
Qed.

Lemma negative_attempts_never_give_up_witness :
  lock_squid always_off (init 0 None None None None) 40 (- 1) st0 = None
  /\ tune_squid always_off (init 0 None None None None) 40 (- 1) st0 = None.
Proof.
  split.
  - apply (negative_attempts_never_give_up always_off
             (init 0 None None None None) (- 1) 40 st0); [lia|].
    intros k. vm_compute. discriminate.
  - apply (negative_attempts_never_give_up always_off
             (init 0 None None None None) (- 1) 40 st0); [lia|].
    intros k. vm_compute. discriminate.
Defined.

(** X3.  [lock_squid] with [n >= 0] attempts takes one reading per call and
    makes one correction per reading outside tolerance: it returns after [j]
    corrections and [j + 1] readings, where the first [j] readings were
    outside [squid_tol]; it answers [True] when reading number [j] is within
    tolerance, and [False] only after exactly [n] corrections. *)
Theorem lock_squid_counts_readings (saa_mean : nat -> Q) (self : t) (n : Z)
    (depth : nat) (st : state) :
  0 <= n -> (Z.to_nat n < depth)%nat ->
  exists b st' j,
    lock_squid saa_mean self depth n st = Some (b, st')
    /\ (j <= Z.to_nat n)%nat
    /\ adjust_calls (log st') = (adjust_calls (log st) + j)%nat
    /\ clock st' = (clock st + j + 1)%nat
    /\ (forall i, (i < j)%nat -> ~ squid_ok saa_mean self (clock st + i))
    /\ (b = true -> squid_ok saa_mean self (clock st + j))
    /\ (b = false ->
        j = Z.to_nat n /\ ~ squid_ok saa_mean self (clock st + j)).
Proof.
  intros Hn Hd.
  destruct (lock_squid_accounting saa_mean self (Z.to_nat n) depth st Hd)
    as (b & st' & j & E & H).
  rewrite Z2Nat.id in E by exact Hn. exists b, st', j. split; assumption.
Qed.

Lemma lock_squid_counts_readings_witness :
  exists b st' j,
    lock_squid slow_settle (init 0 None None None None) 7 5 st0 = Some (b, st')
    /\ (j <= Z.to_nat 5)%nat
    /\ adjust_calls (log st') = (adjust_calls (log st0) + j)%nat
    /\ clock st' = (clock st0 + j + 1)%nat
    /\ (forall i, (i < j)%nat ->
          ~ squid_ok slow_settle (init 0 None None None None) (clock st0 + i))
    /\ (b = true ->
        squid_ok slow_settle (init 0 None None None None) (clock st0 + j))
    /\ (b = false ->
        j = Z.to_nat 5
        /\ ~ squid_ok slow_settle (init 0 None None None None) (clock st0 + j)).
Proof.
  apply (lock_squid_counts_readings slow_settle (init 0 None None None None)
           5 7 st0); [lia | simpl; lia].
Defined.

(** X4.  Whenever [tune_squid] answers [True] the array is left locked on
    the SQUID with the test signal off, at the bias given to [__init__], with
    the flux limit 150, high sensitivity and "S_flux" as test input. *)
Theorem tune_squid_success_settings (saa_mean : nat -> Q) (self : t)
    (depth : nat) (n : Z) (st st' : state) :
  tune_squid saa_mean self depth n st = Some (true, st') ->
  sa_locked (squid st') = Squid
  /\ sa_testSignal (squid st') = Off
  /\ sa_S_bias (squid st') = squid_bias self
  /\ sa_S_flux_lim (squid st') = 150%Q
  /\ sa_sensitivity (squid st') = "High"%string
  /\ sa_testInput (squid st') = "S_flux"%string.
Proof. apply tune_squid_settings. Qed.

Lemma tune_squid_success_settings_witness :
  exists st',
    tune_squid settles (init 7 None None None None) 12 5 st0 = Some (true, st')
    /\ (sa_locked (squid st') = Squid
        /\ sa_testSignal (squid st') = Off
        /\ sa_S_bias (squid st') = squid_bias (init 7 None None None None)
        /\ sa_S_flux_lim (squid st') = 150%Q
        /\ sa_sensitivity (squid st') = "High"%string
        /\ sa_testInput (squid st') = "S_flux"%string).
Proof.
  eexists. split; [vm_compute; reflexivity|].
  apply (tune_squid_success_settings settles (init 7 None None None None)
           12 5 st0).
  vm_compute. reflexivity.
Defined.

(** X1.  For a flux and an error that are numbers (floats idealised as
    rationals, so no NaN), [adjust] never drives a flux that is not negative
    below zero: the new value is in [0, 150], or is the old value plus 50
    (the forced jump); the other flux attribute keeps its value. *)
Theorem adjust_keeps_flux_nonnegative (self : t) (a : attr) (e : Q)
    (st : state) :
  (0 <= getattr (squid st) a)%Q ->
  let r := getattr (squid (adjust self a e st)) a in
  (0 <= r)%Q
  /\ ((r <= 150)%Q \/ r = (getattr (squid st) a + 50)%Q)
  /\ forall b, b <> a ->
       getattr (squid (adjust self a e st)) b = getattr (squid st) b.
Proof.
  intros Hv r.
  assert (Hget : forall sa x, getattr (setattr sa a x) a = x)
    by (intros sa x; destruct a; reflexivity).
  split; [|split].
  - subst r. unfold adjust.
    destruct (Qltb (getattr (squid st) a + e * conversion self) 0) eqn:E1.
    + cbn. rewrite Hget.
      apply Qle_trans with (getattr (squid st) a + 0)%Q.
      * rewrite Qplus_0_r. exact Hv.
      * apply Qplus_le_r. discriminate.
    + destruct (Qgtb (getattr (squid st) a + e * conversion self) 150) eqn:E2;
        cbn; rewrite Hget.
      * discriminate.
      * apply Qltb_ge in E1.
        assert (Hc : (getattr (squid st) a + conversion self * e
                      == getattr (squid st) a + e * conversion self)%Q) by ring.
        rewrite Hc. exact E1.
  - subst r. unfold adjust.
    destruct (Qltb (getattr (squid st) a + e * conversion self) 0) eqn:E1.
    + right. cbn. apply Hget.
    + left.
      destruct (Qgtb (getattr (squid st) a + e * conversion self) 150) eqn:E2;
        cbn; rewrite Hget.
      * discriminate.
      * unfold Qgtb in E2. apply Qltb_ge in E2.
        assert (Hc : (getattr (squid st) a + conversion self * e
                      == getattr (squid st) a + e * conversion self)%Q) by ring.
        rewrite Hc. exact E2.
  - apply (adjust_frame self a e st).
Qed.

Lemma adjust_keeps_flux_nonnegative_witness :
  (0 <= getattr (squid (adjust (init 0 None None None None) S_flux (- (3)) st0))
          S_flux)%Q.
Proof.
  apply (adjust_keeps_flux_nonnegative (init 0 None None None None) S_flux
           (- (3)) st0).
  vm_compute. discriminate.
Defined.

End ArrayTuneExtra.

(** ** The DAQ driver: ramps stay in range *)

Module NIDAQExtra.
Import Py NIDAQ.

Lemma between_refl_l (a b : Q) : between a b a.
Proof.
  destruct (Qlt_le_dec b a) as [H|H].
  - right. split; [apply Qlt_le_weak, H|apply Qle_refl].
  - left. split; [apply Qle_refl|exact H].
Qed.

Lemma between_refl_r (a b : Q) : between a b b.
Proof.
  destruct (Qlt_le_dec b a) as [H|H].
  - right. split; [apply Qle_refl|apply Qlt_le_weak, H].
  - left. split; [exact H|apply Qle_refl].
Qed.

Lemma In_removelast (x : Q) (l : list Q) : In x (removelast l) -> In x l.
Proof.
  induction l as [|a l IH]; [intros []|].
  destruct l as [|b l]; [intros []|].
  change (removelast (a :: b :: l)) with (a :: removelast (b :: l)).
  intros [<-|H]; [left; reflexivity|right; exact (IH H)].
Qed.

(** A fraction [i/d] of the way from [start] to [start + delta]. *)
Lemma fraction_between (start delta : Q) (i d : Z) :
  0 <= i <= d -> 0 < d ->
  between start (start + delta)
    (inject_Z i * (delta / inject_Z d) + start).
Proof.
  intros Hi Hd.
  assert (Hd' : (0 < inject_Z d)%Q)
    by (change 0%Q with (inject_Z 0); rewrite <- Zlt_Qlt; exact Hd).
  assert (Hi0 : (0 <= inject_Z i)%Q)
    by (change 0%Q with (inject_Z 0); rewrite <- Zle_Qle; lia).
  assert (Hid : (inject_Z i <= inject_Z d)%Q) by (rewrite <- Zle_Qle; lia).
  set (t := (inject_Z i / inject_Z d)%Q).
  assert (Ht0 : (0 <= t)%Q).
  { unfold t. apply Qle_shift_div_l; [exact Hd'|]. rewrite Qmult_0_l.
    exact Hi0. }
  assert (Ht1 : (t <= 1)%Q).
  { unfold t. apply Qle_shift_div_r; [exact Hd'|]. rewrite Qmult_1_l.
    exact Hid. }
  assert (Heq : (inject_Z i * (delta / inject_Z d) + start
                 == start + t * delta)%Q).
  { unfold t. field. intros H. rewrite H in Hd'. exact (Qlt_irrefl _ Hd'). }
  unfold between. rewrite Heq.
  destruct (Qlt_le_dec delta 0) as [Hneg|Hpos].
  - right. split; nra.
  - left. split; nra.
Qed.

Lemma linspace_between (start stop : Q) (num : Z) (y : list Q) :
  linspace start stop num = Ok y -> List.Forall (between start stop) y.
Proof.
  unfold linspace. destruct (num <? 0) eqn:Eneg; [discriminate|].
  apply Z.ltb_ge in Eneg. intros H. injection H as <-.
  assert (Hstop : forall x, between start (start + (stop - start)) x ->
                            between start stop x).
  { intros x [[H1 H2]|[H1 H2]]; [left|right]; split; lra. }
  assert (Hmap : forall x,
    In x (map (fun i : nat =>
                 if 0 <? num - 1
                 then (inject_Z (Z.of_nat i)
                       * ((stop - start) / inject_Z (num - 1)) + start)%Q
                 else (inject_Z (Z.of_nat i) * (stop - start) + start)%Q)
              (seq 0 (Z.to_nat num))) ->
    between start stop x).
  { intros x Hx. apply in_map_iff in Hx. destruct Hx as (i & <- & Hi).
    apply in_seq in Hi. destruct (0 <? num - 1) eqn:Ediv.
    - apply Z.ltb_lt in Ediv. apply Hstop, fraction_between; lia.
    - apply Z.ltb_ge in Ediv. assert (i = 0%nat) as -> by lia.
      change (inject_Z (Z.of_nat 0)) with 0%Q.
      destruct (Qlt_le_dec stop start) as [Hlt|Hle]; [right|left];
        split; lra. }
  apply List.Forall_forall. intros x Hx.
  destruct (1 <? num).
  - apply in_app_or in Hx. destruct Hx as [Hx|[<-|[]]].
    + apply Hmap, In_removelast, Hx.
    + apply between_refl_r.
  - apply Hmap, Hx.
Qed.

(** [np.linspace(start, stop, num)] refuses a negative [num] with a
    ValueError; otherwise it returns exactly [num] samples, all of them
    between [start] and [stop]; the first equals [start] as soon as there is
    one, and the last is [stop] itself as soon as there are two. *)
Theorem linspace_samples (start stop : Q) (num : Z) :
  (num < 0 -> linspace start stop num = Raise ValueError)
  /\ (0 <= num ->
      exists y, linspace start stop num = Ok y
        /\ length y = Z.to_nat num
        /\ List.Forall (between start stop) y
        /\ (1 <= num -> (List.hd 0 y == start)%Q)
        /\ (2 <= num -> last_elt y = stop)).
Proof.
  split.
  - intros Hneg. unfold linspace.
    replace (num <? 0) with true by (symmetry; apply Z.ltb_lt; exact Hneg).
    reflexivity.
  - intros Hn.
    destruct (NIDAQFacts.linspace_length start stop num Hn) as (y & Hy & Hlen).
    exists y. split; [exact Hy|]. split; [exact Hlen|].
    split; [exact (linspace_between _ _ _ _ Hy)|]. split.
    + intros H1. destruct (Z.eq_dec num 1) as [->|Hne].
      * unfold linspace in Hy. cbn in Hy. injection Hy as <-. cbn [List.hd].
        ring.
      * destruct (NIDAQFacts.linspace_ends start stop num ltac:(lia))
          as (mid & Hm & _).
        rewrite Hm in Hy. injection Hy as <-. cbn [List.hd].
        change (inject_Z 0) with 0%Q. ring.
    + intros H2.
      destruct (NIDAQFacts.linspace_ends start stop num H2) as (mid & Hm & _).
      rewrite Hm in Hy. injection Hy as <-. unfold last_elt.
      rewrite app_comm_cons. apply List.last_last.
Qed.

Lemma linspace_samples_witness :
  linspace 0 1 (- 3) = Raise ValueError
  /\ exists y, linspace (- (10)) 10 1000 = Ok y
       /\ length y = Z.to_nat 1000
       /\ List.Forall (between (- (10)) 10) y
       /\ (1 <= 1000 -> (List.hd 0 y == - (10))%Q)
       /\ (2 <= 1000 -> last_elt y = 10%Q).
Proof.
  split.
  - apply (linspace_samples 0 1 (- 3)). lia.
  - apply (linspace_samples (- (10)) 10 1000). lia.
Defined.

Lemma Qmult_le_l_weak (x y z : Q) :
  (0 <= z)%Q -> (x <= y)%Q -> (z * x <= z * y)%Q.
Proof.
  intros Hz Hxy. rewrite (Qmult_comm z x), (Qmult_comm z y).
  apply Qmult_le_compat_r; assumption.
Qed.

(** A square of a fraction of the half-width, as both halves of the ramp
    use it. *)
Lemma squared_fraction (a h x : Q) :
  ~ (h == 0)%Q -> between a (h + a) x ->
  (0 <= (x - a) ^ 2 / h ^ 2)%Q /\ ((x - a) ^ 2 / h ^ 2 <= 1)%Q.
Proof.
  intros Hh Hx.
  change (h ^ 2)%Q with (h * h)%Q.
  change ((x - a) ^ 2)%Q with ((x - a) * (x - a))%Q.
  assert (Hh2 : (0 < h * h)%Q).
  { destruct (Qlt_le_dec h 0) as [H|H].
    - assert (Eh : (h * h == (- h) * (- h))%Q) by ring. rewrite Eh.
      apply Qmult_lt_0_compat; lra.
    - destruct (Qlt_le_dec 0 h) as [H'|H'].
      + apply Qmult_lt_0_compat; assumption.
      + exfalso. apply Hh. lra. }
  split.
  - apply Qle_shift_div_l; [exact Hh2|]. rewrite Qmult_0_l.
    destruct (Qlt_le_dec (x - a) 0) as [H|H].
    + assert (Eu : ((x - a) * (x - a) == (- (x - a)) * (- (x - a)))%Q) by ring.
      rewrite Eu. apply Qmult_le_0_compat; lra.
    + apply Qmult_le_0_compat; assumption.
  - apply Qle_shift_div_r; [exact Hh2|]. rewrite Qmult_1_l.
    destruct Hx as [[H1 H2]|[H1 H2]].
    + assert (U0 : (0 <= x - a)%Q) by lra.
      assert (U1 : (x - a <= h)%Q) by lra.
      apply Qle_trans with ((x - a) * h)%Q.
      * apply Qmult_le_l_weak; assumption.
      * apply Qmult_le_compat_r; lra.
    + assert (U0 : (0 <= - (x - a))%Q) by lra.
      assert (U1 : (- (x - a) <= - h)%Q) by lra.
      assert (Eu : ((x - a) * (x - a) == (- (x - a)) * (- (x - a)))%Q) by ring.
      assert (Eh : (h * h == (- h) * (- h))%Q) by ring.
      rewrite Eu, Eh.
      apply Qle_trans with ((- (x - a)) * (- h))%Q.
      * apply Qmult_le_l_weak; assumption.
      * apply Qmult_le_compat_r; lra.
Qed.

Lemma accel_function_between (start end_ : Q) (numpts : Z) (l : list Q) :
  accel_function start end_ numpts = Ok l ->
  List.Forall (between start end_) l.
Proof.
  unfold accel_function. destruct (Qeq_bool start end_) eqn:E.
  { intros H. injection H as <-. apply List.Forall_forall. intros x Hx.
    apply in_app_or in Hx.
    assert (x = start) as -> by (destruct Hx as [Hx|Hx];
                                 exact (repeat_spec _ _ _ Hx)).
    apply between_refl_l. }
  set (h := ((end_ - start) / 2)%Q).
  assert (Hh : (end_ - start == 2 * h)%Q) by (unfold h; field).
  assert (Hne : ~ (h == 0)%Q).
  { intros H. apply Qeq_bool_neq in E. apply E. lra. }
  destruct (linspace start (h + start) numpts) as [p1|e1] eqn:E1;
    [|discriminate].
  destruct (linspace (h + start) end_ numpts) as [p2|e2] eqn:E2;
    [|discriminate].
  cbn [bind]. intros H. injection H as <-.
  pose proof (linspace_between _ _ _ _ E1) as B1.
  pose proof (linspace_between _ _ _ _ E2) as B2.
  rewrite List.Forall_forall in B1, B2.
  apply List.Forall_forall. intros y Hy. apply in_app_or in Hy.
  destruct Hy as [Hy|Hy].
  - apply in_map_iff in Hy. destruct Hy as (x & <- & Hx).
    destruct (squared_fraction start h x Hne (B1 x Hx)) as [S0 S1].
    set (s := ((x - start) ^ 2 / h ^ 2)%Q) in *.
    assert (Hv : (start + s * (end_ - start) / 2 == start + s * h)%Q)
      by (unfold h; field).
    change (between start end_ (start + s * (end_ - start) / 2)).
    unfold between. rewrite Hv.
    destruct (Qlt_le_dec h 0) as [Hlt|Hle]; [right|left]; split; nra.
  - assert (Hy' : In y (map (fun x => end_
             - (x - end_) ^ 2 / h ^ 2 * (end_ - start) / 2)%Q p2)).
    { destruct p2 as [|b p2]; [destruct Hy|]. right. exact Hy. }
    apply in_map_iff in Hy'. destruct Hy' as (x & <- & Hx).
    assert (Bx : between end_ (- h + end_) x).
    { destruct (B2 x Hx) as [[H1 H2]|[H1 H2]]; [right|left]; split; lra. }
    assert (Hne' : ~ (- h == 0)%Q) by (intros H; apply Hne; lra).
    destruct (squared_fraction end_ (- h) x Hne' Bx) as [S0 S1].
    assert (Hsq : ((x - end_) ^ 2 / (- h) ^ 2 == (x - end_) ^ 2 / h ^ 2)%Q).
    { field. exact Hne. }
    rewrite Hsq in S0, S1.
    set (s := ((x - end_) ^ 2 / h ^ 2)%Q) in *.
    assert (Hv : (end_ - s * (end_ - start) / 2 == end_ - s * h)%Q)
      by (unfold h; field).
    change (between start end_ (end_ - s * (end_ - start) / 2)).
    unfold between. rewrite Hv.
    destruct (Qlt_le_dec h 0) as [Hlt|Hle]; [right|left]; split; nra.
Qed.

(** X5.  The ramp of [accel_function] never overshoots: every sample lies
    between [start] and [end]. *)
Theorem accel_function_no_overshoot (start end_ : Q) (numpts : Z)
    (l : list Q) :
  accel_function start end_ numpts = Ok l ->
  List.Forall (between start end_) l.
Proof. exact (accel_function_between start end_ numpts l). Qed.

Lemma accel_function_no_overshoot_witness :
  exists l, accel_function 0 5 4 = Ok l /\ List.Forall (between 0 5) l.
Proof.
  eexists. split; [vm_compute; reflexivity|].
  apply (accel_function_no_overshoot 0 5 4). vm_compute. reflexivity.
Defined.

(** *** What reaches the card *)

Section Samples.

Variable task_run : dict (list Q) -> nat -> Q -> dict (list Q).
Variable P : Q -> Prop.

Lemma last_elt_ok (x0 : Q) (xs : list Q) :
  List.Forall P (x0 :: xs) -> P (last_elt (x0 :: xs)).
Proof.
  unfold last_elt. revert x0. induction xs as [|x xs IH]; intros x0 H.
  - inversion H; assumption.
  - inversion H; subst. exact (IH x ltac:(assumption)).
Qed.

Lemma send_loop_ok (chs : list string) :
  forall (data : loc) (wd : dict (list Q)) (st : daq) r st',
    dict_ok P (heap st) data ->
    List.Forall (fun kv => List.Forall P (snd kv)) wd ->
    send_loop chs data wd st = (r, st') ->
    exists new,
      hw st' = hw st ++ new
      /\ List.Forall (ev_ok P) new
      /\ (forall wd', r = Ok wd' ->
            List.Forall (fun kv => List.Forall P (snd kv)) wd').
Proof.
  induction chs as [|ch chs IH]; intros data wd st r st' Hd Hwd H;
    cbn [send_loop] in H.
  { injection H as <- <-. exists []. rewrite app_nil_r.
    split; [reflexivity|]. split; [constructor|].
    intros wd' Heq. injection Heq as <-. exact Hwd. }
  assert (Hstop : forall e, (r, st') = (Raise e, st) ->
    exists new, hw st' = hw st ++ new /\ List.Forall (ev_ok P) new
      /\ (forall wd', r = Ok wd' ->
            List.Forall (fun kv => List.Forall P (snd kv)) wd')).
  { intros e Heq. injection Heq as -> ->. exists []. rewrite app_nil_r.
    split; [reflexivity|]. split; [constructor|]. discriminate. }
  destruct (heap st !! data) as [[xs|items]|] eqn:Edata;
    try (eapply Hstop; symmetry; exact H).
  destruct (dict_get ch items) as [ld|] eqn:Eget;
    [|eapply Hstop; symmetry; exact H].
  destruct (heap st !! ld) as [[[|x0 xs]|items']|] eqn:Eld;
    try (eapply Hstop; symmetry; exact H).
  clear Hstop.
  assert (Hdl : List.Forall P (x0 :: xs))
    by exact (Hd items ch ld (x0 :: xs) Edata Eget Eld).
  assert (Hd' : List.Forall P ((x0 :: xs) ++ [last_elt (x0 :: xs)])).
  { apply List.Forall_app. split; [exact Hdl|].
    constructor; [exact (last_elt_ok _ _ Hdl)|constructor]. }
  apply IH in H.
  - destruct H as (new & Hhw & Hnew & Hres). cbn [hw] in Hhw.
    exists (HwWrite ch x0 :: new). rewrite Hhw, <- app_assoc.
    split; [reflexivity|]. split; [|exact Hres].
    constructor; [|exact Hnew]. inversion Hdl; assumption.
  - cbn [heap]. unfold alloc. cbv zeta.
    set (l1 := fresh (dom (heap st))).
    set (h1 := <[l1 := OList (x0 :: xs)]> (heap st)).
    set (l2 := fresh (dom h1)).
    intros items2 ch' l' xs' H1 H2 H3.
    rewrite lookup_insert_eq in H1. injection H1 as <-.
    rewrite lookup_insert in H3.
    destruct (decide (data = l')) as [->|Hne1]; [discriminate|].
    rewrite lookup_insert in H3.
    destruct (decide (l2 = l')) as [<-|Hne2].
    { injection H3 as <-. exact Hd'. }
    unfold h1 in H3. rewrite lookup_insert in H3.
    destruct (decide (l1 = l')) as [<-|Hne3].
    { injection H3 as <-. exact Hdl. }
    rewrite PyFacts.dict_get_set in H2.
    destruct (String.eqb ch' ch).
    + injection H2 as <-. congruence.
    + exact (Hd items ch' l' xs' Edata H2 H3).
  - apply PyFacts.Forall_dict_set; assumption.
Qed.

Lemma send_receive_ok (chan_out : chan_arg) (orig_data : loc) (freq : Q)
    (st : daq) :
  data_ok P (heap st) orig_data ->
  exists new,
    hw (send_receive task_run chan_out orig_data freq st).2 = hw st ++ new
    /\ List.Forall (ev_ok P) new.
Proof.
  intros Hok. unfold data_ok in Hok. unfold send_receive.
  assert (Hnone : forall (r : result (dict (list Q) * list Q)) s,
            hw s = hw st ->
            exists new, hw (r, s).2 = hw st ++ new /\ List.Forall (ev_ok P) new).
  { intros r s Hs. exists []. rewrite app_nil_r. cbn [snd].
    split; [exact Hs|constructor]. }
  destruct (heap st !! orig_data) as [o|] eqn:Eo; [|apply Hnone; reflexivity].
  unfold alloc. cbv zeta.
  set (d1 := fresh (dom (heap st))).
  set (h1 := <[d1 := o]> (heap st)).
  assert (F1 : heap st !! d1 = None) by apply not_elem_of_dom, is_fresh.
  assert (Hrest : forall chs data h,
    dict_ok P h data ->
    exists new,
      hw (match h !! data with
          | None => (Raise TypeError, mkDaq h (hw st) (inputs_to_monitor st))
          | Some od =>
            if negb (length chs =? obj_len od)%nat then
              (Raise (Exception "Must have data for each output channel!"),
               mkDaq h (hw st) (inputs_to_monitor st))
            else
              match send_loop chs data []
                      (mkDaq h (hw st) (inputs_to_monitor st)) with
              | (Raise e, st) => (Raise e, st)
              | (Ok write_data, st) =>
                match chs with
                | [] => (Raise IndexError, st)
                | ch0 :: _ =>
                  let n_samples :=
                    match heap st !! data with
                    | Some (ODict items) =>
                      match dict_get ch0 items with
                      | Some ld =>
                        match heap st !! ld with
                        | Some o => obj_len o
                        | None => 0%nat
                        end
                      | None => 0%nat
                      end
                    | _ => 0%nat
                    end in
                  let received := task_run write_data n_samples freq in
                  let st := mkDaq (heap st)
                              (hw st ++ [HwRun write_data n_samples freq])
                              (inputs_to_monitor st) in
                  match chan_nums (inputs_to_monitor st) with
                  | Raise e => (Raise e, st)
                  | Ok [] => (Raise ValueError, st)
                  | Ok (n :: ns) =>
                    let min_chan := ai_name (fold_left Nat.min ns n) in
                    match trim_inputs (inputs_to_monitor st) min_chan
                            received [] with
                    | Raise e => (Raise e, st)
                    | Ok data_in =>
                      match dict_get "t" received with
                      | None => (Raise KeyError, st)
                      | Some time => (Ok (data_in, removelast time), st)
                      end
                    end
                  end
                end
              end
          end).2 = hw st ++ new
      /\ List.Forall (ev_ok P) new).
  { intros chs data h Hdict.
    destruct (h !! data) as [od|]; [|apply Hnone; reflexivity].
    destruct (negb _); [apply Hnone; reflexivity|].
    destruct (send_loop chs data [] _) as [r st2] eqn:Hloop.
    destruct (send_loop_ok chs data []
                (mkDaq h (hw st) (inputs_to_monitor st)) r st2 Hdict
                ltac:(constructor) Hloop)
      as (new & Hhw & Hnew & Hres). cbn [hw] in Hhw.
    destruct r as [wd|e]; [|exists new; split; assumption].
    destruct chs as [|ch0 chs']; [exists new; split; assumption|].
    cbv zeta. cbn [inputs_to_monitor heap hw].
    set (n := match heap st2 !! data with Some (ODict _) => _ | _ => _ end).
    exists (new ++ [HwRun wd n freq]). split.
    - repeat case_match; cbn [snd hw]; rewrite Hhw, <- app_assoc; reflexivity.
    - apply List.Forall_app. split; [exact Hnew|].
      constructor; [|constructor]. cbn [ev_ok]. exact (Hres wd eq_refl). }
  destruct chan_out as [ch|chs].
  - set (d2 := fresh (dom h1)).
    apply (Hrest [ch] d2 (<[d2 := ODict [(ch, d1)]]> h1)).
    intros items ch' l xs H1 H2 H3.
    rewrite lookup_insert_eq in H1. injection H1 as <-.
    cbn [dict_get] in H2. destruct (String.eqb ch' ch); [|discriminate].
    injection H2 as <-.
    assert (F2 : h1 !! d2 = None) by apply not_elem_of_dom, is_fresh.
    rewrite lookup_insert in H3. destruct (decide (d2 = d1)) as [Heq|Hne].
    { discriminate. }
    unfold h1 in H3. rewrite lookup_insert_eq in H3. injection H3 as ->.
    exact Hok.
  - apply (Hrest chs d1 h1).
    intros items ch' l xs H1 H2 H3. unfold h1 in H1, H3.
    rewrite lookup_insert_eq in H1. injection H1 as ->.
    rewrite lookup_insert in H3. destruct (decide (d1 = l)) as [<-|Hne].
    { discriminate. }
    exact (Hok ch' l xs H2 H3).
Qed.

End Samples.

(** X6.  Whatever [send_receive] returns or raises, every sample it writes
    to the card, as a single value or in the waveforms of the task, comes
    with the property [P] that all samples of the caller's data have: the
    only sample added is a copy of one that was there. *)
Theorem send_receive_sends_callers_samples
    (task_run : dict (list Q) -> nat -> Q -> dict (list Q)) (P : Q -> Prop)
    (chan_out : chan_arg) (orig_data : loc) (freq : Q) (st : daq) :
  data_ok P (heap st) orig_data ->
  exists new,
    hw (send_receive task_run chan_out orig_data freq st).2 = hw st ++ new
    /\ List.Forall (ev_ok P) new.
Proof.
  intros H. exact (send_receive_ok task_run P chan_out orig_data freq st H).
Qed.

Lemma send_receive_sends_callers_samples_witness :
  exists new,
    hw (send_receive idle_task (Many ["ao0"%string]) 2%positive 100 daq1).2
    = hw daq1 ++ new
    /\ List.Forall (ev_ok in_range) new.
Proof.
  apply (send_receive_sends_callers_samples idle_task in_range
           (Many ["ao0"%string]) 2%positive 100 daq1).
  unfold data_ok.
  replace (heap daq1 !! 2%positive)
    with (Some (ODict [("ao0"%string, 1%positive)]))
    by (vm_compute; reflexivity).
  intros ch l xs Hget Hl. cbn [dict_get] in Hget.
  destruct (String.eqb ch "ao0"); [|discriminate].
  injection Hget as <-. vm_compute in Hl. injection Hl as <-.
  repeat constructor; vm_compute; discriminate.
Defined.

(** *** [sweep] never leaves the range of the card *)

Lemma pymax_le_inv (a b c : Q) :
  (pymax a b <= c)%Q -> (a <= c)%Q /\ (b <= c)%Q.
Proof.
  unfold pymax, Qgtb. destruct (Qltb a b) eqn:E; intros H.
  - apply Qltb_lt in E. split; lra.
  - apply Qltb_ge in E. split; lra.
Qed.

Lemma in_range_between (a b x : Q) :
  in_range a -> in_range b -> between a b x -> in_range x.
Proof.
  unfold in_range. intros [A1 A2] [B1 B2] [[H1 H2]|[H1 H2]]; split; lra.
Qed.

Lemma in_range_zero : in_range 0.
Proof. split; discriminate. Qed.

Lemma Forall_in_range_between (a b : Q) (l : list Q) :
  in_range a -> in_range b ->
  List.Forall (between a b) l -> List.Forall in_range l.
Proof.
  intros Ha Hb H. eapply List.Forall_impl; [|exact H].
  intros x Hx. exact (in_range_between a b x Ha Hb Hx).
Qed.

(** Every waveform [sweep] prepares is within range, ramps included. *)
Lemma sweep_loop_in_range (items : dict Q) :
  forall (Vend : dict Q) (numsteps : Z) (accel : bool) (V0 V : dict (list Q)),
    List.Forall (fun kv => List.Forall in_range (snd kv)) V0 ->
    sweep_loop items Vend numsteps accel V0 = Ok V ->
    List.Forall (fun kv => List.Forall in_range (snd kv)) V.
Proof.
  induction items as [|[k vs] items IH]; intros Vend numsteps accel V0 V H0 H;
    cbn [sweep_loop] in H.
  { injection H as <-. exact H0. }
  destruct (dict_get k Vend) as [ve|]; [|discriminate].
  destruct (linspace vs ve numsteps) as [pts|e] eqn:El; [|discriminate].
  destruct (Qgtb (pymax (Qabs vs) (Qabs ve)) 10) eqn:Er; [discriminate|].
  unfold Qgtb in Er. apply Qltb_ge, pymax_le_inv in Er. destruct Er as [Rs Re].
  apply Qabs_Qle_condition in Rs. apply Qabs_Qle_condition in Re.
  assert (Hpts : List.Forall in_range pts).
  { exact (Forall_in_range_between vs ve pts Rs Re
             (linspace_between _ _ _ _ El)). }
  destruct accel.
  - destruct pts as [|first pts]; [discriminate|].
    destruct (accel_function 0 first numaccel) as [up|e] eqn:Eu;
      [|discriminate].
    destruct (accel_function (last_elt (up ++ first :: pts)) 0 numaccel)
      as [down|e] eqn:Ed; [|discriminate].
    assert (Hfirst : in_range first) by (inversion Hpts; assumption).
    assert (Hup : List.Forall in_range up).
    { exact (Forall_in_range_between 0 first up in_range_zero Hfirst
               (accel_function_between _ _ _ _ Eu)). }
    assert (Hall : List.Forall in_range (up ++ first :: pts))
      by (apply List.Forall_app; split; assumption).
    assert (Hlast : in_range (last_elt (up ++ first :: pts))).
    { destruct (up ++ first :: pts) as [|x0 xs] eqn:Eapp.
      - destruct up; discriminate.
      - exact (last_elt_ok in_range x0 xs Hall). }
    assert (Hdown : List.Forall in_range down).
    { exact (Forall_in_range_between _ 0 down Hlast in_range_zero
               (accel_function_between _ _ _ _ Ed)). }
    apply (IH _ _ _ _ _ (PyFacts.Forall_dict_set _ k _ _
             (proj2 (List.Forall_app _ _ _) (conj Hall Hdown))
             (PyFacts.Forall_dict_set _ k _ _ Hpts H0)) H).
  - apply (IH _ _ _ _ _ (PyFacts.Forall_dict_set _ k _ _ Hpts H0) H).
Qed.

Lemma store_lists_subseteq (V : dict (list Q)) :
  forall (h : Py.heap) items h',
    store_lists V h = (items, h') -> h ⊆ h'.
Proof.
  induction V as [|[k xs] V IH]; intros h items h' H; cbn [store_lists] in H.
  { injection H as _ <-. reflexivity. }
  destruct (alloc (OList xs) h) as [l h1] eqn:Ea.
  destruct (store_lists V h1) as [items1 h2] eqn:Es.
  injection H as _ <-.
  etrans; [|exact (IH _ _ _ Es)].
  replace h1 with (alloc (OList xs) h).2 by (rewrite Ea; reflexivity).
  apply NIDAQFacts.alloc_subseteq. reflexivity.
Qed.

Lemma store_lists_ok (P : Q -> Prop) (V : dict (list Q)) :
  forall (h : Py.heap) items h',
    List.Forall (fun kv => List.Forall P (snd kv)) V ->
    store_lists V h = (items, h') ->
    forall k l, In (k, l) items ->
      exists xs, h' !! l = Some (OList xs) /\ List.Forall P xs.
Proof.
  induction V as [|[k0 xs0] V IH]; intros h items h' HV H k l Hin;
    cbn [store_lists] in H.
  { injection H as <- _. destruct Hin. }
  destruct (alloc (OList xs0) h) as [l0 h1] eqn:Ea.
  destruct (store_lists V h1) as [items1 h2] eqn:Es.
  injection H as <- <-. inversion HV as [|? ? Hx0 HV']; subst.
  destruct Hin as [Heq|Hin].
  - injection Heq as <- <-. exists xs0. split; [|exact Hx0].
    apply (lookup_weaken h1); [|exact (store_lists_subseteq _ _ _ _ Es)].
    unfold alloc in Ea. injection Ea as <- <-. apply lookup_insert_eq.
  - exact (IH _ _ _ HV' Es k l Hin).
Qed.

Lemma dict_get_In {V : Type} (k : string) (v : V) (d : dict V) :
  dict_get k d = Some v -> exists k', In (k', v) d.
Proof.
  induction d as [|[k0 v0] d IH]; cbn [dict_get]; [discriminate|].
  destruct (String.eqb k k0).
  - intros H. injection H as <-. exists k0. left. reflexivity.
  - intros H. destruct (IH H) as (k' & Hk'). exists k'. right. exact Hk'.
Qed.

(** A channel out of range stops the loop of [sweep], with the range error
    or with an exception met on the way to that channel. *)
Lemma sweep_loop_stops_out_of_range (items : dict Q) :
  forall (Vend : dict Q) (numsteps : Z) (accel : bool) (V : dict (list Q)),
    (exists k vs ve,
        In (k, vs) items /\ dict_get k Vend = Some ve /\ out_of_range vs ve) ->
    exists e, sweep_loop items Vend numsteps accel V = Raise e.
Proof.
  induction items as [|[k0 vs0] items IH];
    intros Vend numsteps accel V (k & vs & ve & Hin & Hget & Hout).
  { destruct Hin. }
  cbn [sweep_loop].
  destruct (dict_get k0 Vend) as [ve0|] eqn:Hve0; [|eexists; reflexivity].
  destruct (linspace vs0 ve0 numsteps) as [pts|e]; [|eexists; reflexivity].
  destruct (Qgtb (pymax (Qabs vs0) (Qabs ve0)) 10) eqn:E;
    [eexists; reflexivity|].
  assert (Htail : exists k vs ve,
             In (k, vs) items /\ dict_get k Vend = Some ve
             /\ out_of_range vs ve).
  { destruct Hin as [Heq|Hin].
    - injection Heq as <- <-. rewrite Hve0 in Hget. injection Hget as <-.
      exfalso. unfold Qgtb in E. apply Qltb_ge in E.
      exact (Qlt_not_le _ _ Hout E).
    - exists k, vs, ve. repeat split; assumption. }
  destruct accel; [|apply IH; exact Htail].
  destruct pts as [|first pts]; [eexists; reflexivity|].
  destruct (accel_function 0 first numaccel) as [up|e];
    [|eexists; reflexivity].
  destruct (accel_function (last_elt (up ++ first :: pts)) 0 numaccel)
    as [down|e]; [|eexists; reflexivity].
  apply IH. exact Htail.
Qed.

Lemma sweep_samples_in_range
    (task_run : dict (list Q) -> nat -> Q -> dict (list Q))
    (args : sweep_args) (freq : Q) (numsteps : Z) (accel : bool) (st : daq) :
  exists new,
    hw (sweep task_run args freq numsteps accel st).2 = hw st ++ new
    /\ List.Forall (ev_ok in_range) new.
Proof.
  unfold sweep.
  destruct (match args with
            | SweepOne ch vs ve => ([ch], [(ch, vs)], [(ch, ve)])
            | SweepMany chs Vstart Vend => (chs, Vstart, Vend)
            end) as [[chs Vstart] Vend].
  destruct (sweep_loop Vstart Vend numsteps accel []) as [V|e] eqn:Eloop.
  2: { exists []. rewrite app_nil_r. split; [reflexivity|constructor]. }
  pose proof (sweep_loop_in_range _ _ _ _ _ _ ltac:(constructor) Eloop) as HV.
  destruct (store_lists V (heap st)) as [items h] eqn:Es.
  unfold alloc. cbv zeta.
  set (vref := fresh (dom h)).
  set (st1 := mkDaq (<[vref := ODict items]> h) (hw st) (inputs_to_monitor st)).
  assert (Hok : data_ok in_range (heap st1) vref).
  { unfold data_ok, st1. cbn [heap]. rewrite lookup_insert_eq.
    intros ch l xs Hget Hl. destruct (dict_get_In _ _ _ Hget) as (k' & Hin).
    destruct (store_lists_ok in_range V _ _ _ HV Es k' l Hin)
      as (xs0 & Hxs0 & Hgood).
    rewrite lookup_insert in Hl. destruct (decide (vref = l)) as [Heq|Hne].
    { discriminate. }
    rewrite Hxs0 in Hl. injection Hl as <-. exact Hgood. }
  destruct (send_receive_ok task_run in_range (Many chs) vref freq st1 Hok)
    as (new & Hhw & Hnew).
  exists new. split; [|exact Hnew].
  destruct (send_receive task_run (Many chs) vref freq st1)
    as [[[response time]|e] st'].
  - cbn [snd] in Hhw. repeat case_match; exact Hhw.
  - exact Hhw.
Qed.

(** X7.  Voltages being numbers (floats idealised as rationals: no NaN, no
    rounding, no underflow), [sweep] only ever writes samples within
    [-10, 10] volts to the card, whatever the channels, the number of steps,
    the frequency and [accel], and whether it returns or raises: the values
    between the two ends of each channel, the ramps from and to 0 when
    [accel] is set, and the duplicated last sample.  A call with a channel
    whose start or end voltage is beyond 10 volts always raises, well formed
    or not, and leaves the driver as it found it. *)
Theorem sweep_sends_in_range
    (task_run : dict (list Q) -> nat -> Q -> dict (list Q))
    (args : sweep_args) (freq : Q) (numsteps : Z) (accel : bool) (st : daq) :
  (exists new,
      hw (sweep task_run args freq numsteps accel st).2 = hw st ++ new
      /\ List.Forall (ev_ok in_range) new)
  /\ ((exists ch vs ve,
         In (ch, vs, Some ve) (channels args) /\ out_of_range vs ve) ->
      exists e, sweep task_run args freq numsteps accel st = (Raise e, st)).
Proof.
  split; [exact (sweep_samples_in_range task_run args freq numsteps accel st)|].
  intros (ch & vs & ve & Hin & Hout). unfold sweep.
  assert (Hloop : exists e,
    sweep_loop
      (match args with
       | SweepOne ch vs ve => ([ch], [(ch, vs)], [(ch, ve)])
       | SweepMany chs Vstart Vend => (chs, Vstart, Vend)
       end).1.2
      (match args with
       | SweepOne ch vs ve => ([ch], [(ch, vs)], [(ch, ve)])
       | SweepMany chs Vstart Vend => (chs, Vstart, Vend)
       end).2 numsteps accel [] = Raise e).
  { apply sweep_loop_stops_out_of_range.
    destruct args as [c s0 e0|chs Vstart Vend]; cbn [fst snd channels] in *.
    - destruct Hin as [Heq|[]]. injection Heq as <- <- <-.
      exists c, s0, e0. split; [left; reflexivity|].
      split; [|exact Hout]. cbn [dict_get]. rewrite String.eqb_refl.
      reflexivity.
    - apply in_map_iff in Hin. destruct Hin as ([k v] & Heq & Hk).
      cbn [fst snd] in Heq. injection Heq as <- <- Hget.
      exists k, v, ve. repeat split; assumption. }
  destruct Hloop as (e & Hloop). exists e.
  destruct args as [c s0 e0|chs Vstart Vend]; cbn [fst snd] in Hloop;
    rewrite Hloop; reflexivity.
Qed.

Lemma sweep_sends_in_range_witness :
  exists e,
    sweep idle_task (SweepOne "ao0" 0 11) 100 (- 1) false daq0
    = (Raise e, daq0).
Proof.
  apply (sweep_sends_in_range idle_task (SweepOne "ao0" 0 11) 100 (- 1) false
           daq0).
  exists "ao0"%string, 0%Q, 11%Q. split; [left; reflexivity|].
  vm_compute. reflexivity.
Defined.

(** *** The trace of a successful [send_receive] *)

Lemma fold_dict_set_fresh {V : Type} (f : string -> V) (chs : list string) :
  forall (acc : dict V),
    List.NoDup chs ->
    (forall ch, In ch chs -> dict_get ch acc = None) ->
    fold_left (fun w ch => dict_set ch (f ch) w) chs acc
    = acc ++ map (fun ch => (ch, f ch)) chs.
Proof.
  induction chs as [|ch chs IH]; intros acc Hnd Hacc; cbn [fold_left map].
  - rewrite app_nil_r. reflexivity.
  - inversion Hnd as [|? ? Hch Hnd']; subst.
    rewrite (PyFacts.dict_set_fresh ch (f ch) acc (Hacc ch (or_introl eq_refl))).
    rewrite IH; [rewrite <- app_assoc; reflexivity|exact Hnd'|].
    intros c Hc. rewrite PyFacts.dict_get_app, (Hacc c (or_intror Hc)).
    cbn [dict_get]. destruct (String.eqb c ch) eqn:E; [|reflexivity].
    apply String.eqb_eq in E. subst c. contradiction.
Qed.

Section Trace.

Variable task_run : dict (list Q) -> nat -> Q -> dict (list Q).

(** An entry of [data] that the loop does not visit stays as it is. *)
Lemma send_loop_keeps (chs : list string) :
  forall (data : loc) (wd : dict (list Q)) (st : daq) r st'
         (items : dict loc) (c : string) (l : loc) (o : object),
    send_loop chs data wd st = (r, st') ->
    heap st !! data = Some (ODict items) ->
    dict_get c items = Some l -> heap st !! l = Some o -> l <> data ->
    ~ In c chs ->
    exists items',
      heap st' !! data = Some (ODict items')
      /\ dict_get c items' = Some l /\ heap st' !! l = Some o.
Proof.
  induction chs as [|ch chs IH];
    intros data wd st r st' items c l o H Hdata Hc Hl Hne Hnotin;
    cbn [send_loop] in H.
  { injection H as _ <-. exists items. repeat split; assumption. }
  rewrite Hdata in H.
  destruct (dict_get ch items) as [ld|] eqn:Eget;
    [|injection H as _ <-; exists items; repeat split; assumption].
  destruct (heap st !! ld) as [[[|x0 xs]|its]|] eqn:Eld;
    try (injection H as _ <-; exists items; repeat split; assumption).
  unfold alloc in H. cbv zeta in H.
  set (l1 := fresh (dom (heap st))) in H.
  set (h1 := <[l1 := OList (x0 :: xs)]> (heap st)) in H.
  set (l2 := fresh (dom h1)) in H.
  assert (F1 : heap st !! l1 = None) by apply not_elem_of_dom, is_fresh.
  assert (F2 : h1 !! l2 = None) by apply not_elem_of_dom, is_fresh.
  assert (Hl1 : h1 !! l = Some o).
  { unfold h1. rewrite lookup_insert_ne; [exact Hl|]. congruence. }
  eapply IH in H; [exact H| | | | |].
  - cbn [heap]. apply lookup_insert_eq.
  - rewrite PyFacts.dict_get_set.
    destruct (String.eqb c ch) eqn:E; [|exact Hc].
    apply String.eqb_eq in E. subst c. exfalso. apply Hnotin. left.
    reflexivity.
  - cbn [heap]. rewrite lookup_insert_ne by congruence.
    rewrite lookup_insert_ne by congruence. exact Hl1.
  - exact Hne.
  - intros Hin. apply Hnotin. right. exact Hin.
Qed.

Lemma send_loop_trace (wave : string -> list Q) (chs : list string) :
  forall (data : loc) (wd : dict (list Q)) (st : daq) (items : dict loc),
    heap st !! data = Some (ODict items) ->
    List.NoDup chs ->
    (forall ch, In ch chs ->
       exists l x xs, dict_get ch items = Some l
         /\ heap st !! l = Some (OList (x :: xs)) /\ wave ch = x :: xs) ->
    exists st',
      send_loop chs data wd st
      = (Ok (fold_left (fun w ch => dict_set ch (extended (wave ch)) w) chs wd),
         st')
      /\ hw st' = hw st ++ map (fun ch => HwWrite ch (List.hd 0%Q (wave ch))) chs
      /\ inputs_to_monitor st' = inputs_to_monitor st
      /\ (forall ch, In ch chs ->
            exists items' l',
              heap st' !! data = Some (ODict items')
              /\ dict_get ch items' = Some l'
              /\ heap st' !! l' = Some (OList (extended (wave ch)))).
Proof.
  induction chs as [|ch chs IH]; intros data wd st items Hdata Hnd Hall.
  { exists st. cbn [send_loop fold_left map]. rewrite app_nil_r.
    repeat split; try reflexivity. intros ch []. }
  inversion Hnd as [|? ? Hch Hnd']; subst.
  destruct (Hall ch (or_introl eq_refl)) as (ld & x0 & xs & Eget & Eld & Ew).
  cbn [send_loop]. rewrite Hdata, Eget, Eld.
  unfold alloc. cbv zeta.
  set (l1 := fresh (dom (heap st))).
  set (h1 := <[l1 := OList (x0 :: xs)]> (heap st)).
  set (l2 := fresh (dom h1)).
  set (d' := (x0 :: xs) ++ [last_elt (x0 :: xs)]).
  set (st1 := mkDaq (<[data := ODict (dict_set ch l2 items)]>
                       (<[l2 := OList d']> h1))
                    (hw st ++ [HwWrite ch x0]) (inputs_to_monitor st)).
  assert (F1 : heap st !! l1 = None) by apply not_elem_of_dom, is_fresh.
  assert (F2 : h1 !! l2 = None) by apply not_elem_of_dom, is_fresh.
  assert (Hd1 : h1 !! data = Some (ODict items)).
  { unfold h1. rewrite lookup_insert_ne; [exact Hdata|]. congruence. }
  assert (Hdata1 : heap st1 !! data = Some (ODict (dict_set ch l2 items)))
    by (cbn [heap st1]; apply lookup_insert_eq).
  assert (Hold : forall l o, heap st !! l = Some o -> l <> data ->
                             heap st1 !! l = Some o).
  { intros l o Hl Hne. cbn [heap st1].
    rewrite lookup_insert_ne by congruence.
    assert (Hl1 : h1 !! l = Some o).
    { unfold h1. rewrite lookup_insert_ne; [exact Hl|]. congruence. }
    rewrite lookup_insert_ne; [exact Hl1|]. congruence. }
  destruct (IH data (dict_set ch d' wd) st1 (dict_set ch l2 items) Hdata1 Hnd')
    as (st' & Hloop & Hhw & Hin & Hent).
  { intros c Hc. destruct (Hall c (or_intror Hc)) as (lc & y & ys & G & L & W).
    exists lc, y, ys. split; [|split; [|exact W]].
    - rewrite PyFacts.dict_get_set.
      destruct (String.eqb c ch) eqn:E; [|exact G].
      apply String.eqb_eq in E. subst c. contradiction.
    - apply Hold; [exact L|]. intros ->. rewrite Hdata in L. discriminate. }
  exists st'. split; [|split; [|split]].
  - cbn [fold_left]. rewrite Ew. exact Hloop.
  - rewrite Hhw. cbn [hw st1 map]. rewrite Ew, <- app_assoc. reflexivity.
  - rewrite Hin. reflexivity.
  - intros c [<-|Hc]; [|exact (Hent c Hc)].
    assert (Hl2 : heap st1 !! l2 = Some (OList d')).
    { cbn [heap st1]. rewrite lookup_insert_ne.
      - apply lookup_insert_eq.
      - intros ->. rewrite Hd1 in F2. discriminate. }
    assert (Hne2 : l2 <> data)
      by (intros ->; rewrite Hd1 in F2; discriminate).
    destruct (send_loop_keeps chs data _ st1 _ st' _ ch l2 _ Hloop Hdata1
                ltac:(rewrite PyFacts.dict_get_set, String.eqb_refl;
                      reflexivity) Hl2 Hne2 Hch)
      as (items' & H1 & H2 & H3).
    exists items', l2. rewrite Ew. repeat split; assumption.
Qed.

End Trace.



(** X9.  [send_receive] with a list of channels whose number differs from
    the number of entries of the data raises 'Must have data for each output
    channel!' before anything is written to the card. *)
Theorem send_receive_channel_mismatch
    (task_run : dict (list Q) -> nat -> Q -> dict (list Q))
    (chs : list string) (orig_data : loc) (freq : Q) (st : daq) (o : object) :
  heap st !! orig_data = Some o ->
  length chs <> obj_len o ->
  (send_receive task_run (Many chs) orig_data freq st).1
  = Raise (Exception "Must have data for each output channel!")
  /\ hw (send_receive task_run (Many chs) orig_data freq st).2 = hw st.
Proof.
  intros Ho Hlen. unfold send_receive. rewrite Ho. unfold alloc. cbv zeta.
  rewrite lookup_insert_eq.
  replace (length chs =? obj_len o)%nat with false
    by (symmetry; apply Nat.eqb_neq; exact Hlen).
  split; reflexivity.
Qed.

Lemma send_receive_channel_mismatch_witness :
  (send_receive idle_task (Many ["ao0"; "ao1"]%string) 2%positive 100 daq1).1
  = Raise (Exception "Must have data for each output channel!")
  /\ hw (send_receive idle_task (Many ["ao0"; "ao1"]%string) 2%positive 100
           daq1).2 = hw daq1.
Proof.
  apply (send_receive_channel_mismatch idle_task ["ao0"; "ao1"]%string
           2%positive 100 daq1 (ODict [("ao0"%string, 1%positive)])).
  - vm_compute. reflexivity.
  - cbn. lia.
Defined.

(** *** The list of monitored inputs *)

Lemma existsb_eqb_In (inp : string) (l : list string) :
  existsb (String.eqb inp) l = true <-> In inp l.
Proof.
  rewrite existsb_exists. split.
  - intros (x & Hx & E). apply String.eqb_eq in E. subst x. exact Hx.
  - intros H. exists inp. split; [exact H|apply String.eqb_refl].
Qed.

Lemma add_input_spec (inp : string) (st : daq) :
  List.NoDup (inputs_to_monitor st) ->
  List.NoDup (inputs_to_monitor (add_input inp st))
  /\ (forall c, In c (inputs_to_monitor (add_input inp st))
                <-> In c (inputs_to_monitor st) \/ c = inp)
  /\ (exists extra,
        inputs_to_monitor (add_input inp st) = inputs_to_monitor st ++ extra)
  /\ heap (add_input inp st) = heap st /\ hw (add_input inp st) = hw st.
Proof.
  intros Hnd. unfold add_input.
  destruct (existsb (String.eqb inp) (inputs_to_monitor st)) eqn:E.
  - apply existsb_eqb_In in E. split; [exact Hnd|]. split; [|split].
    + intros c. split; [intros H; left; exact H|].
      intros [H| ->]; assumption.
    + exists []. rewrite app_nil_r. reflexivity.
    + split; reflexivity.
  - assert (Hnot : ~ In inp (inputs_to_monitor st)).
    { intros H. apply existsb_eqb_In in H. congruence. }
    cbn [inputs_to_monitor heap hw]. split; [|split; [|split]].
    + apply PyFacts.NoDup_snoc; assumption.
    + intros c. rewrite in_app_iff. cbn [In]. split.
      * intros [H|[<-|[]]]; [left; exact H|right; reflexivity].
      * intros [H| ->]; [left; exact H|right; left; reflexivity].
    + exists [inp]. reflexivity.
    + split; reflexivity.
Qed.

(** X10.  Registering inputs for [monitor] keeps the list of monitored
    inputs free of duplicates: afterwards it holds exactly the inputs that
    were monitored before, in their old order and first, and the ones asked
    for; the heap and the card are not touched. *)
Theorem add_inputs_keeps_a_set (chan_in : list string) (st : daq) :
  List.NoDup (inputs_to_monitor st) ->
  List.NoDup (inputs_to_monitor (add_inputs chan_in st))
  /\ (forall c, In c (inputs_to_monitor (add_inputs chan_in st))
                <-> In c (inputs_to_monitor st) \/ In c chan_in)
  /\ (exists extra,
        inputs_to_monitor (add_inputs chan_in st)
        = inputs_to_monitor st ++ extra)
  /\ heap (add_inputs chan_in st) = heap st
  /\ hw (add_inputs chan_in st) = hw st.
Proof.
  unfold add_inputs. revert st.
  induction chan_in as [|ch chan_in IH]; intros st Hnd; cbn [fold_left].
  - split; [exact Hnd|]. split; [|split; [|split; reflexivity]].
    + intros c. split; [intros H; left; exact H|intros [H|[]]; exact H].
    + exists []. rewrite app_nil_r. reflexivity.
  - destruct (add_input_spec ch st Hnd) as (N1 & M1 & (e1 & E1) & H1 & W1).
    destruct (IH (add_input ch st) N1) as (N2 & M2 & (e2 & E2) & H2 & W2).
    split; [exact N2|]. split; [|split; [|split]].
    + intros c. rewrite M2, M1. cbn [In]. split.
      * intros [[H| ->]|H]; [left; exact H|right; left; reflexivity|].
        right. right. exact H.
      * intros [H|[<-|H]]; [left; left; exact H|left; right; reflexivity|].
        right. exact H.
    + exists (e1 ++ e2). rewrite E2, E1, app_assoc. reflexivity.
    + rewrite H2. exact H1.
    + rewrite W2. exact W1.
Qed.

Lemma add_inputs_keeps_a_set_witness :
  List.NoDup (inputs_to_monitor
                (add_inputs ["ai23"; "ai0"; "ai0"]%string daq0)).
Proof.
  apply (add_inputs_keeps_a_set ["ai23"; "ai0"; "ai0"]%string daq0).
  cbn. repeat constructor. intros [].
Defined.

(** *** Channel numbers *)

Lemma digits_of_uint (d : Decimal.uint) :
  List.filter is_digit (list_ascii_of_string (NilEmpty.string_of_uint d))
  = list_ascii_of_string (NilEmpty.string_of_uint d).
Proof.
  induction d; cbn [NilEmpty.string_of_uint list_ascii_of_string List.filter];
    try reflexivity;
    (change (is_digit _) with true; cbv iota; rewrite IHd; reflexivity).
Qed.

Lemma fold_digits (d : Decimal.uint) :
  forall acc,
    fold_left (fun acc c => (10 * acc + (Ascii.nat_of_ascii c - 48))%nat)
      (list_ascii_of_string (NilEmpty.string_of_uint d)) acc
    = Nat.of_uint_acc d acc.
Proof.
  induction d; intros acc;
    cbn [NilEmpty.string_of_uint list_ascii_of_string fold_left
         Nat.of_uint_acc];
    try reflexivity;
    (rewrite IHd; f_equal; rewrite Nat.tail_mul_spec;
     match goal with
     | |- context [(Ascii.nat_of_ascii ?c - 48)%nat] =>
       let v := eval vm_compute in (Ascii.nat_of_ascii c - 48)%nat in
       change (Ascii.nat_of_ascii c - 48)%nat with v
     end; lia).
Qed.

Lemma to_uint_nonnil (n : nat) : Nat.to_uint n <> Decimal.Nil.
Proof.
  rewrite <- (DecimalNat.Unsigned.of_to n) at 1.
  rewrite DecimalNat.Unsigned.to_of. apply DecimalFacts.unorm_nonnil.
Qed.

(** X11.  The number read off a channel name undoes the formatting
    ['ai%i' % n]: [chan_num] of the name made for [n] is [n], for every
    [n], and so for whole lists of such names. *)
Theorem chan_num_of_ai_name (n : nat) (ns : list nat) :
  chan_num (ai_name n) = Ok n
  /\ chan_nums (map ai_name ns) = Ok ns.
Proof.
  assert (Hone : forall m, chan_num (ai_name m) = Ok m).
  { intros m. unfold chan_num, ai_name.
    change (list_ascii_of_string
              ("ai" ++ NilEmpty.string_of_uint (Nat.to_uint m)))
      with (Ascii.Ascii true false false false false true true false
            :: Ascii.Ascii true false false true false true true false
            :: list_ascii_of_string
                 (NilEmpty.string_of_uint (Nat.to_uint m))).
    cbn [List.filter]. change (is_digit _) with false at 1.
    change (is_digit _) with false at 1. cbv iota.
    rewrite digits_of_uint.
    transitivity
      (@Ok nat
         (fold_left (fun acc c => (10 * acc + (Ascii.nat_of_ascii c - 48))%nat)
            (list_ascii_of_string (NilEmpty.string_of_uint (Nat.to_uint m)))
            0%nat)).
    - pose proof (to_uint_nonnil m) as Hnn.
      destruct (Nat.to_uint m); try reflexivity. contradiction.
    - rewrite fold_digits. f_equal. exact (DecimalNat.Unsigned.of_to m). }
  split; [apply Hone|].
  induction ns as [|m ns IH]; cbn [map chan_nums]; [reflexivity|].
  rewrite Hone, IH. reflexivity.
Qed.

End NIDAQExtra.

(** ** The HDF5 layer: round trips, failures, what [sanitize] lets through *)

Module DatasetExtra.
Import Py Dataset.

(** X12.  What [_writetoh5] has written can be read back: when it succeeds,
    [get] returns the data at one of the paths tried, the target or a reply;
    and when the target path was free it is the target path. *)
Theorem write_then_get (replies : list string) (filename path : string)
    (data : pyval) (fs : disk) (out : list io_event) :
  let o := _writetoh5 replies filename path data fs out in
  res o = Ok tt ->
  (exists p, In p (path :: replies) /\ get (files o) filename p None = Ok data)
  /\ (h5_lookup (components path) (default (H5Group []) (fs !! filename))
      = None ->
      get (files o) filename path None = Ok data).
Proof.
  intros o Hok. subst o.
  destruct (DatasetFacts.writetoh5_spec filename data replies path fs out)
    as [_ Hres].
  destruct (Hres Hok) as (p & f' & Hin & _ & Hf' & Hd). split.
  - exists p. split; [exact Hin|]. unfold get. rewrite Hf', Hd.
    reflexivity.
  - intros Hfree. rewrite DatasetFacts.writetoh5_step in Hok |- *.
    unfold open_append in Hok |- *. cbv zeta in Hok |- *.
    rewrite Hfree in Hok |- *.
    destruct (h5_create (components path) data
                (default (H5Group []) (fs !! filename))) as [f1|e] eqn:Hc;
      [|discriminate].
    unfold get. cbn [files]. rewrite lookup_insert_eq.
    rewrite (DatasetFacts.h5_create_present _ _ _ _ Hc). reflexivity.
Qed.

Lemma write_then_get_witness :
  (exists p, In p ["a/x"; "a/z"]%string
     /\ get (files (_writetoh5 ["a/z"%string] "data.h5" "a/x" (PInt 7)
                     disk_two_groups [])) "data.h5" p None = Ok (PInt 7))
  /\ get (files (_writetoh5 [] "data.h5" "c/w" (PInt 7) disk_two_groups []))
       "data.h5" "c/w" None = Ok (PInt 7).
Proof.
  split.
  - apply (write_then_get ["a/z"%string] "data.h5" "a/x" (PInt 7)
             disk_two_groups []).
    vm_compute. reflexivity.
  - apply (write_then_get [] "data.h5" "c/w" (PInt 7) disk_two_groups []);
      vm_compute; reflexivity.
Defined.

(** *** Slices *)

Lemma slice_of_set_slice {A : Type} (sl : slice) (new xs : list A) :
  length new = length (slice_of sl xs) ->
  slice_of sl (set_slice sl new xs) = new.
Proof.
  unfold slice_of, set_slice. intros Hlen.
  rewrite length_take, length_drop in Hlen.
  destruct (le_lt_dec (start sl) (length xs)) as [Hle|Hlt].
  - rewrite drop_app_length' by (rewrite length_take; lia).
    destruct (le_lt_dec (stop sl) (length xs)) as [Hs|Hs].
    + rewrite take_app_length' by lia. reflexivity.
    + rewrite (drop_ge xs) by lia. rewrite app_nil_r.
      apply take_ge. lia.
  - assert (new = []) as -> by (destruct new; [reflexivity|simpl in Hlen; lia]).
    rewrite (take_ge xs) by lia. rewrite (drop_ge xs) by lia.
    cbn [app]. rewrite app_nil_r. rewrite drop_ge by lia. apply take_nil.
Qed.

Lemma h5_replace_lookup (keys : list string) :
  forall (new o x : h5obj),
    h5_lookup keys o = Some x ->
    h5_lookup keys (h5_replace keys new o) = Some new.
Proof.
  induction keys as [|k keys IH]; intros new o x H; [reflexivity|].
  cbn [h5_lookup h5_replace] in *. destruct o as [c|ms]; [discriminate|].
  destruct (dict_get k ms) as [child|] eqn:Ek; [|discriminate].
  cbn [h5_lookup]. rewrite PyFacts.dict_get_set, String.eqb_refl.
  exact (IH _ _ _ H).
Qed.

(** X13.  A confirmed slice write can be read back: after [_appenddatah5]
    into a slice that only held NaN, [get] with the same slice returns the
    cells written, under the dtype of the dataset. *)
Theorem appenddatah5_then_get (replies : list string) (filename : string)
    (numpyarray dataset : ndarray) (pathtowrite : string) (sl : slice)
    (fs : disk) (out : list io_event) (f : h5obj) :
  fs !! filename = Some f ->
  h5_lookup (components pathtowrite) f = Some (H5Dataset (PArray dataset)) ->
  length (cells numpyarray) = length (slice_of sl (cells dataset)) ->
  forallb isnan (slice_of sl (cells dataset)) = true ->
  get (files (_appenddatah5 replies filename numpyarray pathtowrite sl fs out))
    filename pathtowrite (Some sl)
  = Ok (PArray (mkArray (dtype_of dataset) (cells numpyarray))).
Proof.
  intros Hf Hp Hlen Hnan.
  assert (Hfiles :
    files (_appenddatah5 replies filename numpyarray pathtowrite sl fs out)
    = <[filename :=
          h5_replace (components pathtowrite)
            (H5Dataset (PArray (mkArray (dtype_of dataset)
               (set_slice sl (cells numpyarray) (cells dataset))))) f]> fs).
  { destruct replies as [|r replies]; cbn [_appenddatah5];
      rewrite Hf, Hp, Hlen, Nat.eqb_refl, Hnan; reflexivity. }
  rewrite Hfiles. unfold get. rewrite lookup_insert_eq.
  rewrite (h5_replace_lookup _ _ _ _ Hp). cbn [dtype_of cells].
  rewrite (slice_of_set_slice sl _ _ Hlen). reflexivity.
Qed.

Lemma appenddatah5_then_get_witness :
  get (files (_appenddatah5 [] "data.h5" (mkArray DFloat [CNum 7; CNum 8]) "x"
                (mkSlice 0 2) disk_blank []))
    "data.h5" "x" (Some (mkSlice 0 2))
  = Ok (PArray (mkArray DFloat [CNum 7; CNum 8])).
Proof.
  apply (appenddatah5_then_get [] "data.h5" (mkArray DFloat [CNum 7; CNum 8])
           (mkArray DFloat [CNaN; CNaN; CNum 3]) "x" (mkSlice 0 2) disk_blank []
           blank); vm_compute; reflexivity.
Defined.

(** *** Calls that raise *)

Lemma prefix_refl (s : string) : String.prefix s s = true.
Proof.
  induction s as [|c s IH]; [reflexivity|]. cbn [String.prefix].
  destruct (Ascii.ascii_dec c c); [exact IH|contradiction].
Qed.

Lemma prefix_empty (s : string) : String.prefix "" s = true.
Proof. destruct s; reflexivity. Qed.

Lemma prefix_app_l (a b : string) :
  forall s, String.prefix (a ++ b) s = true -> String.prefix a s = true.
Proof.
  induction a as [|c a IH]; intros s H; [apply prefix_empty|].
  change (String.prefix (String c (a ++ b)) s = true) in H.
  destruct s as [|c' s]; [discriminate|]. cbn [String.prefix] in H |- *.
  destruct (Ascii.ascii_dec c c'); [exact (IH s H)|discriminate].
Qed.

Lemma prefix_length (a : string) :
  forall s, String.prefix a s = true ->
            (String.length a <= String.length s)%nat.
Proof.
  induction a as [|c a IH]; intros s H; cbn [String.length]; [lia|].
  destruct s as [|c' s]; [discriminate|]. cbn [String.prefix] in H.
  destruct (Ascii.ascii_dec c c'); [|discriminate].
  cbn [String.length]. specialize (IH s H). lia.
Qed.

(** A file is not its own antioverwrite copy. *)
Lemma antioverwrite_not_prefix (filename : string) :
  String.prefix ("antioverwrite_" ++ filename) filename = false.
Proof.
  destruct (String.prefix ("antioverwrite_" ++ filename) filename) eqn:E;
    [|reflexivity].
  apply prefix_length in E. simpl in E.
  change ("" ++ filename)%string with filename in E. lia.
Qed.

(** With every assignment accepted the model is [_appenddatah5]. *)
Lemma appenddatah5_accepting (replies : list string) :
  forall (filename : string) (numpyarray : ndarray) (pathtowrite : string)
         (sl : slice) (fs : disk) (out : list io_event),
    _appenddatah5_may_refuse (fun _ _ _ => None) replies filename numpyarray
      pathtowrite sl fs out
    = _appenddatah5 replies filename numpyarray pathtowrite sl fs out.
Proof.
  induction replies as [|reply replies IH];
    intros filename numpyarray pathtowrite sl fs out;
    cbn [_appenddatah5_may_refuse _appenddatah5];
    repeat case_match; try reflexivity; apply IH.
Qed.

(** A refused assignment is a real way to fail: the call below raises, and
    the antioverwrite file that was there has gained a dataset of zeros. *)
Lemma appenddatah5_refused_leaves_zeros :
  let o := _appenddatah5_may_refuse refuse_all ["no"%string] "data.h5"
             (mkArray DFloat [CNum 9]) "x" (mkSlice 0 1) disk_measured_ao []
  in
  res o = Raise OSError
  /\ disk_measured_ao !! "antioverwrite_data.h5"%string = Some (H5Group [])
  /\ files o !! "antioverwrite_data.h5"%string
     = Some (H5Group [("x"%string, H5Dataset (zeros 2))]).
Proof. vm_compute. repeat split; reflexivity. Qed.

Lemma appenddatah5_raise_frame
    (refused : ndarray -> slice -> ndarray -> option exn)
    (replies : list string) :
  forall (filename : string) (numpyarray : ndarray) (pathtowrite : string)
         (sl : slice) (fs : disk) (out : list io_event) (e : exn),
    res (_appenddatah5_may_refuse refused replies filename numpyarray
           pathtowrite sl fs out) = Raise e ->
    forall name f,
      String.prefix ("antioverwrite_" ++ filename) name = false ->
      fs !! name = Some f ->
      files (_appenddatah5_may_refuse refused replies filename numpyarray
               pathtowrite sl fs out) !! name = Some f.
Proof.
  induction replies as [|reply replies IH];
    intros filename numpyarray pathtowrite sl fs out e H name f Hp Hf;
    cbn [_appenddatah5_may_refuse] in H |- *;
    destruct (fs !! filename) as [f0|]; try exact Hf;
    destruct (h5_lookup (components pathtowrite) f0)
      as [[[s|x|n|xs|a|its|s]|ms]|];
    try exact Hf;
    destruct (negb _); try exact Hf;
    destruct (forallb isnan _);
    try (destruct (refused a sl numpyarray); [exact Hf|discriminate]);
    try exact Hf.
  destruct (String.eqb reply "OVERWRITE").
  { destruct (refused a sl numpyarray); [exact Hf|discriminate]. }
  unfold open_append in H |- *. cbv zeta in H |- *.
  assert (Hne : ("antioverwrite_" ++ filename)%string <> name).
  { intros <-. rewrite prefix_refl in Hp. discriminate. }
  assert (Hp' : String.prefix
                  ("antioverwrite_" ++ filename ++ "_antioverwrite") name
                = false).
  { destruct (String.prefix
                ("antioverwrite_" ++ filename ++ "_antioverwrite") name)
      eqn:E; [|reflexivity].
    rewrite <- Hp. symmetry.
    exact (prefix_app_l ("antioverwrite_" ++ filename) "_antioverwrite" name
             E). }
  set (fs1 := <[("antioverwrite_" ++ filename)%string :=
                  default (H5Group [])
                    (fs !! ("antioverwrite_" ++ filename)%string)]> fs) in *.
  assert (Hf1 : fs1 !! name = Some f).
  { unfold fs1. rewrite lookup_insert_ne by exact Hne. exact Hf. }
  destruct (h5_create (components pathtowrite) (zeros (length (cells a))) _)
    as [fao'|e'].
  - destruct (refused a sl numpyarray); [|discriminate].
    apply (IH _ _ _ _ _ _ e H name f Hp').
    rewrite lookup_insert_ne by exact Hne. exact Hf1.
  - exact (IH _ _ _ _ _ _ e H name f Hp' Hf1).
Qed.

(** X14.  A call of [_appenddatah5] that raises has changed no file other
    than antioverwrite copies: whatever the exception and whichever
    assignments h5py refuses, the file it was asked to write to is found as
    it was, and so is every file whose name does not start with
    'antioverwrite_' followed by the name of that file. *)
Theorem appenddatah5_failure_keeps_files
    (refused : ndarray -> slice -> ndarray -> option exn)
    (replies : list string) (filename : string) (numpyarray : ndarray)
    (pathtowrite : string) (sl : slice) (fs : disk) (out : list io_event)
    (e : exn) :
  let o := _appenddatah5_may_refuse refused replies filename numpyarray
             pathtowrite sl fs out in
  res o = Raise e ->
  (forall f, fs !! filename = Some f -> files o !! filename = Some f)
  /\ (forall name f,
        String.prefix ("antioverwrite_" ++ filename) name = false ->
        fs !! name = Some f -> files o !! name = Some f).
Proof.
  intros o H. subst o. split.
  - intros f Hf.
    exact (appenddatah5_raise_frame refused replies filename numpyarray
             pathtowrite sl fs out e H filename f
             (antioverwrite_not_prefix filename) Hf).
  - intros name f Hp Hf.
    exact (appenddatah5_raise_frame refused replies filename numpyarray
             pathtowrite sl fs out e H name f Hp Hf).
Qed.

Lemma appenddatah5_failure_keeps_files_witness :
  res (_appenddatah5_may_refuse refuse_all ["no"%string] "data.h5"
         (mkArray DFloat [CNum 9]) "x" (mkSlice 0 1) disk_measured_ao [])
  = Raise OSError
  /\ files (_appenddatah5_may_refuse refuse_all ["no"%string] "data.h5"
              (mkArray DFloat [CNum 9]) "x" (mkSlice 0 1) disk_measured_ao [])
       !! "data.h5"%string
     = Some measured.
Proof.
  split; [vm_compute; reflexivity|].
  apply (appenddatah5_failure_keeps_files refuse_all ["no"%string] "data.h5"
           (mkArray DFloat [CNum 9]) "x" (mkSlice 0 1) disk_measured_ao []
           OSError); vm_compute; reflexivity.
Defined.

(** *** What [sanitize] lets through *)

Lemma storable_dict (items : list (string * pyval)) :
  storable (PDict items) <-> List.Forall (fun kv => storable (snd kv)) items.
Proof.
  cbn [storable]. induction items as [|[k v] items IH].
  - split; [constructor|intros _; exact I].
  - split.
    + intros [Hv Hrest]. constructor; [exact Hv|apply IH, Hrest].
    + intros H. inversion H as [|? ? Hv Hrest]; subst.
      split; [exact Hv|apply IH, Hrest].
Qed.

Section Storable.

Variable str_of_array : ndarray -> string.

Local Abbreviation clean_or_raises := (Dataset.clean_or_raises str_of_array).

Lemma sanitize_items_clean (items : list (string * pyval)) :
  List.Forall (fun kv => clean_or_raises (snd kv)) items ->
  forall (acc : dict pyval) replies out,
    List.Forall (fun kv => storable (snd kv)) acc ->
    match sanitize_items str_of_array items acc replies out with
    | (Ok v, _, _) => storable v
    | (Raise e, _, _) => e <> ValueError
    end.
Proof.
  induction 1 as [|[k x] items Hx Hitems IH]; intros acc replies out Hacc;
    cbn [sanitize_items].
  - apply storable_dict. exact Hacc.
  - cbn [snd] in Hx. specialize (Hx replies out).
    destruct (sanitize str_of_array x replies out) as [[[x'|e] rs1] out1].
    + apply IH. apply PyFacts.Forall_dict_set; assumption.
    + exact Hx.
Qed.

Lemma sanitize_clean (d : pyval) : clean_or_raises d.
Proof.
  induction d as [s|x|n|xs|a|items IH|s] using DatasetFacts.pyval_dict_ind;
    intros replies out; try exact I.
  - cbn [sanitize]. destruct (allowed_dtype (dtype_of a)) eqn:Ea.
    + exact Ea.
    + destruct (as_floats (cells a)) as [cs|e]; [reflexivity|].
      destruct e; try exact I; discriminate.
  - rewrite (DatasetFacts.sanitize_dict str_of_array).
    apply sanitize_items_clean; [exact IH|constructor].
  - cbn [sanitize]. destruct s as [s|]; [exact I|].
    destruct replies as [|reply replies]; [discriminate|].
    destruct (negb (String.eqb reply "y")); [discriminate|exact I].
Qed.

Lemma sanitize_items_keys (items : list (string * pyval)) :
  forall (acc : dict pyval) replies out clean replies' out',
    List.NoDup (keys acc ++ keys items) ->
    sanitize_items str_of_array items acc replies out
    = (Ok (PDict clean), replies', out') ->
    keys clean = keys acc ++ keys items.
Proof.
  induction items as [|[k x] items IH];
    intros acc replies out clean replies' out' Hnd H;
    cbn [sanitize_items] in H.
  - injection H as <- _ _. cbn [keys map]. rewrite app_nil_r. reflexivity.
  - destruct (sanitize str_of_array x replies out) as [[[x'|e] rs1] out1];
      [|discriminate].
    assert (Hk : dict_get k acc = None).
    { apply PyFacts.dict_get_None. intros Hin.
      apply List.NoDup_remove_2 in Hnd. apply Hnd.
      apply in_or_app. left. exact Hin. }
    apply IH in H.
    + rewrite H, PyFacts.keys_dict_set, Hk. cbn [keys map fst].
      rewrite <- app_assoc. reflexivity.
    + rewrite PyFacts.keys_dict_set, Hk, <- app_assoc. exact Hnd.
Qed.

End Storable.

(** X15.  Whatever the data, what [sanitize] returns is a string, a number,
    a list, an array of an allowed dtype, or a dict whose values are of these
    kinds, at every depth of nested dicts: outside lists no unrecognized
    object and no array of another dtype is left.  Lists are not looked
    into: a list is returned as it is, whatever it holds.  The ValueError of
    a failed conversion is never let out, and a dict with distinct keys comes
    back with the same keys in the same order. *)
Theorem sanitize_output_shape (str_of_array : ndarray -> string)
    (d : pyval) (replies : list string) (out : list io_event) :
  (forall v replies' out',
      sanitize str_of_array d replies out = (Ok v, replies', out') ->
      storable v)
  /\ (forall xs,
        sanitize str_of_array (PList xs) replies out
        = (Ok (PList xs), replies, out))
  /\ (forall e replies' out',
        sanitize str_of_array d replies out = (Raise e, replies', out') ->
        e <> ValueError)
  /\ (forall items clean replies' out',
        d = PDict items -> List.NoDup (keys items) ->
        sanitize str_of_array d replies out = (Ok (PDict clean), replies', out')
        -> keys clean = keys items).
Proof.
  pose proof (sanitize_clean str_of_array d replies out) as H.
  split; [|split; [|split]].
  - intros v replies' out' E. rewrite E in H. exact H.
  - intros xs. reflexivity.
  - intros e replies' out' E. rewrite E in H. exact H.
  - intros items clean replies' out' -> Hnd E.
    rewrite (DatasetFacts.sanitize_dict str_of_array) in E.
    exact (sanitize_items_keys str_of_array items [] _ _ _ _ _ Hnd E).
Qed.

Lemma sanitize_output_shape_witness :
  storable sample_clean.
Proof.
  apply (proj1 (sanitize_output_shape plain_str sample_data ["y"%string] [])
           sample_clean []
           (snd (sanitize plain_str sample_data ["y"%string] []))).
  vm_compute. reflexivity.
Defined.

(** *** [append] *)

Section AppendFacts.

Variable str_of_array : ndarray -> string.

Lemma writetoh5_preserved (replies : list string) (filename path : string)
    (data : pyval) (fs : disk) (out : list io_event) :
  preserved fs (files (_writetoh5 replies filename path data fs out)).
Proof.
  exact (proj1 (DatasetFacts.writetoh5_spec filename data replies path fs out)).
Qed.

Lemma recursivevisit_preserved (filename pathtowrite : string) (d : pyval) :
  forall (keylist : list string) (fs : disk) (replies : list string)
         (out : list io_event),
    preserved fs
      (files (recursivevisit filename pathtowrite keylist d fs replies out)).
Proof.
  induction d as [s|x|n|xs|a|items IH|s] using DatasetFacts.pyval_dict_ind;
    intros keylist fs replies out;
    try (cbn [recursivevisit files]; apply DatasetFacts.preserved_refl).
  cbn [recursivevisit]. revert fs replies out.
  induction IH as [|[key v] items Hv Hitems IHitems]; intros fs replies out.
  { cbn [files]. apply DatasetFacts.preserved_refl. }
  cbn [snd] in Hv.
  assert (Hstep : forall o : outcome unit,
    preserved fs (files o) ->
    preserved fs
      (files (match res o with
              | Ok _ =>
                (fix each (items : list (string * pyval)) (fs : disk)
                     (replies : list string) (out : list io_event)
                   : outcome unit :=
                   match items with
                   | [] => mkOutcome (Ok tt) fs replies out
                   | (key, v) :: items =>
                     let path := keylist ++ [key] in
                     match v with
                     | PDict _ =>
                       let o := recursivevisit filename pathtowrite path v fs
                                  replies out in
                       match res o with
                       | Ok _ => each items (files o) (unread o) (console o)
                       | Raise _ => o
                       end
                     | _ =>
                       let o := _writetoh5 replies filename
                                  (pathtowrite ++ join_slash path) v fs out in
                       match res o with
                       | Ok _ => each items (files o) (unread o) (console o)
                       | Raise _ => o
                       end
                     end
                   end) items (files o) (unread o) (console o)
              | Raise _ => o
              end))).
  { intros o Ho. destruct (res o); [|exact Ho].
    exact (DatasetFacts.preserved_trans _ _ _ Ho (IHitems _ _ _)). }
  destruct v; cbv zeta; first
    [ apply Hstep, writetoh5_preserved
    | apply Hstep, Hv ].
Qed.

End AppendFacts.

(** X16.  [append] without a slice never overwrites, for a single value as
    for a nested dict with any number of leaves and whatever the user
    replies to the prompts: every file that existed is still there and
    every object in it as well, datasets with their contents. *)
Theorem append_never_overwrites (str_of_array : ndarray -> string)
    (filename pathtowrite : string) (datatowrite : pyval) (fs : disk)
    (replies : list string) (out : list io_event) :
  preserved fs
    (files (append str_of_array filename pathtowrite datatowrite None fs
              replies out)).
Proof.
  unfold append.
  destruct (sanitize str_of_array datatowrite replies out)
    as [[[clean|e] rs] out1].
  - destruct clean;
      first [ apply recursivevisit_preserved | apply writetoh5_preserved ].
  - cbn [files]. apply DatasetFacts.preserved_refl.
Qed.

(** *** Paths *)

Lemma split_slash_nonempty (s : string) : split_slash s <> [].
Proof.
  destruct s as [|c s]; cbn [split_slash]; [discriminate|].
  destruct (Ascii.eqb c slash); [discriminate|].
  destruct (split_slash s); discriminate.
Qed.

Lemma split_slash_plain (k : string) :
  ~ In slash (list_ascii_of_string k) -> split_slash k = [k].
Proof.
  induction k as [|c k IH]; cbn [split_slash list_ascii_of_string];
    [reflexivity|].
  intros H. destruct (Ascii.eqb c slash) eqn:E.
  - apply Ascii.eqb_eq in E. exfalso. apply H. left. exact E.
  - rewrite IH; [reflexivity|]. intros Hin. apply H. right. exact Hin.
Qed.

Lemma split_slash_app (a b : string) :
  split_slash (a ++ "/" ++ b) = split_slash a ++ split_slash b.
Proof.
  induction a as [|c a IH].
  - reflexivity.
  - change ((String c a ++ "/" ++ b)%string)
      with (String c (a ++ "/" ++ b)%string).
    cbn [split_slash]. rewrite IH.
    destruct (Ascii.eqb c slash); [reflexivity|].
    pose proof (split_slash_nonempty a) as Hne.
    destruct (split_slash a) as [|h t]; [contradiction|]. reflexivity.
Qed.

(** Gluing a name to the front of a path only changes its first
    component. *)
Lemma split_slash_prefix (p s : string) :
  ~ In slash (list_ascii_of_string p) ->
  split_slash (p ++ s)
  = match split_slash s with
    | [] => [p]
    | h :: t => (p ++ h)%string :: t
    end.
Proof.
  induction p as [|c p IH]; intros Hp.
  - change (split_slash ("" ++ s)) with (split_slash s).
    pose proof (split_slash_nonempty s).
    destruct (split_slash s); [contradiction|reflexivity].
  - change ((String c p ++ s)%string) with (String c (p ++ s)%string).
    cbn [split_slash list_ascii_of_string] in *.
    destruct (Ascii.eqb c slash) eqn:E.
    { apply Ascii.eqb_eq in E. exfalso. apply Hp. left. exact E. }
    rewrite IH by (intros Hin; apply Hp; right; exact Hin).
    destruct (split_slash s); reflexivity.
Qed.

Lemma join_slash_cons (k k2 : string) (rest : list string) :
  join_slash (k :: k2 :: rest) = (k ++ "/" ++ join_slash (k2 :: rest))%string.
Proof. reflexivity. Qed.

Lemma split_join (keys : list string) :
  keys <> [] ->
  List.Forall (fun k => ~ In slash (list_ascii_of_string k)) keys ->
  split_slash (join_slash keys) = keys.
Proof.
  induction keys as [|k keys IH]; intros Hne H; [contradiction|].
  inversion H as [|? ? Hk Hrest]; subst.
  destruct keys as [|k2 rest].
  - cbn [join_slash]. apply split_slash_plain, Hk.
  - rewrite join_slash_cons, split_slash_app, (split_slash_plain k Hk).
    rewrite IH; [reflexivity|discriminate|exact Hrest].
Qed.

Lemma filter_plain (keys : list string) :
  List.Forall plain keys ->
  List.filter (fun k => negb (String.eqb k "")) keys = keys.
Proof.
  induction 1 as [|k keys [Hk _] Hrest IH]; cbn [List.filter]; [reflexivity|].
  destruct (String.eqb k "") eqn:E.
  - apply String.eqb_eq in E. contradiction.
  - cbn [negb]. rewrite IH. reflexivity.
Qed.

(** Keys joined with '/' are read back as the same keys, also behind a
    path that ends with a slash; behind a path that does not, the first key
    is glued to its last component. *)
Lemma components_join (keys : list string) :
  keys <> [] -> List.Forall plain keys ->
  components (join_slash keys) = keys
  /\ (forall p, components ((p ++ "/") ++ join_slash keys)
                = components p ++ keys)
  /\ (forall p, plain p ->
        components (p ++ join_slash keys)
        = (p ++ List.hd ""%string keys)%string :: List.tl keys).
Proof.
  intros Hne Hplain.
  assert (Hfree : List.Forall (fun k => ~ In slash (list_ascii_of_string k))
                    keys).
  { eapply List.Forall_impl; [|exact Hplain]. intros k [_ Hk]. exact Hk. }
  assert (Hc : components (join_slash keys) = keys).
  { unfold components. rewrite (split_join keys Hne Hfree).
    apply filter_plain, Hplain. }
  split; [exact Hc|]. split.
  - intros p. unfold components.
    replace ((p ++ "/") ++ join_slash keys)%string
      with (p ++ "/" ++ join_slash keys)%string.
    + rewrite split_slash_app, List.filter_app. f_equal. exact Hc.
    + clear. induction p as [|c p IH]; [reflexivity|].
      change (String c (p ++ "/" ++ join_slash keys)
              = String c ((p ++ "/") ++ join_slash keys))%string.
      rewrite IH. reflexivity.
  - intros p [Hp1 Hp2]. unfold components.
    rewrite (split_slash_prefix p _ Hp2), (split_join keys Hne Hfree).
    destruct keys as [|k rest]; [contradiction|].
    inversion Hplain as [|? ? Hk Hrest]; subst.
    cbn [List.hd List.tl List.filter].
    destruct (String.eqb (p ++ k) "") eqn:E.
    + apply String.eqb_eq in E. destruct p; [contradiction|discriminate].
    + cbn [negb]. rewrite (filter_plain rest Hrest). reflexivity.
Qed.

Lemma components_plain (k : string) : plain k -> components k = [k].
Proof.
  intros Hk.
  exact (proj1 (components_join [k] ltac:(discriminate)
                  ltac:(constructor; [exact Hk|constructor]))).
Qed.

Lemma append_neq_self (p k : string) : k <> ""%string -> (p ++ k)%string <> p.
Proof.
  intros Hk. induction p as [|c p IH]; [exact Hk|].
  intros H. apply IH. change (String c (p ++ k) = String c p) in H.
  injection H as H. exact H.
Qed.

Lemma plain_app (p k : string) : plain p -> plain k -> plain (p ++ k).
Proof.
  intros [Hp1 Hp2] [Hk1 Hk2]. split.
  - destruct p; [exact Hk1|discriminate].
  - clear Hp1. induction p as [|c p IH]; [exact Hk2|].
    change (list_ascii_of_string (String c p ++ k))
      with (c :: list_ascii_of_string (p ++ k)).
    intros [H|H]; [apply Hp2; left; exact H|].
    apply IH; [|exact H]. intros Hin. apply Hp2. right. exact Hin.
Qed.

Section OneKey.

Variable str_of_array : ndarray -> string.

Lemma sanitize_leaf (v : pyval) (replies : list string) (out : list io_event) :
  storable v -> (forall items, v <> PDict items) ->
  sanitize str_of_array v replies out = (Ok v, replies, out).
Proof.
  intros Hs Hd. destruct v as [s|x|n|xs|a|items|s]; try reflexivity.
  - cbn [storable] in Hs. cbn [sanitize]. rewrite Hs. reflexivity.
  - exfalso. exact (Hd items eq_refl).
  - destruct Hs.
Qed.

(** [append] of a dict with one key whose value is not a dict: one call of
    [_writetoh5], at [pathtowrite] followed directly by the key. *)
Lemma append_one_key (filename pathtowrite k : string) (v : pyval) (fs : disk)
    (replies : list string) (out : list io_event) :
  storable v -> (forall items, v <> PDict items) ->
  append str_of_array filename pathtowrite (PDict [(k, v)]) None fs replies out
  = let o := _writetoh5 replies filename (pathtowrite ++ k) v fs out in
    match res o with
    | Ok _ => mkOutcome (Ok tt) (files o) (unread o) (console o)
    | Raise _ => o
    end.
Proof.
  intros Hs Hd. unfold append.
  rewrite (DatasetFacts.sanitize_dict str_of_array). cbn [sanitize_items].
  rewrite (sanitize_leaf v replies out Hs Hd). cbn [dict_set sanitize_items].
  cbn [recursivevisit app join_slash].
  destruct v as [s|x|n|xs|a|items|s]; try reflexivity.
  exfalso. exact (Hd items eq_refl).
Qed.

End OneKey.



End DatasetExtra.
